(** * libmbbootimg: the Android reader and the MTK writer

    A shallow embedding of [format/android_reader.cpp] and
    [format/mtk_writer.cpp].  Fixed-width integers are [Z] with the
    wrap-around written out, bytes are [Byte.byte], the file object and the
    codec contexts are records that every operation returns updated. *)

From Stdlib Require Import String Ascii ZArith List Bool Lia.
From coqutil Require Import Byte Word.LittleEndianList.
Import ListNotations.
Local Open Scope Z_scope.

(** ** Machine integers *)

Definition UINT32_MAX : Z := 4294967295.
Definition UINT64_MAX : Z := 18446744073709551615.

(** [size_t] is 64 bits wide (LP64). *)
Definition SIZE_MAX : Z := UINT64_MAX.

(** Conversion to [uint32_t] and [uint64_t]. *)
Definition to_u32 (z : Z) : Z := z mod 2 ^ 32.
Definition to_u64 (z : Z) : Z := z mod 2 ^ 64.

Definition is_u32 (z : Z) : Prop := 0 <= z <= UINT32_MAX.
Definition is_u64 (z : Z) : Prop := 0 <= z <= UINT64_MAX.

(** The four bytes a [uint32_t] holding [mb_htole32 v] occupies in memory:
    whatever the host, the least significant byte comes first. *)
Definition le32_bytes (v : Z) : list byte := le_split 4 v.

(** The host value of a little-endian 32-bit field ([mb_le32toh] of the
    stored word). *)
Definition le32_value (bs : list byte) : Z := le_combine (firstn 4 bs).

Definition zeros (n : nat) : list byte := repeat Byte.x00 n.

(** [sub_bytes data off len]: the bytes of [data] in [off, off + len). *)
Definition sub_bytes (data : list byte) (off len : Z) : list byte :=
  firstn (Z.to_nat len) (skipn (Z.to_nat off) data).

Definition bytes_eqb (a b : list byte) : bool :=
  if list_eq_dec Byte.byte_eq_dec a b then true else false.

(** ** Return codes

    The codes of [defs.h]: [RET_OK] is zero and every other code used here is
    negative (a bid that is [>= 0] is a number of bits). *)

Inductive Ret : Type :=
| RET_OK
| RET_WARN
| RET_FAILED
| RET_FATAL
| RET_UNSUPPORTED.

(** [ret < 0]. *)
Definition ret_negative (ret : Ret) : bool :=
  match ret with
  | RET_OK => false
  | _ => true
  end.

Definition Ret_eqb (a b : Ret) : bool :=
  match a, b with
  | RET_OK, RET_OK | RET_WARN, RET_WARN | RET_FAILED, RET_FAILED
  | RET_FATAL, RET_FATAL | RET_UNSUPPORTED, RET_UNSUPPORTED => true
  | _, _ => false
  end.

(** What a bid returns: an [int] that is either one of the codes above or a
    number of matched bits. *)
Inductive BidResult : Type :=
| BidBits (bits : Z)
| BidRet (ret : Ret).

(** ** The file object

    Modelled from the spec: the abstract file ([mbcommon/file.h],
    [mbcommon/file_util.h]) is a seekable byte store with [seek], [read_fully]
    (short only at end of file), [write_fully] and [truncate]; a failure
    carries a fatal bit.  The model keeps the contents, the position, a
    schedule of injected failures (one slot is consumed by every operation:
    [None] lets it proceed, [Some fatal] makes it fail) and the log of the
    operations performed so far. *)

Inductive Whence : Type := SEEK_SET | SEEK_CUR | SEEK_END.

Inductive FileOp : Type :=
| OpSeek (offset : Z) (whence : Whence)
| OpRead (size : Z)
| OpWrite (buf : list byte)
| OpTruncate (size : Z).

Record File : Type := mkFile {
  f_data : list byte;
  f_pos : Z;
  f_faults : list (option bool);
  f_log : list FileOp
}.

Inductive FileResult (A : Type) : Type :=
| FileOk (a : A) (file : File)
| FileErr (fatal : bool) (file : File).
Arguments FileOk {A} a file.
Arguments FileErr {A} fatal file.

Definition file_length (file : File) : Z := Z.of_nat (length (f_data file)).

(** Every operation is logged and takes the next slot of the schedule. *)
Definition file_enter (op : FileOp) (file : File) : File :=
  mkFile (f_data file) (f_pos file) (tl (f_faults file)) (f_log file ++ [op]).

Definition file_fault (file : File) : option bool :=
  hd None (f_faults file).

Definition file_set_pos (file : File) (pos : Z) : File :=
  mkFile (f_data file) pos (f_faults file) (f_log file).

Definition file_set_data (file : File) (data : list byte) : File :=
  mkFile data (f_pos file) (f_faults file) (f_log file).

(** [file.seek(offset, whence, &new_pos)]. *)
Definition File_seek (file : File) (offset : Z) (whence : Whence)
  : FileResult Z :=
  let file1 := file_enter (OpSeek offset whence) file in
  match file_fault file with
  | Some fatal => FileErr fatal file1
  | None =>
      let base := match whence with
                  | SEEK_SET => 0
                  | SEEK_CUR => f_pos file
                  | SEEK_END => file_length file
                  end in
      if base + offset <? 0 then FileErr false file1
      else FileOk (base + offset) (file_set_pos file1 (base + offset))
  end.

(** [file_read_fully(file, buf, size, n)]: the bytes read; [n] is their
    number, smaller than [size] only at the end of the file. *)
Definition file_read_fully (file : File) (size : Z) : FileResult (list byte) :=
  let file1 := file_enter (OpRead size) file in
  match file_fault file with
  | Some fatal => FileErr fatal file1
  | None =>
      let buf := sub_bytes (f_data file) (f_pos file) size in
      FileOk buf (file_set_pos file1 (f_pos file + Z.of_nat (length buf)))
  end.

(** The contents after [buf] is stored at [pos]; a gap is filled with zeros. *)
Definition write_at (data : list byte) (pos : Z) (buf : list byte)
  : list byte :=
  let p := Z.to_nat pos in
  firstn p data ++ zeros (p - length data) ++ buf
    ++ skipn (p + length buf) data.

(** [file_write_fully(file, buf, size, n)]: [n], the number of bytes written. *)
Definition file_write_fully (file : File) (buf : list byte) : FileResult Z :=
  let file1 := file_enter (OpWrite buf) file in
  match file_fault file with
  | Some fatal => FileErr fatal file1
  | None =>
      FileOk (Z.of_nat (length buf))
        (file_set_pos (file_set_data file1 (write_at (f_data file) (f_pos file) buf))
           (f_pos file + Z.of_nat (length buf)))
  end.

(** The contents cut or zero-extended to [size] bytes. *)
Definition truncate_to (data : list byte) (size : Z) : list byte :=
  let n := Z.to_nat size in
  firstn n data ++ zeros (n - length data).

(** [file.truncate(size)]; the position does not move. *)
Definition File_truncate (file : File) (size : Z) : FileResult unit :=
  let file1 := file_enter (OpTruncate size) file in
  match file_fault file with
  | Some fatal => FileErr fatal file1
  | None => FileOk tt (file_set_data file1 (truncate_to (f_data file) size))
  end.

(** [file.is_fatal() ? RET_FATAL : RET_FAILED]. *)
Definition ret_of_file_error (fatal : bool) : Ret :=
  if fatal then RET_FATAL else RET_FAILED.

(** ** Constants of the format headers

    [android_defs.h], [bump_defs.h] and [mtk_defs.h] are not part of the
    sources at hand, and the specification does not give the values they
    define.  They are parameters of the development; [released_defs] below
    gives the values of the released formats for the worked examples. *)

Class FormatDefs : Type := {
  (** The largest offset at which the Android header may start. *)
  MAX_HEADER_OFFSET : Z;
  SAMSUNG_SEANDROID_MAGIC : list byte;
  BUMP_MAGIC : list byte;
  (** [offsetof(MtkHeader, size)]. *)
  MtkHeader_size_offset : Z;
  (** The scan buffer is an array on the stack. *)
  MAX_HEADER_OFFSET_range : 0 <= MAX_HEADER_OFFSET <= UINT32_MAX;
  (** The size field lies inside the 512 bytes of the MTK header. *)
  MtkHeader_size_offset_range : 0 <= MtkHeader_size_offset <= 508
}.

(** Modelled from the spec: the MTK per-section header is a block of 512
    bytes ([sizeof(MtkHeader)]). *)
Definition sizeof_MtkHeader : Z := 512.

(** [SHA_DIGEST_LENGTH] of OpenSSL. *)
Definition SHA_DIGEST_LENGTH : nat := 20.

(** ** SHA-1

    The digest primitive is external.  A context is the message fed so far;
    OpenSSL's three calls report success. *)

Class Sha1 : Type := {
  SHA1 : list byte -> list byte;
  SHA1_length : forall m, length (SHA1 m) = SHA_DIGEST_LENGTH
}.

Definition SHA_CTX : Type := list byte.

Definition SHA1_Init : option SHA_CTX := Some [].

Definition SHA1_Update (c : SHA_CTX) (data : list byte) : option SHA_CTX :=
  Some (c ++ data).

Definition SHA1_Final `{Sha1} (c : SHA_CTX) : option (list byte) :=
  Some (SHA1 c).

(** ** Entries and alignment *)

(** Modelled from the spec: the entry types of [entry.h], a closed
    enumeration. *)
Inductive EntryType : Type :=
| ENTRY_TYPE_KERNEL
| ENTRY_TYPE_RAMDISK
| ENTRY_TYPE_SECONDBOOT
| ENTRY_TYPE_DEVICE_TREE
| ENTRY_TYPE_MTK_KERNEL_HEADER
| ENTRY_TYPE_MTK_RAMDISK_HEADER.

Definition EntryType_eqb (a b : EntryType) : bool :=
  match a, b with
  | ENTRY_TYPE_KERNEL, ENTRY_TYPE_KERNEL
  | ENTRY_TYPE_RAMDISK, ENTRY_TYPE_RAMDISK
  | ENTRY_TYPE_SECONDBOOT, ENTRY_TYPE_SECONDBOOT
  | ENTRY_TYPE_DEVICE_TREE, ENTRY_TYPE_DEVICE_TREE
  | ENTRY_TYPE_MTK_KERNEL_HEADER, ENTRY_TYPE_MTK_KERNEL_HEADER
  | ENTRY_TYPE_MTK_RAMDISK_HEADER, ENTRY_TYPE_MTK_RAMDISK_HEADER => true
  | _, _ => false
  end.

(** Modelled from the spec: [align_page_size] of [align_p.h], the number of
    bytes from [item_size] up to the next multiple of [page_size].  The spec
    speaks of positive page sizes only; the model pads nothing at 0. *)
Definition align_page_size (item_size page_size : Z) : Z :=
  if page_size =? 0 then 0
  else (page_size - item_size mod page_size) mod page_size.

(** [pos] aligned up to [page_size]: the least multiple of [page_size] that
    is not below [pos]. *)
Definition align_up (pos page_size : Z) : Z :=
  (pos + page_size - 1) / page_size * page_size.

(** ** The segment reader

    Modelled from the spec: [SegmentReader] of [segment_reader_p.h] keeps
    the ordered table of [(type, offset, size, can_truncate)] and a cursor.
    [entries_clear] empties the table; [entries_add] fails with
    [UNSUPPORTED] when the type is already present. *)

Module SegmentReader.

Record Entry : Type := mkEntry {
  type : EntryType;
  offset : Z;
  size : Z;
  can_truncate : bool
}.

Record t : Type := mk {
  entries : list Entry;
  cursor : option nat
}.

Definition empty : t := mk [] None.

Definition entries_clear (seg : t) : t := mk [] None.

Definition entries_add (seg : t) (ty : EntryType) (off sz : Z)
  (truncate : bool) : Ret * t :=
  if existsb (fun e => EntryType_eqb (type e) ty) (entries seg)
  then (RET_UNSUPPORTED, seg)
  else (RET_OK, mk (entries seg ++ [mkEntry ty off sz truncate]) (cursor seg)).

End SegmentReader.

(** ** The segment writer

    Modelled from the spec: [SegmentWriter] of [segment_writer_p.h] keeps
    the table and the entry being written; [entry()] is that entry, or null
    when there is none.  An entry's offset and size are those recorded while
    it was written; the size is kept as a 64-bit quantity, which covers any
    narrower declaration.  [finish_entry] seeks forward by the alignment
    padding so that the next segment starts aligned. *)

Module SegmentWriter.

Record Entry : Type := mkEntry {
  type : EntryType;
  offset : Z;
  size : Z;
  align : Z
}.

Record t : Type := mk {
  entries : list Entry;
  cursor : option nat
}.

Definition entries_size (seg : t) : nat := length (entries seg).

Definition entries_get (seg : t) (i : nat) : option Entry :=
  nth_error (entries seg) i.

Definition entry (seg : t) : option Entry :=
  match cursor seg with
  | Some i => nth_error (entries seg) i
  | None => None
  end.

Definition finish_entry (seg : t) (file : File) : Ret * t * File :=
  match entry seg with
  | None => (RET_FATAL, seg, file)
  | Some e =>
      match File_seek file
              (align_page_size (to_u64 (offset e + size e)) (align e))
              SEEK_CUR with
      | FileErr fatal file' => (ret_of_file_error fatal, seg, file')
      | FileOk _ file' => (RET_OK, seg, file')
      end
  end.

End SegmentWriter.

(** ** The logical header

    Modelled from the spec: [Header] of [header.h], the format-neutral
    record of optional fields with the set of fields the active format
    supports; setting a field that is not supported fails at the call. *)

Module Header.

Inductive Field : Type :=
| FIELD_BOARD_NAME
| FIELD_KERNEL_CMDLINE
| FIELD_PAGE_SIZE
| FIELD_KERNEL_ADDRESS
| FIELD_RAMDISK_ADDRESS
| FIELD_SECONDBOOT_ADDRESS
| FIELD_KERNEL_TAGS_ADDRESS.

Definition Field_eqb (a b : Field) : bool :=
  match a, b with
  | FIELD_BOARD_NAME, FIELD_BOARD_NAME
  | FIELD_KERNEL_CMDLINE, FIELD_KERNEL_CMDLINE
  | FIELD_PAGE_SIZE, FIELD_PAGE_SIZE
  | FIELD_KERNEL_ADDRESS, FIELD_KERNEL_ADDRESS
  | FIELD_RAMDISK_ADDRESS, FIELD_RAMDISK_ADDRESS
  | FIELD_SECONDBOOT_ADDRESS, FIELD_SECONDBOOT_ADDRESS
  | FIELD_KERNEL_TAGS_ADDRESS, FIELD_KERNEL_TAGS_ADDRESS => true
  | _, _ => false
  end.

Record t : Type := mk {
  supported_fields : list Field;
  board_name : option (list byte);
  kernel_cmdline : option (list byte);
  page_size : option Z;
  kernel_address : option Z;
  ramdisk_address : option Z;
  secondboot_address : option Z;
  kernel_tags_address : option Z
}.

Definition empty : t := mk [] None None None None None None None.

Definition supports (h : t) (f : Field) : bool :=
  existsb (Field_eqb f) (supported_fields h).

Definition set_supported_fields (h : t) (fields : list Field) : t :=
  mk fields (board_name h) (kernel_cmdline h) (page_size h)
    (kernel_address h) (ramdisk_address h) (secondboot_address h)
    (kernel_tags_address h).

(** Each setter returns whether it succeeded, and the header. *)
Definition set_board_name (h : t) (v : list byte) : bool * t :=
  if supports h FIELD_BOARD_NAME
  then (true, mk (supported_fields h) (Some v) (kernel_cmdline h)
                (page_size h) (kernel_address h) (ramdisk_address h)
                (secondboot_address h) (kernel_tags_address h))
  else (false, h).

Definition set_kernel_cmdline (h : t) (v : list byte) : bool * t :=
  if supports h FIELD_KERNEL_CMDLINE
  then (true, mk (supported_fields h) (board_name h) (Some v)
                (page_size h) (kernel_address h) (ramdisk_address h)
                (secondboot_address h) (kernel_tags_address h))
  else (false, h).

Definition set_page_size (h : t) (v : Z) : bool * t :=
  if supports h FIELD_PAGE_SIZE
  then (true, mk (supported_fields h) (board_name h) (kernel_cmdline h)
                (Some v) (kernel_address h) (ramdisk_address h)
                (secondboot_address h) (kernel_tags_address h))
  else (false, h).

Definition set_kernel_address (h : t) (v : Z) : bool * t :=
  if supports h FIELD_KERNEL_ADDRESS
  then (true, mk (supported_fields h) (board_name h) (kernel_cmdline h)
                (page_size h) (Some v) (ramdisk_address h)
                (secondboot_address h) (kernel_tags_address h))
  else (false, h).

Definition set_ramdisk_address (h : t) (v : Z) : bool * t :=
  if supports h FIELD_RAMDISK_ADDRESS
  then (true, mk (supported_fields h) (board_name h) (kernel_cmdline h)
                (page_size h) (kernel_address h) (Some v)
                (secondboot_address h) (kernel_tags_address h))
  else (false, h).

Definition set_secondboot_address (h : t) (v : Z) : bool * t :=
  if supports h FIELD_SECONDBOOT_ADDRESS
  then (true, mk (supported_fields h) (board_name h) (kernel_cmdline h)
                (page_size h) (kernel_address h) (ramdisk_address h)
                (Some v) (kernel_tags_address h))
  else (false, h).

Definition set_kernel_tags_address (h : t) (v : Z) : bool * t :=
  if supports h FIELD_KERNEL_TAGS_ADDRESS
  then (true, mk (supported_fields h) (board_name h) (kernel_cmdline h)
                (page_size h) (kernel_address h) (ramdisk_address h)
                (secondboot_address h) (Some v))
  else (false, h).

End Header.

(** ** C strings

    A [const char *] argument is the [string] of its characters; as in C, a
    string ends at its first NUL. *)

Definition char_code (c : ascii) : Z := Z.of_nat (nat_of_ascii c).

Definition NUL : ascii := Ascii.zero.

Definition str_head (s : string) : ascii :=
  match s with
  | EmptyString => NUL
  | String c _ => c
  end.

Definition str_tail (s : string) : string :=
  match s with
  | EmptyString => EmptyString
  | String _ r => r
  end.

(** [tolower] in the C locale. *)
Definition tolower (c : ascii) : ascii :=
  let n := nat_of_ascii c in
  if (65 <=? n)%nat && (n <=? 90)%nat then ascii_of_nat (n + 32) else c.

Fixpoint strcmp (s1 s2 : string) : Z :=
  match s1 with
  | EmptyString => 0 - char_code (str_head s2)
  | String c1 r1 =>
      if Ascii.eqb c1 (str_head s2)
      then if Ascii.eqb c1 NUL then 0 else strcmp r1 (str_tail s2)
      else char_code c1 - char_code (str_head s2)
  end.

Fixpoint strcasecmp (s1 s2 : string) : Z :=
  match s1 with
  | EmptyString => 0 - char_code (tolower (str_head s2))
  | String c1 r1 =>
      if Ascii.eqb (tolower c1) (tolower (str_head s2))
      then if Ascii.eqb c1 NUL then 0 else strcasecmp r1 (str_tail s2)
      else char_code (tolower c1) - char_code (tolower (str_head s2))
  end.

(** The bytes of a fixed array up to its first NUL ([strncpy] into a buffer
    one byte longer, terminated, read back as a string). *)
Fixpoint c_bytes (bs : list byte) : list byte :=
  match bs with
  | [] => []
  | b :: r => if Byte.eqb b Byte.x00 then [] else b :: c_bytes r
  end.

(** [mb_memmem]: the offset of the first occurrence of [needle]. *)
Fixpoint starts_with (needle hay : list byte) : bool :=
  match needle, hay with
  | [], _ => true
  | _ :: _, [] => false
  | n :: ns, h :: hs => Byte.eqb n h && starts_with ns hs
  end.

Fixpoint mb_memmem (hay needle : list byte) : option nat :=
  if starts_with needle hay then Some 0%nat
  else match hay with
       | [] => None
       | _ :: hs => option_map S (mb_memmem hs needle)
       end.

(** [memcmp(a, b, n) == 0]. *)
Definition memcmp_eq (a b : list byte) (n : Z) : bool :=
  bytes_eqb (firstn (Z.to_nat n) a) (firstn (Z.to_nat n) b).

(** ** namespace android *)

Module android.

(** Modelled from the spec: the magic of [android_defs.h] is the eight bytes
    of "ANDROID!". *)
Definition BOOT_MAGIC : list byte := list_byte_of_string "ANDROID!".
Definition BOOT_MAGIC_SIZE : Z := 8.

(** Modelled from the spec: [AndroidHeader] of [android_defs.h].  The
    integral fields hold host values; [name], [cmdline] and [id] are the
    bytes of the arrays ([id] is the memory of [uint32_t id[8]] on a
    little-endian host, where [mb_le32toh] leaves it as it is). *)
Record AndroidHeader : Type := mkAndroidHeader {
  magic : list byte;
  kernel_size : Z;
  kernel_addr : Z;
  ramdisk_size : Z;
  ramdisk_addr : Z;
  second_size : Z;
  second_addr : Z;
  tags_addr : Z;
  page_size : Z;
  dt_size : Z;
  unused : Z;
  id : list byte;
  name : list byte;
  cmdline : list byte
}.

(** Modelled from the spec: the fixed little-endian layout, in the order the
    specification lists the fields: 8 bytes of magic, ten 32-bit words, 32
    bytes of [id], 16 of [name], 512 of [cmdline]. *)
Definition sizeof_AndroidHeader : Z := 608.

(** [n] bytes of an array field: cut or zero-padded. *)
Definition field_bytes (n : nat) (bs : list byte) : list byte :=
  firstn n bs ++ zeros (n - length bs).

(** The bytes written for a header: [android_fix_header_byte_order] applied
    to a copy, then the copy taken as raw memory. *)
Definition android_header_bytes (h : AndroidHeader) : list byte :=
  field_bytes 8 (magic h)
    ++ le32_bytes (kernel_size h) ++ le32_bytes (kernel_addr h)
    ++ le32_bytes (ramdisk_size h) ++ le32_bytes (ramdisk_addr h)
    ++ le32_bytes (second_size h) ++ le32_bytes (second_addr h)
    ++ le32_bytes (tags_addr h) ++ le32_bytes (page_size h)
    ++ le32_bytes (dt_size h) ++ le32_bytes (unused h)
    ++ field_bytes 32 (id h) ++ field_bytes 16 (name h)
    ++ field_bytes 512 (cmdline h).

(** The header held by [sizeof(AndroidHeader)] bytes: the raw copy followed
    by [android_fix_header_byte_order]. *)
Definition android_header_of_bytes (bs : list byte) : AndroidHeader :=
  mkAndroidHeader
    (sub_bytes bs 0 8)
    (le32_value (skipn 8 bs)) (le32_value (skipn 12 bs))
    (le32_value (skipn 16 bs)) (le32_value (skipn 20 bs))
    (le32_value (skipn 24 bs)) (le32_value (skipn 28 bs))
    (le32_value (skipn 32 bs)) (le32_value (skipn 36 bs))
    (le32_value (skipn 40 bs)) (le32_value (skipn 44 bs))
    (sub_bytes bs 48 32) (sub_bytes bs 80 16) (sub_bytes bs 96 512).

Definition zero_header : AndroidHeader :=
  mkAndroidHeader (zeros 8) 0 0 0 0 0 0 0 0 0 0 (zeros 32) (zeros 16)
    (zeros 512).

(** The fields [android_set_header] sets. *)
Definition SUPPORTED_FIELDS : list Header.Field :=
  [Header.FIELD_BOARD_NAME; Header.FIELD_KERNEL_CMDLINE;
   Header.FIELD_PAGE_SIZE; Header.FIELD_KERNEL_ADDRESS;
   Header.FIELD_RAMDISK_ADDRESS; Header.FIELD_SECONDBOOT_ADDRESS;
   Header.FIELD_KERNEL_TAGS_ADDRESS].

Record AndroidReaderCtx : Type := mkCtx {
  hdr : AndroidHeader;
  have_header_offset : bool;
  header_offset : Z;
  have_samsung_offset : bool;
  samsung_offset : Z;
  have_bump_offset : bool;
  bump_offset : Z;
  allow_truncated_dt : bool;
  seg : SegmentReader.t
}.

Definition set_hdr (ctx : AndroidReaderCtx) (h : AndroidHeader) (off : Z)
  : AndroidReaderCtx :=
  mkCtx h (have_header_offset ctx) off (have_samsung_offset ctx)
    (samsung_offset ctx) (have_bump_offset ctx) (bump_offset ctx)
    (allow_truncated_dt ctx) (seg ctx).

Definition set_have_header_offset (ctx : AndroidReaderCtx) (b : bool)
  : AndroidReaderCtx :=
  mkCtx (hdr ctx) b (header_offset ctx) (have_samsung_offset ctx)
    (samsung_offset ctx) (have_bump_offset ctx) (bump_offset ctx)
    (allow_truncated_dt ctx) (seg ctx).

Definition set_samsung_offset (ctx : AndroidReaderCtx) (off : Z)
  : AndroidReaderCtx :=
  mkCtx (hdr ctx) (have_header_offset ctx) (header_offset ctx)
    (have_samsung_offset ctx) off (have_bump_offset ctx) (bump_offset ctx)
    (allow_truncated_dt ctx) (seg ctx).

Definition set_have_samsung_offset (ctx : AndroidReaderCtx) (b : bool)
  : AndroidReaderCtx :=
  mkCtx (hdr ctx) (have_header_offset ctx) (header_offset ctx) b
    (samsung_offset ctx) (have_bump_offset ctx) (bump_offset ctx)
    (allow_truncated_dt ctx) (seg ctx).

Definition set_bump_offset (ctx : AndroidReaderCtx) (off : Z)
  : AndroidReaderCtx :=
  mkCtx (hdr ctx) (have_header_offset ctx) (header_offset ctx)
    (have_samsung_offset ctx) (samsung_offset ctx) (have_bump_offset ctx)
    off (allow_truncated_dt ctx) (seg ctx).

Definition set_have_bump_offset (ctx : AndroidReaderCtx) (b : bool)
  : AndroidReaderCtx :=
  mkCtx (hdr ctx) (have_header_offset ctx) (header_offset ctx)
    (have_samsung_offset ctx) (samsung_offset ctx) b (bump_offset ctx)
    (allow_truncated_dt ctx) (seg ctx).

Definition set_allow_truncated_dt (ctx : AndroidReaderCtx) (b : bool)
  : AndroidReaderCtx :=
  mkCtx (hdr ctx) (have_header_offset ctx) (header_offset ctx)
    (have_samsung_offset ctx) (samsung_offset ctx) (have_bump_offset ctx)
    (bump_offset ctx) b (seg ctx).

Definition set_seg (ctx : AndroidReaderCtx) (s : SegmentReader.t)
  : AndroidReaderCtx :=
  mkCtx (hdr ctx) (have_header_offset ctx) (header_offset ctx)
    (have_samsung_offset ctx) (samsung_offset ctx) (have_bump_offset ctx)
    (bump_offset ctx) (allow_truncated_dt ctx) s.

Section reader.
Context `{FormatDefs}.

Definition SAMSUNG_SEANDROID_MAGIC_SIZE : Z :=
  Z.of_nat (length SAMSUNG_SEANDROID_MAGIC).

Definition BUMP_MAGIC_SIZE : Z := Z.of_nat (length BUMP_MAGIC).

(** [header_out] and [offset_out] are the references the caller passes;
    they come back changed only when the header is found. *)
Definition find_android_header (file : File) (max_header_offset : Z)
  (header_out : AndroidHeader) (offset_out : Z)
  : Ret * AndroidHeader * Z * File :=
  if MAX_HEADER_OFFSET <? max_header_offset
  then (RET_WARN, header_out, offset_out, file)
  else
    match File_seek file 0 SEEK_SET with
    | FileErr fatal file1 =>
        (ret_of_file_error fatal, header_out, offset_out, file1)
    | FileOk _ file1 =>
        match file_read_fully file1
                (max_header_offset + sizeof_AndroidHeader) with
        | FileErr fatal file2 =>
            (ret_of_file_error fatal, header_out, offset_out, file2)
        | FileOk buf file2 =>
            let n := Z.of_nat (length buf) in
            match mb_memmem buf BOOT_MAGIC with
            | None => (RET_WARN, header_out, offset_out, file2)
            | Some ptr =>
                let offset := Z.of_nat ptr in
                if n - offset <? sizeof_AndroidHeader
                then (RET_WARN, header_out, offset_out, file2)
                else (RET_OK,
                      android_header_of_bytes
                        (sub_bytes buf offset sizeof_AndroidHeader),
                      offset, file2)
            end
        end
    end.

(** The position after the header page and the four sections, as both
    magic finders compute it in [uint64_t]. *)
Definition magic_pos (hdr : AndroidHeader) : Z :=
  let pos := 0 in
  (* Skip header, whose size cannot exceed the page size *)
  let pos := to_u64 (pos + page_size hdr) in
  (* Skip kernel *)
  let pos := to_u64 (pos + kernel_size hdr) in
  let pos := to_u64 (pos + align_page_size pos (page_size hdr)) in
  (* Skip ramdisk *)
  let pos := to_u64 (pos + ramdisk_size hdr) in
  let pos := to_u64 (pos + align_page_size pos (page_size hdr)) in
  (* Skip second bootloader *)
  let pos := to_u64 (pos + second_size hdr) in
  let pos := to_u64 (pos + align_page_size pos (page_size hdr)) in
  (* Skip device tree *)
  let pos := to_u64 (pos + dt_size hdr) in
  let pos := to_u64 (pos + align_page_size pos (page_size hdr)) in
  pos.

Definition find_samsung_seandroid_magic (file : File) (hdr : AndroidHeader)
  (offset_out : Z) : Ret * Z * File :=
  let pos := magic_pos hdr in
  match File_seek file pos SEEK_SET with
  | FileErr fatal file1 => (ret_of_file_error fatal, offset_out, file1)
  | FileOk _ file1 =>
      match file_read_fully file1 SAMSUNG_SEANDROID_MAGIC_SIZE with
      | FileErr fatal file2 => (ret_of_file_error fatal, offset_out, file2)
      | FileOk buf file2 =>
          let n := Z.of_nat (length buf) in
          if negb (n =? SAMSUNG_SEANDROID_MAGIC_SIZE)
             || negb (memcmp_eq buf SAMSUNG_SEANDROID_MAGIC n)
          then (RET_WARN, offset_out, file2)
          else (RET_OK, pos, file2)
      end
  end.

Definition find_bump_magic (file : File) (hdr : AndroidHeader)
  (offset_out : Z) : Ret * Z * File :=
  let pos := magic_pos hdr in
  match File_seek file pos SEEK_SET with
  | FileErr fatal file1 => (ret_of_file_error fatal, offset_out, file1)
  | FileOk _ file1 =>
      match file_read_fully file1 BUMP_MAGIC_SIZE with
      | FileErr fatal file2 => (ret_of_file_error fatal, offset_out, file2)
      | FileOk buf file2 =>
          let n := Z.of_nat (length buf) in
          if negb (n =? BUMP_MAGIC_SIZE)
             || negb (memcmp_eq buf BUMP_MAGIC n)
          then (RET_WARN, offset_out, file2)
          else (RET_OK, pos, file2)
      end
  end.

Definition android_set_header (hdr : AndroidHeader) (header : Header.t)
  : Ret * Header.t :=
  let board_name := c_bytes (field_bytes 16 (name hdr)) in
  let cmdline := c_bytes (field_bytes 512 (cmdline hdr)) in
  let header := Header.set_supported_fields header SUPPORTED_FIELDS in
  let '(ok, header1) := Header.set_board_name header board_name in
  if negb ok then (RET_UNSUPPORTED, header1) else
  let '(ok, header2) := Header.set_kernel_cmdline header1 cmdline in
  if negb ok then (RET_UNSUPPORTED, header2) else
  let '(ok, header3) := Header.set_page_size header2 (page_size hdr) in
  if negb ok then (RET_UNSUPPORTED, header3) else
  let '(ok, header4) := Header.set_kernel_address header3 (kernel_addr hdr) in
  if negb ok then (RET_UNSUPPORTED, header4) else
  let '(ok, header5) :=
    Header.set_ramdisk_address header4 (ramdisk_addr hdr) in
  if negb ok then (RET_UNSUPPORTED, header5) else
  let '(ok, header6) :=
    Header.set_secondboot_address header5 (second_addr hdr) in
  if negb ok then (RET_UNSUPPORTED, header6) else
  let '(ok, header7) :=
    Header.set_kernel_tags_address header6 (tags_addr hdr) in
  if negb ok then (RET_UNSUPPORTED, header7) else
  (RET_OK, header7).

Definition android_reader_bid (ctx : AndroidReaderCtx) (file : File)
  (best_bid : Z) : BidResult * AndroidReaderCtx * File :=
  let bid := 0 in
  if (BOOT_MAGIC_SIZE + SAMSUNG_SEANDROID_MAGIC_SIZE) * 8 <=? best_bid
  then
    (* This is a bid we can't win, so bail out *)
    (BidRet RET_WARN, ctx, file)
  else
    (* Find the Android header *)
    match find_android_header file MAX_HEADER_OFFSET
            (hdr ctx) (header_offset ctx) with
    | (RET_OK, h, off, file1) =>
        (* Update bid to account for matched bits *)
        let ctx1 := set_have_header_offset (set_hdr ctx h off) true in
        let bid := bid + BOOT_MAGIC_SIZE * 8 in
        (* Find the Samsung magic *)
        match find_samsung_seandroid_magic file1 (hdr ctx1)
                (samsung_offset ctx1) with
        | (RET_OK, soff, file2) =>
            let ctx2 :=
              set_have_samsung_offset (set_samsung_offset ctx1 soff) true in
            (BidBits (bid + SAMSUNG_SEANDROID_MAGIC_SIZE * 8), ctx2, file2)
        | (RET_WARN, soff, file2) =>
            (* Nothing found. Don't change bid *)
            (BidBits bid, set_samsung_offset ctx1 soff, file2)
        | (ret, soff, file2) =>
            (BidRet ret, set_samsung_offset ctx1 soff, file2)
        end
    | (RET_WARN, h, off, file1) =>
        (* Header not found. This can't be an Android boot image. *)
        (BidBits 0, set_hdr ctx h off, file1)
    | (ret, h, off, file1) => (BidRet ret, set_hdr ctx h off, file1)
    end.

Definition bump_reader_bid (ctx : AndroidReaderCtx) (file : File)
  (best_bid : Z) : BidResult * AndroidReaderCtx * File :=
  let bid := 0 in
  if (BOOT_MAGIC_SIZE + BUMP_MAGIC_SIZE) * 8 <=? best_bid
  then
    (* This is a bid we can't win, so bail out *)
    (BidRet RET_WARN, ctx, file)
  else
    (* Find the Android header *)
    match find_android_header file MAX_HEADER_OFFSET
            (hdr ctx) (header_offset ctx) with
    | (RET_OK, h, off, file1) =>
        (* Update bid to account for matched bits *)
        let ctx1 := set_have_header_offset (set_hdr ctx h off) true in
        let bid := bid + BOOT_MAGIC_SIZE * 8 in
        (* Find the Bump magic *)
        match find_bump_magic file1 (hdr ctx1) (bump_offset ctx1) with
        | (RET_OK, boff, file2) =>
            let ctx2 :=
              set_have_bump_offset (set_bump_offset ctx1 boff) true in
            (BidBits (bid + BUMP_MAGIC_SIZE * 8), ctx2, file2)
        | (RET_WARN, boff, file2) =>
            (* Nothing found. Don't change bid *)
            (BidBits bid, set_bump_offset ctx1 boff, file2)
        | (ret, boff, file2) =>
            (BidRet ret, set_bump_offset ctx1 boff, file2)
        end
    | (RET_WARN, h, off, file1) =>
        (* Header not found. This can't be an Android boot image. *)
        (BidBits 0, set_hdr ctx h off, file1)
    | (ret, h, off, file1) => (BidRet ret, set_hdr ctx h off, file1)
    end.

Definition android_reader_set_option (ctx : AndroidReaderCtx)
  (key value : string) : Ret * AndroidReaderCtx :=
  if strcmp key "strict" =? 0 then
    let strict := (strcasecmp value "true" =? 0)
                  || (strcasecmp value "yes" =? 0)
                  || (strcasecmp value "y" =? 0)
                  || (strcmp value "1" =? 0) in
    (RET_OK, set_allow_truncated_dt ctx (negb strict))
  else (RET_WARN, ctx).

(** The table [android_reader_read_header] builds once the offsets are
    known: the four [entries_add] calls, each returning on failure. *)
Definition add_entries (ctx : AndroidReaderCtx)
  (kernel_offset ramdisk_offset second_offset dt_offset : Z)
  : Ret * SegmentReader.t :=
  let seg0 := SegmentReader.entries_clear (seg ctx) in
  let '(ret, seg1) :=
    SegmentReader.entries_add seg0 ENTRY_TYPE_KERNEL kernel_offset
      (kernel_size (hdr ctx)) false in
  if negb (Ret_eqb ret RET_OK) then (ret, seg1) else
  let '(ret, seg2) :=
    SegmentReader.entries_add seg1 ENTRY_TYPE_RAMDISK ramdisk_offset
      (ramdisk_size (hdr ctx)) false in
  if negb (Ret_eqb ret RET_OK) then (ret, seg2) else
  let '(ret, seg3) :=
    if 0 <? second_size (hdr ctx)
    then SegmentReader.entries_add seg2 ENTRY_TYPE_SECONDBOOT second_offset
           (second_size (hdr ctx)) false
    else (RET_OK, seg2) in
  if negb (Ret_eqb ret RET_OK) then (ret, seg3) else
  let '(ret, seg4) :=
    if 0 <? dt_size (hdr ctx)
    then SegmentReader.entries_add seg3 ENTRY_TYPE_DEVICE_TREE dt_offset
           (dt_size (hdr ctx)) (allow_truncated_dt ctx)
    else (RET_OK, seg3) in
  if negb (Ret_eqb ret RET_OK) then (ret, seg4) else
  (RET_OK, seg4).

(** The second half of [android_reader_read_header]: everything after the
    lazy scan. *)
Definition read_header_tail (ctx : AndroidReaderCtx) (file : File)
  (header : Header.t) : Ret * AndroidReaderCtx * File * Header.t :=
  match android_set_header (hdr ctx) header with
  | (RET_OK, header1) =>
      (* Calculate offsets for each section *)
      let pos := 0 in
      let page_size :=
        match Header.page_size header1 with Some p => p | None => 0 end in
      (* Header *)
      let pos := to_u64 (pos + header_offset ctx) in
      let pos := to_u64 (pos + sizeof_AndroidHeader) in
      let pos := to_u64 (pos + align_page_size pos page_size) in
      (* Kernel *)
      let kernel_offset := pos in
      let pos := to_u64 (pos + kernel_size (hdr ctx)) in
      let pos := to_u64 (pos + align_page_size pos page_size) in
      (* Ramdisk *)
      let ramdisk_offset := pos in
      let pos := to_u64 (pos + ramdisk_size (hdr ctx)) in
      let pos := to_u64 (pos + align_page_size pos page_size) in
      (* Second bootloader *)
      let second_offset := pos in
      let pos := to_u64 (pos + second_size (hdr ctx)) in
      let pos := to_u64 (pos + align_page_size pos page_size) in
      (* Device tree *)
      let dt_offset := pos in
      let '(ret, seg') :=
        add_entries ctx kernel_offset ramdisk_offset second_offset
          dt_offset in
      (ret, set_seg ctx seg', file, header1)
  | (ret, header1) => (ret, ctx, file, header1)
  end.

Definition android_reader_read_header (ctx : AndroidReaderCtx) (file : File)
  (header : Header.t) : Ret * AndroidReaderCtx * File * Header.t :=
  if negb (have_header_offset ctx) then
    (* A bid might not have been performed if the user forced a particular
       format *)
    match find_android_header file MAX_HEADER_OFFSET
            (hdr ctx) (header_offset ctx) with
    | (ret, h, off, file1) =>
        if ret_negative ret then (ret, set_hdr ctx h off, file1, header)
        else
          read_header_tail
            (set_have_header_offset (set_hdr ctx h off) true) file1 header
    end
  else read_header_tail ctx file header.

End reader.

(** [mb_bi_reader_enable_format_android] creates the context it registers:
    a fresh context, with truncated device trees allowed. *)
Definition new_AndroidReaderCtx : AndroidReaderCtx :=
  mkCtx zero_header false 0 false 0 false 0 false SegmentReader.empty.

Definition mb_bi_reader_enable_format_android : AndroidReaderCtx :=
  let ctx := new_AndroidReaderCtx in
  (* Allow truncated dt image by default *)
  set_allow_truncated_dt ctx true.

End android.

(** ** namespace mtk *)

Module mtk.

Import android.

Record MtkWriterCtx : Type := mkCtx {
  hdr : AndroidHeader;
  have_file_size : bool;
  file_size : Z;
  seg : SegmentWriter.t
}.

Definition set_hdr (ctx : MtkWriterCtx) (h : AndroidHeader) : MtkWriterCtx :=
  mkCtx h (have_file_size ctx) (file_size ctx) (seg ctx).

Definition set_file_size (ctx : MtkWriterCtx) (sz : Z) : MtkWriterCtx :=
  mkCtx (hdr ctx) (have_file_size ctx) sz (seg ctx).

Definition set_have_file_size (ctx : MtkWriterCtx) (b : bool)
  : MtkWriterCtx :=
  mkCtx (hdr ctx) b (file_size ctx) (seg ctx).

Definition set_seg (ctx : MtkWriterCtx) (s : SegmentWriter.t)
  : MtkWriterCtx :=
  mkCtx (hdr ctx) (have_file_size ctx) (file_size ctx) s.

Definition set_kernel_size (h : AndroidHeader) (v : Z) : AndroidHeader :=
  mkAndroidHeader (magic h) v (kernel_addr h) (ramdisk_size h)
    (ramdisk_addr h) (second_size h) (second_addr h) (tags_addr h)
    (page_size h) (dt_size h) (unused h) (id h) (name h) (cmdline h).

Definition set_ramdisk_size (h : AndroidHeader) (v : Z) : AndroidHeader :=
  mkAndroidHeader (magic h) (kernel_size h) (kernel_addr h) v
    (ramdisk_addr h) (second_size h) (second_addr h) (tags_addr h)
    (page_size h) (dt_size h) (unused h) (id h) (name h) (cmdline h).

Definition set_second_size (h : AndroidHeader) (v : Z) : AndroidHeader :=
  mkAndroidHeader (magic h) (kernel_size h) (kernel_addr h) (ramdisk_size h)
    (ramdisk_addr h) v (second_addr h) (tags_addr h)
    (page_size h) (dt_size h) (unused h) (id h) (name h) (cmdline h).

Definition set_dt_size (h : AndroidHeader) (v : Z) : AndroidHeader :=
  mkAndroidHeader (magic h) (kernel_size h) (kernel_addr h) (ramdisk_size h)
    (ramdisk_addr h) (second_size h) (second_addr h) (tags_addr h)
    (page_size h) v (unused h) (id h) (name h) (cmdline h).

Definition set_id (h : AndroidHeader) (v : list byte) : AndroidHeader :=
  mkAndroidHeader (magic h) (kernel_size h) (kernel_addr h) (ramdisk_size h)
    (ramdisk_addr h) (second_size h) (second_addr h) (tags_addr h)
    (page_size h) (dt_size h) (unused h) v (name h) (cmdline h).

(** [sizeof(buf)] in [_mtk_compute_sha1]. *)
Definition sizeof_buf : Z := 10240.

Section writer.
Context `{FormatDefs} `{Sha1}.

Definition _mtk_header_update_size (file : File) (offset size : Z)
  : Ret * File :=
  let le32_size := le32_bytes size in
  if SIZE_MAX - MtkHeader_size_offset <? offset then (RET_FATAL, file)
  else
    match File_seek file (offset + MtkHeader_size_offset) SEEK_SET with
    | FileErr fatal file1 => (ret_of_file_error fatal, file1)
    | FileOk _ file1 =>
        match file_write_fully file1 le32_size with
        | FileErr fatal file2 => (ret_of_file_error fatal, file2)
        | FileOk n file2 =>
            if negb (n =? 4) then (RET_FAILED, file2) else (RET_OK, file2)
        end
    end.

(** The loop [while (remain > 0)] of [_mtk_compute_sha1]; [None] only when
    [fuel] iterations do not suffice. *)
Fixpoint update_with_data (fuel : nat) (file : File) (sha_ctx : SHA_CTX)
  (remain : Z) : option (Ret * SHA_CTX * File) :=
  if 0 <? remain then
    match fuel with
    | O => None
    | S fuel' =>
        let to_read := Z.min remain sizeof_buf in
        match file_read_fully file to_read with
        | FileErr fatal file1 =>
            Some (ret_of_file_error fatal, sha_ctx, file1)
        | FileOk buf file1 =>
            let n := Z.of_nat (length buf) in
            if negb (n =? to_read) then Some (RET_FAILED, sha_ctx, file1)
            else
              match SHA1_Update sha_ctx buf with
              | None => Some (RET_FAILED, sha_ctx, file1)
              | Some sha_ctx1 =>
                  update_with_data fuel' file1 sha_ctx1 (remain - to_read)
              end
        end
    end
  else Some (RET_OK, sha_ctx, file).

(** Every iteration takes [sizeof_buf] bytes off [remain], or all of it. *)
Definition chunks (remain : Z) : nat := Z.to_nat (remain / sizeof_buf + 1).

(** What the [switch] on the entry type decides. *)
Inductive SizeTerm : Type :=
| Remember (kernel_mtkhdr_size ramdisk_mtkhdr_size : Z)
| Feed (le32_size : list byte).

Definition size_term (entry : SegmentWriter.Entry)
  (kernel_mtkhdr_size ramdisk_mtkhdr_size : Z) : SizeTerm :=
  match SegmentWriter.type entry with
  | ENTRY_TYPE_MTK_KERNEL_HEADER =>
      Remember (to_u32 (SegmentWriter.size entry)) ramdisk_mtkhdr_size
  | ENTRY_TYPE_MTK_RAMDISK_HEADER =>
      Remember kernel_mtkhdr_size (to_u32 (SegmentWriter.size entry))
  | ENTRY_TYPE_KERNEL =>
      Feed (le32_bytes
              (to_u32 (SegmentWriter.size entry + kernel_mtkhdr_size)))
  | ENTRY_TYPE_RAMDISK =>
      Feed (le32_bytes
              (to_u32 (SegmentWriter.size entry + ramdisk_mtkhdr_size)))
  | ENTRY_TYPE_SECONDBOOT =>
      Feed (le32_bytes (to_u32 (SegmentWriter.size entry)))
  | ENTRY_TYPE_DEVICE_TREE =>
      if SegmentWriter.size entry =? 0
      then Remember kernel_mtkhdr_size ramdisk_mtkhdr_size
      else Feed (le32_bytes (to_u32 (SegmentWriter.size entry)))
  end.

(** The loop over the entries of [_mtk_compute_sha1]. *)
Fixpoint update_with_entries (entries : list SegmentWriter.Entry)
  (file : File) (sha_ctx : SHA_CTX)
  (kernel_mtkhdr_size ramdisk_mtkhdr_size : Z) : Ret * SHA_CTX * File :=
  match entries with
  | [] => (RET_OK, sha_ctx, file)
  | entry :: rest =>
      let remain := SegmentWriter.size entry in
      match File_seek file (SegmentWriter.offset entry) SEEK_SET with
      | FileErr fatal file1 => (ret_of_file_error fatal, sha_ctx, file1)
      | FileOk _ file1 =>
          (* Update checksum with data *)
          match update_with_data (chunks remain) file1 sha_ctx remain with
          | None => (RET_FATAL, sha_ctx, file1)
          | Some (RET_OK, sha_ctx1, file2) =>
              (* Update checksum with size *)
              match size_term entry kernel_mtkhdr_size
                      ramdisk_mtkhdr_size with
              | Remember k r => update_with_entries rest file2 sha_ctx1 k r
              | Feed le32_size =>
                  match SHA1_Update sha_ctx1 le32_size with
                  | None => (RET_FAILED, sha_ctx1, file2)
                  | Some sha_ctx2 =>
                      update_with_entries rest file2 sha_ctx2
                        kernel_mtkhdr_size ramdisk_mtkhdr_size
                  end
              end
          | Some (ret, sha_ctx1, file2) => (ret, sha_ctx1, file2)
          end
      end
  end.

(** [digest] is the caller's buffer of [SHA_DIGEST_LENGTH] bytes; it comes
    back changed only by [SHA1_Final]. *)
Definition _mtk_compute_sha1 (seg : SegmentWriter.t) (file : File)
  (digest : list byte) : Ret * list byte * File :=
  match SHA1_Init with
  | None => (RET_FAILED, digest, file)
  | Some sha_ctx =>
      match update_with_entries (SegmentWriter.entries seg) file sha_ctx
              0 0 with
      | (RET_OK, sha_ctx1, file1) =>
          match SHA1_Final sha_ctx1 with
          | None => (RET_FATAL, digest, file1)
          | Some md => (RET_OK, md, file1)
          end
      | (ret, _, file1) => (ret, digest, file1)
      end
  end.

Definition mtk_writer_finish_entry (ctx : MtkWriterCtx) (file : File)
  : Ret * MtkWriterCtx * File :=
  match SegmentWriter.finish_entry (seg ctx) file with
  | (RET_OK, seg1, file1) =>
      let ctx1 := set_seg ctx seg1 in
      match SegmentWriter.entry seg1 with
      | None => (RET_FATAL, ctx1, file1)
      | Some swentry =>
          let ty := SegmentWriter.type swentry in
          let size := SegmentWriter.size swentry in
          if (EntryType_eqb ty ENTRY_TYPE_KERNEL
              || EntryType_eqb ty ENTRY_TYPE_RAMDISK)
             && (size =? UINT32_MAX - sizeof_MtkHeader)
          then (RET_FATAL, ctx1, file1)
          else if (EntryType_eqb ty ENTRY_TYPE_MTK_KERNEL_HEADER
                   || EntryType_eqb ty ENTRY_TYPE_MTK_RAMDISK_HEADER)
                  && negb (size =? sizeof_MtkHeader)
          then (RET_FATAL, ctx1, file1)
          else
            let hdr1 :=
              match ty with
              | ENTRY_TYPE_KERNEL =>
                  set_kernel_size (hdr ctx1)
                    (to_u32 (size + sizeof_MtkHeader))
              | ENTRY_TYPE_RAMDISK =>
                  set_ramdisk_size (hdr ctx1)
                    (to_u32 (size + sizeof_MtkHeader))
              | ENTRY_TYPE_SECONDBOOT =>
                  set_second_size (hdr ctx1) (to_u32 size)
              | ENTRY_TYPE_DEVICE_TREE =>
                  set_dt_size (hdr ctx1) (to_u32 size)
              | _ => hdr ctx1
              end in
            (RET_OK, set_hdr ctx1 hdr1, file1)
      end
  | (ret, seg1, file1) => (ret, set_seg ctx seg1, file1)
  end.

(** The loop "Update MTK header sizes" of [mtk_writer_close]. *)
Fixpoint update_header_sizes (entries : list SegmentWriter.Entry)
  (hdr : AndroidHeader) (file : File) : Ret * File :=
  match entries with
  | [] => (RET_OK, file)
  | entry :: rest =>
      match SegmentWriter.type entry with
      | ENTRY_TYPE_MTK_KERNEL_HEADER =>
          match _mtk_header_update_size file (SegmentWriter.offset entry)
                  (to_u32 (kernel_size hdr - sizeof_MtkHeader)) with
          | (RET_OK, file1) => update_header_sizes rest hdr file1
          | (ret, file1) => (ret, file1)
          end
      | ENTRY_TYPE_MTK_RAMDISK_HEADER =>
          match _mtk_header_update_size file (SegmentWriter.offset entry)
                  (to_u32 (ramdisk_size hdr - sizeof_MtkHeader)) with
          | (RET_OK, file1) => update_header_sizes rest hdr file1
          | (ret, file1) => (ret, file1)
          end
      | _ => update_header_sizes rest hdr file
      end
  end.

(** The branch [if (!swentry)] of [mtk_writer_close]. *)
Definition finish_image (ctx : MtkWriterCtx) (file : File)
  : Ret * MtkWriterCtx * File :=
  (* Truncate to set size *)
  match File_truncate file (file_size ctx) with
  | FileErr fatal file1 => (ret_of_file_error fatal, ctx, file1)
  | FileOk _ file1 =>
      (* Update MTK header sizes *)
      match update_header_sizes (SegmentWriter.entries (seg ctx))
              (hdr ctx) file1 with
      | (RET_OK, file2) =>
          match _mtk_compute_sha1 (seg ctx) file2
                  (firstn SHA_DIGEST_LENGTH (id (hdr ctx))) with
          | (RET_OK, digest, file3) =>
              let ctx1 :=
                set_hdr ctx
                  (set_id (hdr ctx)
                     (digest ++ skipn SHA_DIGEST_LENGTH (id (hdr ctx)))) in
              (* Convert fields back to little-endian *)
              let hdr_bytes := android_header_bytes (hdr ctx1) in
              (* Seek back to beginning to write header *)
              match File_seek file3 0 SEEK_SET with
              | FileErr fatal file4 =>
                  (ret_of_file_error fatal, ctx1, file4)
              | FileOk _ file4 =>
                  (* Write header *)
                  match file_write_fully file4 hdr_bytes with
                  | FileErr fatal file5 =>
                      (ret_of_file_error fatal, ctx1, file5)
                  | FileOk n file5 =>
                      if negb (n =? sizeof_AndroidHeader)
                      then (ret_of_file_error false, ctx1, file5)
                      else (RET_OK, ctx1, file5)
                  end
              end
          | (ret, digest, file3) =>
              (ret,
               set_hdr ctx
                 (set_id (hdr ctx)
                    (digest ++ skipn SHA_DIGEST_LENGTH (id (hdr ctx)))),
               file3)
          end
      | (ret, file2) => (ret, ctx, file2)
      end
  end.

Definition mtk_writer_close (ctx : MtkWriterCtx) (file : File)
  : Ret * MtkWriterCtx * File :=
  let capture :=
    if negb (have_file_size ctx) then
      match File_seek file 0 SEEK_CUR with
      | FileErr fatal file1 => (ret_of_file_error fatal, ctx, file1)
      | FileOk pos file1 =>
          (RET_OK, set_have_file_size (set_file_size ctx pos) true, file1)
      end
    else (RET_OK, ctx, file) in
  match capture with
  | (RET_OK, ctx1, file1) =>
      let swentry := SegmentWriter.entry (seg ctx1) in
      (* If successful, finish up the boot image *)
      match swentry with
      | None => finish_image ctx1 file1
      | Some _ => (RET_OK, ctx1, file1)
      end
  | failed => failed
  end.

End writer.

(** ** [mtk_writer_write_header] *)

(** Modelled from the spec: the table operations of [SegmentWriter] in
    writer mode, [entries_clear()] and
    [entries_add(type, size, can_truncate, align)].  The specification
    does not settle what [entries_add] answers for an alignment of 0, which
    this writer passes for the MTK headers; the two operations are
    parameters of the development. *)
Class SegmentWriterTable : Type := {
  entries_clear : SegmentWriter.t -> SegmentWriter.t;
  entries_add :
    SegmentWriter.t -> EntryType -> Z -> bool -> Z -> Ret * SegmentWriter.t
}.

Definition set_magic (h : AndroidHeader) (v : list byte) : AndroidHeader :=
  mkAndroidHeader v (kernel_size h) (kernel_addr h) (ramdisk_size h)
    (ramdisk_addr h) (second_size h) (second_addr h) (tags_addr h)
    (page_size h) (dt_size h) (unused h) (id h) (name h) (cmdline h).

Definition set_kernel_addr (h : AndroidHeader) (v : Z) : AndroidHeader :=
  mkAndroidHeader (magic h) (kernel_size h) v (ramdisk_size h)
    (ramdisk_addr h) (second_size h) (second_addr h) (tags_addr h)
    (page_size h) (dt_size h) (unused h) (id h) (name h) (cmdline h).

Definition set_ramdisk_addr (h : AndroidHeader) (v : Z) : AndroidHeader :=
  mkAndroidHeader (magic h) (kernel_size h) (kernel_addr h) (ramdisk_size h)
    v (second_size h) (second_addr h) (tags_addr h)
    (page_size h) (dt_size h) (unused h) (id h) (name h) (cmdline h).

Definition set_second_addr (h : AndroidHeader) (v : Z) : AndroidHeader :=
  mkAndroidHeader (magic h) (kernel_size h) (kernel_addr h) (ramdisk_size h)
    (ramdisk_addr h) (second_size h) v (tags_addr h)
    (page_size h) (dt_size h) (unused h) (id h) (name h) (cmdline h).

Definition set_tags_addr (h : AndroidHeader) (v : Z) : AndroidHeader :=
  mkAndroidHeader (magic h) (kernel_size h) (kernel_addr h) (ramdisk_size h)
    (ramdisk_addr h) (second_size h) (second_addr h) v
    (page_size h) (dt_size h) (unused h) (id h) (name h) (cmdline h).

Definition set_page_size (h : AndroidHeader) (v : Z) : AndroidHeader :=
  mkAndroidHeader (magic h) (kernel_size h) (kernel_addr h) (ramdisk_size h)
    (ramdisk_addr h) (second_size h) (second_addr h) (tags_addr h)
    v (dt_size h) (unused h) (id h) (name h) (cmdline h).

Definition set_name (h : AndroidHeader) (v : list byte) : AndroidHeader :=
  mkAndroidHeader (magic h) (kernel_size h) (kernel_addr h) (ramdisk_size h)
    (ramdisk_addr h) (second_size h) (second_addr h) (tags_addr h)
    (page_size h) (dt_size h) (unused h) (id h) v (cmdline h).

Definition set_cmdline (h : AndroidHeader) (v : list byte) : AndroidHeader :=
  mkAndroidHeader (magic h) (kernel_size h) (kernel_addr h) (ramdisk_size h)
    (ramdisk_addr h) (second_size h) (second_addr h) (tags_addr h)
    (page_size h) (dt_size h) (unused h) (id h) (name h) v.

(** [sizeof(ctx->hdr.name)] and [sizeof(ctx->hdr.cmdline)]. *)
Definition sizeof_name : nat := 16.
Definition sizeof_cmdline : nat := 512.

(** [strncpy(dst, src, n)]: the bytes of [src] before its NUL, at most [n]
    of them, padded with NULs to [n] bytes. *)
Definition strncpy (src : list byte) (n : nat) : list byte :=
  field_bytes n (c_bytes src).

(** The [switch] on the page size. *)
Definition page_size_case (p : Z) : bool :=
  (p =? 2048) || (p =? 4096) || (p =? 8192) || (p =? 16384) || (p =? 32768)
  || (p =? 65536) || (p =? 131072).

Section header_writer.
Context `{SegmentWriterTable}.

(** The six [entries_add] calls, each returning on failure. *)
Definition add_mtk_entries (seg : SegmentWriter.t) (page : Z)
  : Ret * SegmentWriter.t :=
  let '(ret, seg1) :=
    entries_add seg ENTRY_TYPE_MTK_KERNEL_HEADER 0 false 0 in
  if negb (Ret_eqb ret RET_OK) then (ret, seg1) else
  let '(ret, seg2) := entries_add seg1 ENTRY_TYPE_KERNEL 0 false page in
  if negb (Ret_eqb ret RET_OK) then (ret, seg2) else
  let '(ret, seg3) :=
    entries_add seg2 ENTRY_TYPE_MTK_RAMDISK_HEADER 0 false 0 in
  if negb (Ret_eqb ret RET_OK) then (ret, seg3) else
  let '(ret, seg4) := entries_add seg3 ENTRY_TYPE_RAMDISK 0 false page in
  if negb (Ret_eqb ret RET_OK) then (ret, seg4) else
  let '(ret, seg5) := entries_add seg4 ENTRY_TYPE_SECONDBOOT 0 false page in
  if negb (Ret_eqb ret RET_OK) then (ret, seg5) else
  let '(ret, seg6) := entries_add seg5 ENTRY_TYPE_DEVICE_TREE 0 false page in
  if negb (Ret_eqb ret RET_OK) then (ret, seg6) else
  (RET_OK, seg6).

(** The header is built in [ctx->hdr] itself: a call that fails leaves what
    it had built by then. *)
Definition mtk_writer_write_header (ctx : MtkWriterCtx) (file : File)
  (header : Header.t) : Ret * MtkWriterCtx * File :=
  (* Construct header *)
  let h := set_magic zero_header BOOT_MAGIC in
  let h := match Header.kernel_address header with
           | Some address => set_kernel_addr h address
           | None => h
           end in
  let h := match Header.ramdisk_address header with
           | Some address => set_ramdisk_addr h address
           | None => h
           end in
  let h := match Header.secondboot_address header with
           | Some address => set_second_addr h address
           | None => h
           end in
  let h := match Header.kernel_tags_address header with
           | Some address => set_tags_addr h address
           | None => h
           end in
  match Header.page_size header with
  | None => (RET_FAILED, set_hdr ctx h, file)
  | Some p =>
      if negb (page_size_case p) then (RET_FAILED, set_hdr ctx h, file)
      else
        let h := set_page_size h p in
        let named :=
          match Header.board_name header with
          | Some board_name =>
              if (sizeof_name <=? length board_name)%nat then None
              else Some (set_name h
                           (strncpy board_name (sizeof_name - 1)
                            ++ [Byte.x00]))
          | None => Some h
          end in
        match named with
        | None => (RET_FAILED, set_hdr ctx h, file)
        | Some h =>
            let with_cmdline :=
              match Header.kernel_cmdline header with
              | Some cmdline =>
                  if (sizeof_cmdline <=? length cmdline)%nat then None
                  else Some (set_cmdline h
                               (strncpy cmdline (sizeof_cmdline - 1)
                                ++ [Byte.x00]))
              | None => Some h
              end in
            match with_cmdline with
            | None => (RET_FAILED, set_hdr ctx h, file)
            | Some h =>
                let ctx1 := set_hdr ctx h in
                (* Clear existing entries *)
                let seg0 := entries_clear (seg ctx1) in
                match add_mtk_entries seg0 (page_size h) with
                | (RET_OK, seg1) =>
                    let ctx2 := set_seg ctx1 seg1 in
                    (* Start writing after first page *)
                    match File_seek file (page_size h) SEEK_SET with
                    | FileErr fatal file1 =>
                        (ret_of_file_error fatal, ctx2, file1)
                    | FileOk _ file1 => (RET_OK, ctx2, file1)
                    end
                | (ret, seg1) => (ret, set_seg ctx1 seg1, file)
                end
            end
        end
  end.

End header_writer.

End mtk.

(** ** Values for the worked examples *)

(** The constants of the released formats: the header may start in the
    first 512 bytes, the Samsung trailer is "SEANDROIDENFORCE", the Bump
    trailer is the sixteen bytes below, and the size field of an MTK header
    follows its four bytes of magic. *)
#[export] Program Instance released_defs : FormatDefs := {
  MAX_HEADER_OFFSET := 512;
  SAMSUNG_SEANDROID_MAGIC := list_byte_of_string "SEANDROIDENFORCE";
  BUMP_MAGIC :=
    [Byte.x41; Byte.xa9; Byte.xe4; Byte.x67; Byte.x74; Byte.x4d; Byte.x1d;
     Byte.x1b; Byte.xa4; Byte.x29; Byte.xf2; Byte.xec; Byte.xea; Byte.x65;
     Byte.x52; Byte.x79];
  MtkHeader_size_offset := 4
}.
Next Obligation. unfold UINT32_MAX; lia. Qed.
Next Obligation. lia. Qed.

(** A stand-in for the external digest in the worked examples: the message
    read as a little-endian number, cut to 20 bytes. *)
#[export] Instance folded_digest : Sha1 := {
  SHA1 := fun m => le_split SHA_DIGEST_LENGTH (le_combine m);
  SHA1_length := fun m => length_le_split SHA_DIGEST_LENGTH (le_combine m)
}.

(** A file with the given contents, positioned at its start, with no
    failure scheduled and nothing logged. *)
Definition file_of (data : list byte) : File := mkFile data 0 [] [].

(** ** Notions the properties are stated with *)

(** The characters a C string designates: those before its first NUL. *)
Fixpoint c_chars (s : string) : string :=
  match s with
  | EmptyString => EmptyString
  | String c r => if Ascii.eqb c NUL then EmptyString else String c (c_chars r)
  end.

Fixpoint lower (s : string) : string :=
  match s with
  | EmptyString => EmptyString
  | String c r => String (tolower c) (lower r)
  end.

(** Equality of C strings, and equality up to the case of letters. *)
Definition str_equal (a b : string) : Prop := c_chars a = c_chars b.

Definition str_equal_nocase (a b : string) : Prop :=
  lower (c_chars a) = lower (c_chars b).

(** The values of the option "strict" that switch it on. *)
Definition strict_value (value : string) : Prop :=
  str_equal_nocase value "true" \/ str_equal_nocase value "yes"
  \/ str_equal_nocase value "y" \/ str_equal value "1".

(** [occurs_at needle hay i]: [needle] stands at offset [i] of [hay]. *)
Definition occurs_at (needle hay : list byte) (i : nat) : Prop :=
  firstn (length needle) (skipn i hay) = needle.

(** The layout of a table: the first segment starts at [pos] aligned up to
    [page], every later one at the end of the one before it, aligned up. *)
Fixpoint place (page pos : Z) (items : list (EntryType * Z * bool))
  : list SegmentReader.Entry :=
  match items with
  | [] => []
  | (ty, sz, truncate) :: rest =>
      let off := align_up pos page in
      SegmentReader.mkEntry ty off sz truncate :: place page (off + sz) rest
  end.

(** The sections an Android header announces: kernel and ramdisk always,
    the second bootloader and the device tree when their size is not 0. *)
Definition announced (h : android.AndroidHeader) (allow_truncated_dt : bool)
  : list (EntryType * Z * bool) :=
  [(ENTRY_TYPE_KERNEL, android.kernel_size h, false);
   (ENTRY_TYPE_RAMDISK, android.ramdisk_size h, false)]
  ++ (if 0 <? android.second_size h
      then [(ENTRY_TYPE_SECONDBOOT, android.second_size h, false)] else [])
  ++ (if 0 <? android.dt_size h
      then [(ENTRY_TYPE_DEVICE_TREE, android.dt_size h, allow_truncated_dt)]
      else []).

(** The tail offset: from 0, the header page, then each of the four sizes
    added and the position aligned up to the page size. *)
Definition tail_offset (h : android.AndroidHeader) : Z :=
  fold_left (fun pos sz => align_up (pos + sz) (android.page_size h))
    [android.kernel_size h; android.ramdisk_size h; android.second_size h;
     android.dt_size h]
    (0 + android.page_size h).

(** The integral fields of a header are 32-bit values. *)
Definition header_in_range (h : android.AndroidHeader) : Prop :=
  is_u32 (android.kernel_size h) /\ is_u32 (android.ramdisk_size h)
  /\ is_u32 (android.second_size h) /\ is_u32 (android.dt_size h)
  /\ is_u32 (android.page_size h).

Section scan_notions.
Context `{FormatDefs}.

(** The bytes the header scan reads, and the file it leaves behind when no
    operation fails. *)
Definition scan_window (file : File) : list byte :=
  sub_bytes (f_data file) 0
    (MAX_HEADER_OFFSET + android.sizeof_AndroidHeader).

Definition scanned (file : File) : File :=
  mkFile (f_data file) (Z.of_nat (length (scan_window file))) []
    (f_log file
     ++ [OpSeek 0 SEEK_SET;
         OpRead (MAX_HEADER_OFFSET + android.sizeof_AndroidHeader)]).

(** The cached header, when there is one, holds 32-bit fields and an offset
    within the bound: what a bid stores. *)
Definition cache_in_range (ctx : android.AndroidReaderCtx) : Prop :=
  android.have_header_offset ctx = true ->
  header_in_range (android.hdr ctx)
  /\ 0 <= android.header_offset ctx <= MAX_HEADER_OFFSET.

(** The scan finds the header [h] at offset [i]: the magic stands at [i]
    in the bytes read and nowhere before, and the whole header lies inside
    those bytes. *)
Definition header_found (file : File) (i : nat) (h : android.AndroidHeader)
  : Prop :=
  occurs_at android.BOOT_MAGIC (scan_window file) i
  /\ (forall j, (j < i)%nat ->
        ~ occurs_at android.BOOT_MAGIC (scan_window file) j)
  /\ Z.of_nat i + android.sizeof_AndroidHeader
     <= Z.of_nat (length (scan_window file))
  /\ h = android.android_header_of_bytes
           (sub_bytes (scan_window file) (Z.of_nat i)
              android.sizeof_AndroidHeader).

End scan_notions.

(** The order in which [mtk_writer_write_header] lists the segments. *)
Definition mtk_order : list EntryType :=
  [ENTRY_TYPE_MTK_KERNEL_HEADER; ENTRY_TYPE_KERNEL;
   ENTRY_TYPE_MTK_RAMDISK_HEADER; ENTRY_TYPE_RAMDISK;
   ENTRY_TYPE_SECONDBOOT; ENTRY_TYPE_DEVICE_TREE].

(** The payload of a segment in the contents [data]. *)
Definition payload (data : list byte) (e : SegmentWriter.Entry) : list byte :=
  sub_bytes data (SegmentWriter.offset e) (SegmentWriter.size e).

(** A segment lies inside the first [len] bytes. *)
Definition entry_within (len : Z) (e : SegmentWriter.Entry) : Prop :=
  0 <= SegmentWriter.offset e /\ 0 <= SegmentWriter.size e
  /\ SegmentWriter.offset e + SegmentWriter.size e <= len.

(** The message of the digest for a table in [mtk_order]: each payload in
    turn, followed by the size term of its type. *)
Definition mtk_digest_message (data : list byte)
  (kh k rh r s d : SegmentWriter.Entry) : list byte :=
  payload data kh
  ++ payload data k
  ++ le32_bytes (SegmentWriter.size k + SegmentWriter.size kh)
  ++ payload data rh
  ++ payload data r
  ++ le32_bytes (SegmentWriter.size r + SegmentWriter.size rh)
  ++ payload data s ++ le32_bytes (SegmentWriter.size s)
  ++ payload data d
  ++ (if SegmentWriter.size d =? 0 then []
      else le32_bytes (SegmentWriter.size d)).

(** The operations of the digest pass: seeks from the start of the file and
    reads of at most [sizeof_buf] bytes. *)
Definition digest_op (op : FileOp) : Prop :=
  match op with
  | OpSeek _ SEEK_SET => True
  | OpRead n => 0 < n <= mtk.sizeof_buf
  | _ => False
  end.

(** What the loop over the entries feeds to SHA-1, for any table. *)
Fixpoint fed (data : list byte) (entries : list SegmentWriter.Entry)
  (kernel_mtkhdr_size ramdisk_mtkhdr_size : Z) : list byte :=
  match entries with
  | [] => []
  | e :: rest =>
      payload data e
      ++ match mtk.size_term e kernel_mtkhdr_size ramdisk_mtkhdr_size with
         | mtk.Remember k r => fed data rest k r
         | mtk.Feed le32_size =>
             le32_size
             ++ fed data rest kernel_mtkhdr_size ramdisk_mtkhdr_size
         end
  end.

(** The header after a finished entry of the given type and size. *)
Definition header_after (h : android.AndroidHeader) (ty : EntryType)
  (size : Z) : android.AndroidHeader :=
  match ty with
  | ENTRY_TYPE_KERNEL => mtk.set_kernel_size h (to_u32 (size + sizeof_MtkHeader))
  | ENTRY_TYPE_RAMDISK =>
      mtk.set_ramdisk_size h (to_u32 (size + sizeof_MtkHeader))
  | ENTRY_TYPE_SECONDBOOT => mtk.set_second_size h (to_u32 size)
  | ENTRY_TYPE_DEVICE_TREE => mtk.set_dt_size h (to_u32 size)
  | _ => h
  end.

Section close_notions.
Context `{FormatDefs} `{Sha1}.

(** The reading of "close captures the current file length and truncates
    the file to that length" on a writer that has captured nothing yet: the
    value recorded is the length of the file, and the file still has that
    length afterwards. *)
Definition captures_file_length (ctx : mtk.MtkWriterCtx) (file : File)
  : Prop :=
  mtk.file_size (snd (fst (mtk.mtk_writer_close ctx file)))
  = file_length file
  /\ file_length (snd (mtk.mtk_writer_close ctx file)) = file_length file.

(** The operations of a finalization, in order: the truncation, the two
    size patches, the digest pass [ops], and the header at offset 0. *)
Definition finalization_log (size : Z) (kh rh : SegmentWriter.Entry)
  (ksize rsize : list byte) (ops : list FileOp) (hdr_bytes : list byte)
  : list FileOp :=
  [OpTruncate size;
   OpSeek (SegmentWriter.offset kh + MtkHeader_size_offset) SEEK_SET;
   OpWrite ksize;
   OpSeek (SegmentWriter.offset rh + MtkHeader_size_offset) SEEK_SET;
   OpWrite rsize]
  ++ ops ++ [OpSeek 0 SEEK_SET; OpWrite hdr_bytes].

End close_notions.

(** A small image for the worked examples, as the writer leaves it before
    [close]: page size 2048; an MTK header and 8 bytes of kernel from 2048;
    an MTK header and 4 bytes of ramdisk from 4096; no second bootloader
    and no device tree.  The last byte written is at 4611; finishing the
    ramdisk moved the position to the next page, 6144. *)
Definition example_mtk_header : list byte :=
  [Byte.x88; Byte.x16; Byte.x88; Byte.x58] ++ zeros 508.

Definition example_data : list byte :=
  zeros 2048 ++ example_mtk_header ++ repeat Byte.xaa 8 ++ zeros 1528
  ++ example_mtk_header ++ repeat Byte.xbb 4.

Definition example_file : File := mkFile example_data 6144 [] [].

Definition example_kh : SegmentWriter.Entry :=
  SegmentWriter.mkEntry ENTRY_TYPE_MTK_KERNEL_HEADER 2048 512 0.
Definition example_k : SegmentWriter.Entry :=
  SegmentWriter.mkEntry ENTRY_TYPE_KERNEL 2560 8 2048.
Definition example_rh : SegmentWriter.Entry :=
  SegmentWriter.mkEntry ENTRY_TYPE_MTK_RAMDISK_HEADER 4096 512 0.
Definition example_r : SegmentWriter.Entry :=
  SegmentWriter.mkEntry ENTRY_TYPE_RAMDISK 4608 4 2048.
Definition example_s : SegmentWriter.Entry :=
  SegmentWriter.mkEntry ENTRY_TYPE_SECONDBOOT 6144 0 2048.
Definition example_d : SegmentWriter.Entry :=
  SegmentWriter.mkEntry ENTRY_TYPE_DEVICE_TREE 6144 0 2048.

Definition example_entries : list SegmentWriter.Entry :=
  [example_kh; example_k; example_rh; example_r; example_s; example_d].

Definition example_header : android.AndroidHeader :=
  android.mkAndroidHeader android.BOOT_MAGIC 520 0 516 0 0 0 0 2048 0 0
    (zeros 32) (zeros 16) (zeros 512).

Definition example_ctx : mtk.MtkWriterCtx :=
  mtk.mkCtx example_header false 0 (SegmentWriter.mk example_entries None).

(** The same writer while the ramdisk is still the current entry. *)
Definition example_ctx_pending : mtk.MtkWriterCtx :=
  mtk.mkCtx example_header false 0
    (SegmentWriter.mk example_entries (Some 3%nat)).

(** The writer just after the 8 bytes of kernel were written, and the file
    at that moment. *)
Definition example_ctx_kernel : mtk.MtkWriterCtx :=
  mtk.mkCtx android.zero_header false 0
    (SegmentWriter.mk example_entries (Some 1%nat)).

Definition example_file_kernel : File :=
  mkFile (firstn 2568 example_data) 2568 [] [].

(** A writer whose current entry is a kernel of [UINT32_MAX] bytes. *)
Definition example_ctx_oversize : mtk.MtkWriterCtx :=
  mtk.mkCtx android.zero_header false 0
    (SegmentWriter.mk
       [SegmentWriter.mkEntry ENTRY_TYPE_KERNEL 2560 UINT32_MAX 2048]
       (Some 0%nat)).

(** The image once its length is that of the position: what the digest pass
    reads. *)
Definition example_file_padded : File :=
  file_of (truncate_to example_data 6144).

(** A minimal Android image: page size 2048, 100 bytes of kernel, 50 bytes
    of ramdisk, no second bootloader and no device tree; the same image
    with the Samsung trailer at its tail offset, 6144. *)
Definition example_android_header : android.AndroidHeader :=
  android.mkAndroidHeader android.BOOT_MAGIC 100 0 50 0 0 0 0 2048 0 0
    (zeros 32) (zeros 16) (zeros 512).

Definition example_image : list byte :=
  android.android_header_bytes example_android_header ++ zeros 1440
  ++ repeat Byte.x01 100 ++ zeros 1948 ++ repeat Byte.x02 50.

Definition example_image_samsung : list byte :=
  example_image ++ zeros 1998 ++ SAMSUNG_SEANDROID_MAGIC.

(** ** Notions for the further properties *)

(** A seek or a read: an operation that leaves the contents alone. *)
Definition read_only_op (op : FileOp) : Prop :=
  match op with
  | OpSeek _ _ | OpRead _ => True
  | OpWrite _ | OpTruncate _ => False
  end.

(** The minimal image with the Bump trailer at its tail offset. *)
Definition example_image_bump : list byte :=
  example_image ++ zeros 1998 ++ BUMP_MAGIC.

(** An image that stops 100 bytes after the magic: the header is cut. *)
Definition example_image_cut : list byte :=
  zeros 16 ++ firstn 100 example_image.

(** [file'] comes from [file] by seeks and reads only: the contents are the
    same and the log has grown by operations that do not write. *)
Definition read_only_step (file file' : File) : Prop :=
  f_data file' = f_data file
  /\ exists ops, f_log file' = f_log file ++ ops /\ Forall read_only_op ops.

(** A header as it sits in memory: the arrays have their declared lengths
    and the integral fields are 32-bit values. *)
Definition header_wf (h : android.AndroidHeader) : Prop :=
  length (android.magic h) = 8%nat /\ length (android.id h) = 32%nat
  /\ length (android.name h) = 16%nat
  /\ length (android.cmdline h) = 512%nat
  /\ is_u32 (android.kernel_size h) /\ is_u32 (android.kernel_addr h)
  /\ is_u32 (android.ramdisk_size h) /\ is_u32 (android.ramdisk_addr h)
  /\ is_u32 (android.second_size h) /\ is_u32 (android.second_addr h)
  /\ is_u32 (android.tags_addr h) /\ is_u32 (android.page_size h)
  /\ is_u32 (android.dt_size h) /\ is_u32 (android.unused h).

(** A table whose segments follow one another from [pos] on: every segment
    starts at a multiple of [page], less than a page after the end of the
    one before it, and never before that end. *)
Fixpoint laid_out (page pos : Z) (table : list SegmentReader.Entry) : Prop :=
  match table with
  | [] => True
  | e :: rest =>
      pos <= SegmentReader.offset e < pos + page
      /\ SegmentReader.offset e mod page = 0
      /\ 0 <= SegmentReader.size e
      /\ laid_out page (SegmentReader.offset e + SegmentReader.size e) rest
  end.

(** The logical header [android_set_header] produces for [h]. *)
Definition logical_header (h : android.AndroidHeader) : Header.t :=
  Header.mk android.SUPPORTED_FIELDS
    (Some (c_bytes (android.field_bytes 16 (android.name h))))
    (Some (c_bytes (android.field_bytes 512 (android.cmdline h))))
    (Some (android.page_size h)) (Some (android.kernel_addr h))
    (Some (android.ramdisk_addr h)) (Some (android.second_addr h))
    (Some (android.tags_addr h)).

(** A table for the worked examples of [mtk_writer_write_header]:
    [entries_add] appends the segment, unless its type is listed. *)
#[export] Instance listed_table : mtk.SegmentWriterTable := {
  mtk.entries_clear seg := SegmentWriter.mk [] None;
  mtk.entries_add seg ty size can_truncate align :=
    if existsb (fun e => EntryType_eqb (SegmentWriter.type e) ty)
         (SegmentWriter.entries seg)
    then (RET_UNSUPPORTED, seg)
    else (RET_OK,
          SegmentWriter.mk
            (SegmentWriter.entries seg
             ++ [SegmentWriter.mkEntry ty 0 size align])
            (SegmentWriter.cursor seg))
}.

(** The allowed page sizes. *)
Definition page_sizes : list Z :=
  [2048; 4096; 8192; 16384; 32768; 65536; 131072].

(** The value of an optional field, or a default. *)
Definition field_or {A : Type} (default : A) (o : option A) : A :=
  match o with
  | Some v => v
  | None => default
  end.

(** A logical header for the worked examples: page size 2048, board name
    "test", an empty command line. *)
Definition example_logical_header : Header.t :=
  Header.mk android.SUPPORTED_FIELDS
    (Some (list_byte_of_string "test")) (Some []) (Some 2048) (Some 0)
    (Some 0) (Some 0) (Some 0).

(** The header [mtk_writer_write_header] builds from a logical header with
    page size [p]: the magic, the addresses given (0 otherwise), the page
    size, the board name and the command line cut at their NUL, padded and
    terminated; everything else is zero. *)
Definition built_header (header : Header.t) (p : Z) : android.AndroidHeader :=
  android.mkAndroidHeader android.BOOT_MAGIC
    0 (field_or 0 (Header.kernel_address header))
    0 (field_or 0 (Header.ramdisk_address header))
    0 (field_or 0 (Header.secondboot_address header))
    (field_or 0 (Header.kernel_tags_address header))
    p 0 0 (zeros 32)
    (match Header.board_name header with
     | Some board_name =>
         android.field_bytes 15 (c_bytes board_name) ++ [Byte.x00]
     | None => zeros 16
     end)
    (match Header.kernel_cmdline header with
     | Some cmdline => android.field_bytes 511 (c_bytes cmdline) ++ [Byte.x00]
     | None => zeros 512
     end).

(** The header of a writer that is fit for the finalization: well formed,
    with the magic, and an [id] that is still zero. *)
Definition writer_header_ok (h : android.AndroidHeader) : Prop :=
  header_wf h /\ android.magic h = android.BOOT_MAGIC
  /\ android.id h = zeros 32.

(** * Properties *)

(** ** Integers and alignment *)

Lemma to_u64_small z : 0 <= z <= UINT64_MAX -> to_u64 z = z.
Proof. unfold to_u64, UINT64_MAX; intros; apply Z.mod_small; lia. Qed.

Lemma to_u32_small z : 0 <= z <= UINT32_MAX -> to_u32 z = z.
Proof. unfold to_u32, UINT32_MAX; intros; apply Z.mod_small; lia. Qed.

Lemma to_u32_range z : 0 <= to_u32 z <= UINT32_MAX.
Proof.
  unfold to_u32, UINT32_MAX.
  pose proof (Z.mod_pos_bound z (2 ^ 32) ltac:(lia)); lia.
Qed.

Lemma align_page_size_range x p : 0 < p -> 0 <= align_page_size x p < p.
Proof.
  intros Hp; unfold align_page_size.
  destruct (Z.eqb_spec p 0); [lia|].
  apply Z.mod_pos_bound; lia.
Qed.

Lemma align_page_size_up x p :
  0 < p -> x + align_page_size x p = align_up x p.
Proof.
  intros Hp; unfold align_page_size, align_up.
  destruct (Z.eqb_spec p 0); [lia|].
  pose proof (Z.mod_pos_bound x p Hp) as Hr.
  pose proof (Z.div_mod x p ltac:(lia)) as Hx.
  destruct (Z.eq_dec (x mod p) 0) as [E|E].
  - rewrite E, Z.sub_0_r, Z.mod_same by lia.
    replace (x + p - 1) with ((p - 1) + (x / p) * p) by lia.
    rewrite Z.div_add, Z.div_small by lia. lia.
  - rewrite (Z.mod_small (p - x mod p)) by lia.
    replace (x + p - 1) with ((x mod p - 1) + (x / p + 1) * p) by lia.
    rewrite Z.div_add, Z.div_small by lia. lia.
Qed.

Lemma align_up_multiple x p : 0 < p -> (align_up x p) mod p = 0.
Proof. intros; unfold align_up; apply Z.mod_mul; lia. Qed.

Lemma align_up_bounds x p : 0 < p -> x <= align_up x p < x + p.
Proof.
  intros Hp; rewrite <- align_page_size_up by lia.
  pose proof (align_page_size_range x p Hp); lia.
Qed.

Lemma align_up_aligned x p : 0 < p -> x mod p = 0 -> align_up x p = x.
Proof.
  intros Hp Hx; rewrite <- align_page_size_up by lia.
  unfold align_page_size.
  destruct (Z.eqb_spec p 0); [lia|].
  rewrite Hx, Z.sub_0_r, Z.mod_same by lia. lia.
Qed.

(** ** C strings *)

Lemma char_code_inj a b : char_code a = char_code b -> a = b.
Proof.
  unfold char_code; intros E; apply Nat2Z.inj in E.
  rewrite <- (ascii_nat_embedding a), <- (ascii_nat_embedding b).
  now f_equal.
Qed.

Lemma char_code_NUL c : char_code c = 0 <-> c = NUL.
Proof.
  split; [intros E; apply char_code_inj; exact E | intros ->; reflexivity].
Qed.

Lemma neg_char_code_NUL c : 0 - char_code c = 0 <-> c = NUL.
Proof. rewrite <- char_code_NUL; lia. Qed.

Lemma tolower_NUL c : tolower c = NUL <-> c = NUL.
Proof.
  split; [|intros ->; reflexivity].
  destruct c as [[] [] [] [] [] [] [] []]; vm_compute; congruence.
Qed.

Lemma str_head_NUL s : str_head s = NUL -> c_chars s = EmptyString.
Proof.
  destruct s as [|c r]; simpl; [reflexivity|].
  intros ->; reflexivity.
Qed.

Lemma str_head_not_NUL s c :
  str_head s = c -> c <> NUL -> s = String c (str_tail s).
Proof.
  destruct s as [|d r]; simpl; intros E Hc; [congruence|now subst].
Qed.

Lemma c_chars_cons c r :
  c <> NUL -> c_chars (String c r) = String c (c_chars r).
Proof.
  intros Hc; simpl. destruct (Ascii.eqb_spec c NUL); [contradiction|reflexivity].
Qed.

Lemma c_chars_head s :
  c_chars s = EmptyString <-> str_head s = NUL.
Proof.
  destruct s as [|c r]; simpl; [tauto|].
  destruct (Ascii.eqb_spec c NUL); split; congruence.
Qed.

Lemma strcmp_0 a : forall b, strcmp a b = 0 <-> str_equal a b.
Proof.
  unfold str_equal.
  induction a as [|c1 r1 IH]; intros b.
  - simpl strcmp. rewrite neg_char_code_NUL.
    rewrite <- c_chars_head. simpl; split; congruence.
  - simpl strcmp.
    destruct (Ascii.eqb_spec c1 (str_head b)) as [E|E].
    + destruct (Ascii.eqb_spec c1 NUL) as [N|N].
      * assert (str_head b = NUL) as Hb by congruence.
        rewrite N, (str_head_NUL b Hb). simpl. tauto.
      * rewrite (str_head_not_NUL b c1) at 2 by congruence.
        rewrite !c_chars_cons by assumption.
        rewrite IH. split; [intros ->; reflexivity | congruence].
    + split.
      * intros D. exfalso; apply E, char_code_inj; lia.
      * intros D. exfalso; apply E.
        destruct (Ascii.eqb_spec c1 NUL) as [N|N].
        -- rewrite N in D. simpl in D. symmetry in D.
           apply c_chars_head in D. congruence.
        -- rewrite c_chars_cons in D by assumption.
           destruct b as [|c2 r2]; simpl in D; [discriminate|].
           simpl. destruct (Ascii.eqb_spec c2 NUL); congruence.
Qed.

Lemma lower_c_chars_head s :
  lower (c_chars s) = EmptyString <-> str_head s = NUL.
Proof.
  rewrite <- c_chars_head.
  destruct (c_chars s); simpl; split; congruence.
Qed.

Lemma strcasecmp_0 a : forall b, strcasecmp a b = 0 <-> str_equal_nocase a b.
Proof.
  unfold str_equal_nocase.
  induction a as [|c1 r1 IH]; intros b.
  - simpl strcasecmp.
    rewrite neg_char_code_NUL, tolower_NUL.
    rewrite <- lower_c_chars_head. simpl; split; congruence.
  - simpl strcasecmp.
    destruct (Ascii.eqb_spec (tolower c1) (tolower (str_head b))) as [E|E].
    + destruct (Ascii.eqb_spec c1 NUL) as [N|N].
      * assert (str_head b = NUL) as Hb.
        { apply tolower_NUL. rewrite <- E, N. reflexivity. }
        rewrite N, (str_head_NUL b Hb). simpl. tauto.
      * assert (str_head b <> NUL) as Hb.
        { intros Hb. rewrite Hb in E. apply N, tolower_NUL. exact E. }
        rewrite (str_head_not_NUL b (str_head b) eq_refl Hb) at 2.
        rewrite !c_chars_cons by assumption. simpl lower.
        rewrite IH, E. split; [intros ->; reflexivity | congruence].
    + split.
      * intros D. exfalso; apply E, char_code_inj; lia.
      * intros D. exfalso; apply E.
        destruct (Ascii.eqb_spec c1 NUL) as [N|N].
        -- rewrite N in D. simpl in D. symmetry in D.
           apply lower_c_chars_head in D. rewrite N, D. reflexivity.
        -- rewrite c_chars_cons in D by assumption.
           destruct b as [|c2 r2]; simpl in D; [discriminate|].
           simpl. destruct (Ascii.eqb_spec c2 NUL); simpl in D; congruence.
Qed.

(** ** The Android reader *)

Section reader_properties.
Import android.
Context `{FormatDefs}.

(** C6: when [best_bid] is at least the largest score the codec can reach,
    [(BOOT_MAGIC_SIZE + SAMSUNG_SEANDROID_MAGIC_SIZE) * 8] for the Android
    bid and [(BOOT_MAGIC_SIZE + BUMP_MAGIC_SIZE) * 8] for the Bump bid, the
    bid returns [RET_WARN] (the bid that cannot be won) at once: the context
    and the file, with its log of operations, are the ones it was given, so
    no seek and no read took place. *)
Theorem bid_cannot_win (ctx : AndroidReaderCtx) (file : File) (best_bid : Z) :
  ((BOOT_MAGIC_SIZE + SAMSUNG_SEANDROID_MAGIC_SIZE) * 8 <= best_bid ->
   android_reader_bid ctx file best_bid = (BidRet RET_WARN, ctx, file))
  /\ ((BOOT_MAGIC_SIZE + BUMP_MAGIC_SIZE) * 8 <= best_bid ->
      bump_reader_bid ctx file best_bid = (BidRet RET_WARN, ctx, file)).
Proof.
  split; intros Hbest.
  - unfold android_reader_bid.
    destruct (Z.leb_spec ((BOOT_MAGIC_SIZE + SAMSUNG_SEANDROID_MAGIC_SIZE) * 8)
                best_bid); [reflexivity | lia].
  - unfold bump_reader_bid.
    destruct (Z.leb_spec ((BOOT_MAGIC_SIZE + BUMP_MAGIC_SIZE) * 8) best_bid);
      [reflexivity | lia].
Qed.

Lemma strict_flag (value : string) :
  (strcasecmp value "true" =? 0) || (strcasecmp value "yes" =? 0)
  || (strcasecmp value "y" =? 0) || (strcmp value "1" =? 0) = true
  <-> strict_value value.
Proof.
  unfold strict_value.
  rewrite !orb_true_iff, !Z.eqb_eq, !strcasecmp_0, strcmp_0. tauto.
Qed.

(** C7: with the key "strict", [android_reader_set_option] succeeds and
    sets [allow_truncated_dt] to false exactly when the value equals "true",
    "yes" or "y" up to the case of letters, or equals "1"; for every other
    value it sets it to true.  With any other key it returns [RET_WARN]
    (the option is unknown) and the context is unchanged.  The context that
    enabling the Android format creates has [allow_truncated_dt] true. *)
Theorem set_option_strict (ctx : AndroidReaderCtx) (key value : string) :
  (str_equal key "strict" ->
   exists b : bool,
     android_reader_set_option ctx key value
     = (RET_OK, set_allow_truncated_dt ctx b)
     /\ (b = false <-> strict_value value)
     /\ (b = true <-> ~ strict_value value))
  /\ (~ str_equal key "strict" ->
      android_reader_set_option ctx key value = (RET_WARN, ctx))
  /\ allow_truncated_dt mb_bi_reader_enable_format_android = true.
Proof.
  split; [|split; [|reflexivity]].
  - intros Hkey. apply strcmp_0, Z.eqb_eq in Hkey.
    unfold android_reader_set_option. rewrite Hkey.
    eexists; split; [reflexivity|].
    pose proof (strict_flag value) as Hs.
    destruct ((strcasecmp value "true" =? 0) || (strcasecmp value "yes" =? 0)
              || (strcasecmp value "y" =? 0) || (strcmp value "1" =? 0));
      simpl.
    + split; split; intros Hb.
      * apply Hs; reflexivity.
      * reflexivity.
      * discriminate Hb.
      * exfalso; apply Hb, Hs; reflexivity.
    + split; split; intros Hb.
      * discriminate Hb.
      * apply Hs in Hb; discriminate Hb.
      * intros Hv; apply Hs in Hv; discriminate Hv.
      * reflexivity.
  - intros Hkey. unfold android_reader_set_option.
    destruct (Z.eqb_spec (strcmp key "strict") 0) as [E|E]; [|reflexivity].
    exfalso; apply Hkey, strcmp_0, E.
Qed.

End reader_properties.

(** ** The file object without failures *)

Lemma File_seek_SET file off :
  f_faults file = [] -> 0 <= off ->
  File_seek file off SEEK_SET
  = FileOk off
      (mkFile (f_data file) off [] (f_log file ++ [OpSeek off SEEK_SET])).
Proof.
  intros Hf Hoff. unfold File_seek, file_fault, file_enter, file_set_pos.
  rewrite Hf; simpl.
  destruct (Z.ltb_spec off 0); [lia|reflexivity].
Qed.

Lemma File_seek_CUR_0 file :
  f_faults file = [] -> 0 <= f_pos file ->
  File_seek file 0 SEEK_CUR
  = FileOk (f_pos file)
      (mkFile (f_data file) (f_pos file) [] (f_log file ++ [OpSeek 0 SEEK_CUR])).
Proof.
  intros Hf Hpos. unfold File_seek, file_fault, file_enter, file_set_pos.
  rewrite Hf; simpl. rewrite Z.add_0_r.
  destruct (Z.ltb_spec (f_pos file) 0); [lia|reflexivity].
Qed.

Lemma file_read_fully_ok file size :
  f_faults file = [] ->
  file_read_fully file size
  = FileOk (sub_bytes (f_data file) (f_pos file) size)
      (mkFile (f_data file)
         (f_pos file
          + Z.of_nat (length (sub_bytes (f_data file) (f_pos file) size)))
         [] (f_log file ++ [OpRead size])).
Proof.
  intros Hf. unfold file_read_fully, file_fault, file_enter, file_set_pos.
  rewrite Hf; reflexivity.
Qed.

Lemma file_write_fully_ok file buf :
  f_faults file = [] ->
  file_write_fully file buf
  = FileOk (Z.of_nat (length buf))
      (mkFile (write_at (f_data file) (f_pos file) buf)
         (f_pos file + Z.of_nat (length buf)) []
         (f_log file ++ [OpWrite buf])).
Proof.
  intros Hf.
  unfold file_write_fully, file_fault, file_enter, file_set_pos, file_set_data.
  rewrite Hf; reflexivity.
Qed.

Lemma File_truncate_ok file size :
  f_faults file = [] ->
  File_truncate file size
  = FileOk tt
      (mkFile (truncate_to (f_data file) size) (f_pos file) []
         (f_log file ++ [OpTruncate size])).
Proof.
  intros Hf. unfold File_truncate, file_fault, file_enter, file_set_data.
  rewrite Hf; reflexivity.
Qed.

Lemma sub_bytes_length data off len :
  0 <= off -> 0 <= len -> off + len <= Z.of_nat (length data) ->
  Z.of_nat (length (sub_bytes data off len)) = len.
Proof.
  intros. unfold sub_bytes. rewrite length_firstn, length_skipn. lia.
Qed.

Lemma sub_bytes_length_le data off len :
  0 <= len -> Z.of_nat (length (sub_bytes data off len)) <= len.
Proof.
  intros. unfold sub_bytes. rewrite length_firstn. lia.
Qed.

Lemma le32_value_range bs : is_u32 (le32_value bs).
Proof.
  unfold is_u32, le32_value, UINT32_MAX.
  pose proof (le_combine_bound (firstn 4 bs)) as Hb.
  assert (length (firstn 4 bs) <= 4)%nat as Hl by apply firstn_le_length.
  assert (2 ^ (8 * Z.of_nat (length (firstn 4 bs))) <= 2 ^ 32) as Hp
    by (apply Z.pow_le_mono_r; lia).
  lia.
Qed.

Lemma android_header_of_bytes_in_range bs :
  header_in_range (android.android_header_of_bytes bs).
Proof. repeat split; apply le32_value_range. Qed.

(** ** Searching for the magic *)

Lemma starts_with_spec needle : forall hay,
  starts_with needle hay = true <-> firstn (length needle) hay = needle.
Proof.
  induction needle as [|n ns IH]; intros hay; simpl.
  - tauto.
  - destruct hay as [|h hs]; simpl; [split; discriminate|].
    rewrite andb_true_iff, IH.
    destruct (Byte.eqb n h) eqn:E.
    + apply Byte.byte_dec_bl in E. subst h.
      split; [intros [_ ->]; reflexivity | intros E; split; congruence].
    + split; [intros [E' _]; discriminate|].
      intros E'. injection E' as -> _.
      rewrite (Byte.byte_dec_lb eq_refl) in E. discriminate.
Qed.

Lemma mb_memmem_Some needle : forall hay i,
  mb_memmem hay needle = Some i ->
  occurs_at needle hay i
  /\ (forall j, (j < i)%nat -> ~ occurs_at needle hay j)
  /\ (i <= length hay)%nat.
Proof.
  unfold occurs_at.
  induction hay as [|h hs IH]; intros i; simpl.
  - destruct (starts_with needle []) eqn:E; [|discriminate].
    intros [= <-]. apply starts_with_spec in E.
    split; [exact E|split; [lia|lia]].
  - destruct (starts_with needle (h :: hs)) eqn:E.
    + intros [= <-]. apply starts_with_spec in E.
      split; [exact E|split; [lia|lia]].
    + destruct (mb_memmem hs needle) as [k|] eqn:M; [|discriminate].
      intros [= <-]. destruct (IH k eq_refl) as (Hk & Hmin & Hlen).
      split; [exact Hk|split; [|lia]].
      intros [|j] Hj.
      * simpl. intros Hocc. apply starts_with_spec in Hocc. congruence.
      * simpl. apply Hmin. lia.
Qed.

Lemma mb_memmem_None needle : forall hay,
  mb_memmem hay needle = None <-> forall i, ~ occurs_at needle hay i.
Proof.
  unfold occurs_at.
  induction hay as [|h hs IH]; simpl.
  - destruct (starts_with needle []) eqn:E.
    + split; [discriminate|]. intros Hno. exfalso.
      apply (Hno 0%nat). apply starts_with_spec in E. exact E.
    + split; [|reflexivity]. intros _ i Hocc.
      rewrite skipn_nil in Hocc. apply starts_with_spec in Hocc. congruence.
  - destruct (starts_with needle (h :: hs)) eqn:E.
    + split; [discriminate|]. intros Hno. exfalso.
      apply (Hno 0%nat). apply starts_with_spec in E. exact E.
    + destruct (mb_memmem hs needle) as [k|] eqn:M; simpl.
      * split; [discriminate|]. intros Hno. exfalso.
        assert (Some k = None) as C; [|discriminate C].
        apply IH. intros i. apply (Hno (S i)).
      * split; [|reflexivity]. intros _ [|i] Hocc.
        -- simpl in Hocc. apply starts_with_spec in Hocc. congruence.
        -- destruct IH as [IH _]. apply (IH eq_refl i). exact Hocc.
Qed.

(** ** The header scan *)

Section scan_properties.
Import android.
Context `{FormatDefs}.

Lemma find_android_header_scan file h0 off0 :
  f_faults file = [] ->
  find_android_header file MAX_HEADER_OFFSET h0 off0
  = match mb_memmem (scan_window file) BOOT_MAGIC with
    | None => (RET_WARN, h0, off0, scanned file)
    | Some ptr =>
        if Z.of_nat (length (scan_window file)) - Z.of_nat ptr
           <? sizeof_AndroidHeader
        then (RET_WARN, h0, off0, scanned file)
        else (RET_OK,
              android_header_of_bytes
                (sub_bytes (scan_window file) (Z.of_nat ptr)
                   sizeof_AndroidHeader),
              Z.of_nat ptr, scanned file)
    end.
Proof.
  intros Hf. unfold find_android_header.
  rewrite Z.ltb_irrefl.
  rewrite File_seek_SET by (assumption || lia).
  rewrite file_read_fully_ok by reflexivity.
  cbn [f_data f_pos f_log]. fold (scan_window file).
  unfold scanned. rewrite <- app_assoc. cbn [app].
  destruct (mb_memmem (scan_window file) BOOT_MAGIC); reflexivity.
Qed.

(** What a successful scan stores: a header with 32-bit fields, at an
    offset within the bound. *)
Lemma find_android_header_OK file h0 off0 h off file1 :
  find_android_header file MAX_HEADER_OFFSET h0 off0 = (RET_OK, h, off, file1) ->
  header_in_range h /\ 0 <= off <= MAX_HEADER_OFFSET.
Proof.
  unfold find_android_header.
  rewrite Z.ltb_irrefl.
  destruct (File_seek file 0 SEEK_SET) as [? file'|fatal ?];
    [|destruct fatal; intros [=]].
  destruct (file_read_fully file' _) as [buf file''|fatal ?] eqn:R;
    [|destruct fatal; intros [=]].
  destruct (mb_memmem buf BOOT_MAGIC) as [ptr|]; [|intros [=]].
  destruct (Z.ltb_spec (Z.of_nat (length buf) - Z.of_nat ptr)
              sizeof_AndroidHeader) as [L|L]; intros [= <- <- <-].
  split; [apply android_header_of_bytes_in_range|].
  assert (Z.of_nat (length buf) <= MAX_HEADER_OFFSET + sizeof_AndroidHeader).
  { unfold file_read_fully in R.
    pose proof MAX_HEADER_OFFSET_range.
    destruct (file_fault file'); [discriminate|].
    injection R as <- _. apply sub_bytes_length_le.
    unfold sizeof_AndroidHeader; lia. }
  lia.
Qed.

Lemma find_android_header_fail file h0 off0 ret h off file1 :
  find_android_header file MAX_HEADER_OFFSET h0 off0 = (ret, h, off, file1) ->
  ret <> RET_OK -> h = h0 /\ off = off0.
Proof.
  unfold find_android_header.
  rewrite Z.ltb_irrefl.
  destruct (File_seek file 0 SEEK_SET) as [? file'|];
    [|intros [= <- <- <- <-]; auto].
  destruct (file_read_fully file' _) as [buf file''|];
    [|intros [= <- <- <- <-]; auto].
  destruct (mb_memmem buf BOOT_MAGIC) as [ptr|];
    [|intros [= <- <- <- <-]; auto].
  destruct (Z.ltb_spec (Z.of_nat (length buf) - Z.of_nat ptr)
              sizeof_AndroidHeader) as [L|L]; intros [= <- <- <- <-]; auto.
  congruence.
Qed.

End scan_properties.

(** ** Reading the header *)

Section read_header_properties.
Import android.
Context `{FormatDefs}.

Lemma android_set_header_OK (h : AndroidHeader) (header : Header.t) :
  exists header1,
    android_set_header h header = (RET_OK, header1)
    /\ Header.page_size header1 = Some (page_size h).
Proof.
  unfold android_set_header.
  set (board_name := c_bytes _). set (cmdline := c_bytes _).
  clearbody board_name cmdline.
  eexists; split; [vm_compute; reflexivity|reflexivity].
Qed.

Lemma add_entries_OK ctx k r s d :
  add_entries ctx k r s d
  = (RET_OK,
     SegmentReader.mk
       ([SegmentReader.mkEntry ENTRY_TYPE_KERNEL k
           (kernel_size (hdr ctx)) false;
         SegmentReader.mkEntry ENTRY_TYPE_RAMDISK r
           (ramdisk_size (hdr ctx)) false]
        ++ (if 0 <? second_size (hdr ctx)
            then [SegmentReader.mkEntry ENTRY_TYPE_SECONDBOOT s
                    (second_size (hdr ctx)) false]
            else [])
        ++ (if 0 <? dt_size (hdr ctx)
            then [SegmentReader.mkEntry ENTRY_TYPE_DEVICE_TREE d
                    (dt_size (hdr ctx)) (allow_truncated_dt ctx)]
            else []))
       None).
Proof.
  unfold add_entries.
  destruct (0 <? second_size (hdr ctx)), (0 <? dt_size (hdr ctx));
    reflexivity.
Qed.

(** The part of [android_reader_read_header] after the scan touches neither
    the file nor the cached header; it always succeeds. *)
Lemma read_header_tail_frame ctx file header :
  exists seg' header',
    read_header_tail ctx file header
    = (RET_OK, set_seg ctx seg', file, header').
Proof.
  unfold read_header_tail.
  destruct (android_set_header_OK (hdr ctx) header) as (header1 & -> & _).
  cbv zeta. rewrite add_entries_OK. eauto.
Qed.

Lemma read_header_tail_layout ctx file header :
  header_in_range (hdr ctx) ->
  0 <= header_offset ctx <= MAX_HEADER_OFFSET ->
  0 < page_size (hdr ctx) ->
  exists header',
    read_header_tail ctx file header
    = (RET_OK,
       set_seg ctx
         (SegmentReader.mk
            (place (page_size (hdr ctx))
               (header_offset ctx + sizeof_AndroidHeader)
               (announced (hdr ctx) (allow_truncated_dt ctx)))
            None),
       file, header').
Proof.
  intros (Hk & Hr & Hs & Hd & Hp) Hoff Hpage.
  pose proof MAX_HEADER_OFFSET_range as HM.
  unfold is_u32, UINT32_MAX in *.
  unfold read_header_tail.
  destruct (android_set_header_OK (hdr ctx) header) as (header1 & -> & ->).
  cbv zeta. rewrite add_entries_OK.
  exists header1. do 3 f_equal. f_equal.
  set (P := page_size (hdr ctx)) in *.
  set (start := header_offset ctx + sizeof_AndroidHeader).
  assert (0 <= start <= 2 ^ 33) as Hstart
    by (unfold start, sizeof_AndroidHeader; lia).
  pose proof (align_up_bounds start P Hpage) as B1.
  set (k_off := align_up start P) in *.
  pose proof (align_up_bounds (k_off + kernel_size (hdr ctx)) P Hpage) as B2.
  set (r_off := align_up (k_off + kernel_size (hdr ctx)) P) in *.
  pose proof (align_up_bounds (r_off + ramdisk_size (hdr ctx)) P Hpage) as B3.
  set (s_off := align_up (r_off + ramdisk_size (hdr ctx)) P) in *.
  pose proof (align_up_bounds (s_off + second_size (hdr ctx)) P Hpage) as B4.
  set (d_off := align_up (s_off + second_size (hdr ctx)) P) in *.
  assert (to_u64 (to_u64 (0 + header_offset ctx) + sizeof_AndroidHeader)
          = start) as ->.
  { rewrite (to_u64_small (0 + _)) by (unfold UINT64_MAX; lia).
    rewrite to_u64_small by (unfold UINT64_MAX; fold start; lia).
    reflexivity. }
  rewrite (align_page_size_up start P Hpage). fold k_off.
  rewrite (to_u64_small k_off) by (unfold UINT64_MAX; lia).
  rewrite (to_u64_small (k_off + _)) by (unfold UINT64_MAX; lia).
  rewrite (align_page_size_up _ P Hpage). fold r_off.
  rewrite (to_u64_small r_off) by (unfold UINT64_MAX; lia).
  rewrite (to_u64_small (r_off + _)) by (unfold UINT64_MAX; lia).
  rewrite (align_page_size_up _ P Hpage). fold s_off.
  rewrite (to_u64_small s_off) by (unfold UINT64_MAX; lia).
  rewrite (to_u64_small (s_off + _)) by (unfold UINT64_MAX; lia).
  rewrite (align_page_size_up _ P Hpage). fold d_off.
  rewrite (to_u64_small d_off) by (unfold UINT64_MAX; lia).
  unfold announced. cbn [app place]. fold start k_off r_off s_off.
  do 2 f_equal.
  destruct (Z.ltb_spec 0 (second_size (hdr ctx))) as [S|S].
  - cbn [app place]. fold s_off. f_equal.
    destruct (0 <? dt_size (hdr ctx)); cbn [place]; [fold d_off|];
      reflexivity.
  - cbn [app].
    destruct (0 <? dt_size (hdr ctx)); cbn [place]; [|reflexivity].
    fold s_off.
    assert (d_off = s_off) as ->; [|reflexivity].
    unfold d_off. replace (second_size (hdr ctx)) with 0 by lia.
    rewrite Z.add_0_r. apply align_up_aligned; [exact Hpage|].
    apply align_up_multiple; exact Hpage.
Qed.

(** C8: when [have_header_offset] is false and the scan finds the header,
    [android_reader_read_header] runs that scan (the file comes back as the
    scan left it), stores the decoded header and its offset in the context
    and sets [have_header_offset]; when [have_header_offset] is already
    true it leaves the file, with its log of operations, exactly as it was,
    and keeps the cached header and offset. *)
Theorem read_header_lazy_scan (ctx : AndroidReaderCtx) (file : File)
  (header : Header.t) :
  (have_header_offset ctx = false ->
   forall h off file1,
     find_android_header file MAX_HEADER_OFFSET (hdr ctx) (header_offset ctx)
     = (RET_OK, h, off, file1) ->
     exists ctx' header',
       android_reader_read_header ctx file header
       = (RET_OK, ctx', file1, header')
       /\ hdr ctx' = h /\ header_offset ctx' = off
       /\ have_header_offset ctx' = true)
  /\ (have_header_offset ctx = true ->
      exists ctx' header',
        android_reader_read_header ctx file header
        = (RET_OK, ctx', file, header')
        /\ hdr ctx' = hdr ctx /\ header_offset ctx' = header_offset ctx
        /\ have_header_offset ctx' = true).
Proof.
  split.
  - intros Hno h off file1 Hscan.
    unfold android_reader_read_header. rewrite Hno, Hscan. cbn [negb ret_negative].
    destruct (read_header_tail_frame
                (set_have_header_offset (set_hdr ctx h off) true) file1 header)
      as (seg' & header' & ->).
    eexists _, _; split; [reflexivity|]. auto.
  - intros Hyes.
    unfold android_reader_read_header. rewrite Hyes. cbn [negb].
    destruct (read_header_tail_frame ctx file header)
      as (seg' & header' & ->).
    eexists _, _; split; [reflexivity|]. auto.
Qed.

Lemma read_header_tail_table ctx file header ctx' file' header' :
  header_in_range (hdr ctx) ->
  0 <= header_offset ctx <= MAX_HEADER_OFFSET ->
  read_header_tail ctx file header = (RET_OK, ctx', file', header') ->
  0 < page_size (hdr ctx') ->
  SegmentReader.entries (seg ctx')
  = place (page_size (hdr ctx'))
      (header_offset ctx' + sizeof_AndroidHeader)
      (announced (hdr ctx') (allow_truncated_dt ctx')).
Proof.
  intros Hrange Hoff Hread Hpage.
  destruct (read_header_tail_frame ctx file header) as (s & h' & E).
  assert (ctx' = set_seg ctx s) as Hctx by congruence.
  rewrite Hctx in Hpage. cbn [hdr set_seg] in Hpage.
  destruct (read_header_tail_layout ctx file header Hrange Hoff Hpage)
    as (h'' & E').
  assert (ctx' = set_seg ctx
                   (SegmentReader.mk
                      (place (page_size (hdr ctx))
                         (header_offset ctx + sizeof_AndroidHeader)
                         (announced (hdr ctx) (allow_truncated_dt ctx)))
                      None)) as -> by congruence.
  reflexivity.
Qed.

Lemma read_header_layout ctx file header ctx' file' header' :
  cache_in_range ctx ->
  android_reader_read_header ctx file header = (RET_OK, ctx', file', header') ->
  0 < page_size (hdr ctx') ->
  SegmentReader.entries (seg ctx')
  = place (page_size (hdr ctx'))
      (header_offset ctx' + sizeof_AndroidHeader)
      (announced (hdr ctx') (allow_truncated_dt ctx')).
Proof.
  intros Hcache Hread Hpage. revert Hread.
  unfold android_reader_read_header.
  destruct (have_header_offset ctx) eqn:Hhave; cbn [negb].
  - intros Hread. destruct (Hcache Hhave) as (Hrange & Hoff).
    exact (read_header_tail_table _ _ _ _ _ _ Hrange Hoff Hread Hpage).
  - destruct (find_android_header file MAX_HEADER_OFFSET (hdr ctx)
                (header_offset ctx)) as [[[ret h] off] file1] eqn:Hscan.
    destruct ret; cbn [ret_negative]; intros Hread;
      [|discriminate Hread..].
    destruct (find_android_header_OK _ _ _ _ _ _ Hscan) as (Hrange & Hoff).
    exact (read_header_tail_table
             (set_have_header_offset (set_hdr ctx h off) true)
             _ _ _ _ _ Hrange Hoff Hread Hpage).
Qed.

(** Find the entry of a literal table that has the type asked for. *)
Ltac has_entry :=
  match goal with
  | |- exists e, In e ?l /\ _ = _ =>
      let rec go l :=
        lazymatch l with
        | ?x :: ?r =>
            first [ solve [exists x; split; [simpl; tauto | reflexivity]]
                  | go r ]
        end in
      go l
  end.

(** C4: after a successful [android_reader_read_header] on a header whose
    page size is positive, the table is the layout of the announced
    sections: the kernel at [header_offset + sizeof(AndroidHeader)] aligned
    up to the page size, with size [kernel_size]; every later segment at the
    end of the one before it, aligned up; kernel and ramdisk always there,
    the second bootloader exactly when [second_size > 0], and the device
    tree exactly when [dt_size > 0], with [can_truncate] equal to
    [allow_truncated_dt]. *)
Theorem read_header_segments (ctx : AndroidReaderCtx) (file : File)
  (header : Header.t) (ctx' : AndroidReaderCtx) (file' : File)
  (header' : Header.t) :
  cache_in_range ctx ->
  android_reader_read_header ctx file header = (RET_OK, ctx', file', header') ->
  0 < page_size (hdr ctx') ->
  let table := SegmentReader.entries (seg ctx') in
  let has ty := exists e, In e table /\ SegmentReader.type e = ty in
  table
  = place (page_size (hdr ctx')) (header_offset ctx' + sizeof_AndroidHeader)
      (announced (hdr ctx') (allow_truncated_dt ctx'))
  /\ (exists r rest,
        table
        = SegmentReader.mkEntry ENTRY_TYPE_KERNEL
            (align_up (header_offset ctx' + sizeof_AndroidHeader)
               (page_size (hdr ctx')))
            (kernel_size (hdr ctx')) false
          :: r :: rest
        /\ SegmentReader.type r = ENTRY_TYPE_RAMDISK
        /\ SegmentReader.size r = ramdisk_size (hdr ctx'))
  /\ (has ENTRY_TYPE_SECONDBOOT <-> 0 < second_size (hdr ctx'))
  /\ (has ENTRY_TYPE_DEVICE_TREE <-> 0 < dt_size (hdr ctx'))
  /\ (forall e, In e table ->
        SegmentReader.type e = ENTRY_TYPE_DEVICE_TREE ->
        SegmentReader.can_truncate e = allow_truncated_dt ctx'
        /\ SegmentReader.size e = dt_size (hdr ctx')).
Proof.
  intros Hcache Hread Hpage table has.
  pose proof (read_header_layout _ _ _ _ _ _ Hcache Hread Hpage) as E.
  fold table in E. split; [exact E|].
  unfold has. rewrite E. unfold announced. cbn [app place].
  destruct (Z.ltb_spec 0 (second_size (hdr ctx'))) as [S|S];
    destruct (Z.ltb_spec 0 (dt_size (hdr ctx'))) as [D|D]; cbn [app place];
    (split; [eexists _, _; split; [reflexivity|split; reflexivity]|]);
    (split; [split; [intros (e & Hin & Hty); simpl in Hin; try lia;
                     intuition (subst; discriminate)
                    | intros Hpos; try lia; has_entry]|]);
    (split; [split; [intros (e & Hin & Hty); simpl in Hin; try lia;
                     intuition (subst; discriminate)
                    | intros Hpos; try lia; has_entry]|]);
    intros e Hin Hty; simpl in Hin;
    intuition (subst; try discriminate; reflexivity).
Qed.

End read_header_properties.

(** ** Bidding *)

Section bid_properties.
Import android.
Context `{FormatDefs}.

Lemma mb_memmem_first needle hay i :
  occurs_at needle hay i ->
  (forall j, (j < i)%nat -> ~ occurs_at needle hay j) ->
  mb_memmem hay needle = Some i.
Proof.
  intros Hocc Hmin.
  destruct (mb_memmem hay needle) as [k|] eqn:M.
  - destruct (mb_memmem_Some _ _ _ M) as (Hk & Hkmin & _).
    destruct (Nat.lt_trichotomy k i) as [L|[E|L]].
    + exfalso; exact (Hmin k L Hk).
    + congruence.
    + exfalso; exact (Hkmin i L Hocc).
  - exfalso. exact (proj1 (mb_memmem_None _ _) M i Hocc).
Qed.

Lemma magic_pos_tail (h : AndroidHeader) :
  header_in_range h -> 0 < page_size h ->
  magic_pos h = tail_offset h /\ 0 <= tail_offset h.
Proof.
  intros (Hk & Hr & Hs & Hd & Hp) Hpage.
  unfold is_u32, UINT32_MAX in *.
  unfold magic_pos, tail_offset. cbn [fold_left]. cbv zeta.
  set (P := page_size h) in *.
  pose proof (align_up_bounds (0 + P + kernel_size h) P Hpage) as B1.
  set (p1 := align_up (0 + P + kernel_size h) P) in *.
  pose proof (align_up_bounds (p1 + ramdisk_size h) P Hpage) as B2.
  set (p2 := align_up (p1 + ramdisk_size h) P) in *.
  pose proof (align_up_bounds (p2 + second_size h) P Hpage) as B3.
  set (p3 := align_up (p2 + second_size h) P) in *.
  pose proof (align_up_bounds (p3 + dt_size h) P Hpage) as B4.
  set (p4 := align_up (p3 + dt_size h) P) in *.
  rewrite (to_u64_small (0 + P)) by (unfold UINT64_MAX; lia).
  rewrite (to_u64_small (0 + P + _)) by (unfold UINT64_MAX; lia).
  rewrite (align_page_size_up (0 + P + kernel_size h) P Hpage). fold p1.
  rewrite (to_u64_small p1) by (unfold UINT64_MAX; lia).
  rewrite (to_u64_small (p1 + _)) by (unfold UINT64_MAX; lia).
  rewrite (align_page_size_up (p1 + ramdisk_size h) P Hpage). fold p2.
  rewrite (to_u64_small p2) by (unfold UINT64_MAX; lia).
  rewrite (to_u64_small (p2 + _)) by (unfold UINT64_MAX; lia).
  rewrite (align_page_size_up (p2 + second_size h) P Hpage). fold p3.
  rewrite (to_u64_small p3) by (unfold UINT64_MAX; lia).
  rewrite (to_u64_small (p3 + _)) by (unfold UINT64_MAX; lia).
  rewrite (align_page_size_up (p3 + dt_size h) P Hpage). fold p4.
  rewrite (to_u64_small p4) by (unfold UINT64_MAX; lia).
  split; [reflexivity|lia].
Qed.

Lemma bytes_eqb_eq a b : bytes_eqb a b = true <-> a = b.
Proof.
  unfold bytes_eqb. destruct (list_eq_dec Byte.byte_eq_dec a b);
    split; congruence.
Qed.

(** The trailer test without failures: the magic is found exactly when it
    stands at the computed position. *)
Lemma find_samsung_seandroid_magic_scan file h off0 :
  f_faults file = [] -> header_in_range h -> 0 < page_size h ->
  exists file2,
    find_samsung_seandroid_magic file h off0
    = if bytes_eqb
           (sub_bytes (f_data file) (tail_offset h)
              SAMSUNG_SEANDROID_MAGIC_SIZE)
           SAMSUNG_SEANDROID_MAGIC
      then (RET_OK, tail_offset h, file2)
      else (RET_WARN, off0, file2).
Proof.
  intros Hf Hrange Hpage.
  destruct (magic_pos_tail h Hrange Hpage) as (Epos & Hpos).
  unfold find_samsung_seandroid_magic. rewrite Epos. cbv zeta.
  rewrite File_seek_SET by assumption.
  rewrite file_read_fully_ok by reflexivity. cbn [f_data f_pos f_log].
  set (buf := sub_bytes (f_data file) (tail_offset h)
                SAMSUNG_SEANDROID_MAGIC_SIZE).
  eexists.
  destruct (bytes_eqb buf SAMSUNG_SEANDROID_MAGIC) eqn:E.
  - apply bytes_eqb_eq in E.
    assert ((Z.of_nat (length buf) =? SAMSUNG_SEANDROID_MAGIC_SIZE) = true)
      as Hn by (rewrite E; apply Z.eqb_refl).
    assert (memcmp_eq buf SAMSUNG_SEANDROID_MAGIC (Z.of_nat (length buf))
            = true) as Hm.
    { unfold memcmp_eq. apply bytes_eqb_eq. rewrite E. reflexivity. }
    rewrite Hn, Hm. reflexivity.
  - destruct (Z.eqb_spec (Z.of_nat (length buf)) SAMSUNG_SEANDROID_MAGIC_SIZE)
      as [L|L]; cbn [negb orb]; [|reflexivity].
    assert (memcmp_eq buf SAMSUNG_SEANDROID_MAGIC (Z.of_nat (length buf))
            = false) as Hm.
    { unfold memcmp_eq. rewrite Nat2Z.id, firstn_all.
      unfold SAMSUNG_SEANDROID_MAGIC_SIZE in L. apply Nat2Z.inj in L.
      rewrite L, firstn_all. exact E. }
    rewrite Hm. reflexivity.
Qed.

(** C5: on a file without failures and with a bid that can still be won,
    [android_reader_bid] returns 0 when the magic "ANDROID!" stands nowhere
    in the first [MAX_HEADER_OFFSET + sizeof(AndroidHeader)] bytes; when
    the scan finds the header it returns [BOOT_MAGIC_SIZE * 8] if the
    SEAndroid magic is not at the tail offset of that header, and
    [(BOOT_MAGIC_SIZE + SAMSUNG_SEANDROID_MAGIC_SIZE) * 8] if it is. *)
Theorem android_bid_score (ctx : AndroidReaderCtx) (file : File)
  (best_bid : Z) :
  f_faults file = [] ->
  best_bid < (BOOT_MAGIC_SIZE + SAMSUNG_SEANDROID_MAGIC_SIZE) * 8 ->
  let bid := fst (fst (android_reader_bid ctx file best_bid)) in
  ((forall i, ~ occurs_at BOOT_MAGIC (scan_window file) i) ->
   bid = BidBits 0)
  /\ (forall i h,
        header_found file i h -> 0 < page_size h ->
        let tail :=
          sub_bytes (f_data file) (tail_offset h)
            SAMSUNG_SEANDROID_MAGIC_SIZE in
        (tail <> SAMSUNG_SEANDROID_MAGIC -> bid = BidBits (BOOT_MAGIC_SIZE * 8))
        /\ (tail = SAMSUNG_SEANDROID_MAGIC ->
            bid = BidBits
                    ((BOOT_MAGIC_SIZE + SAMSUNG_SEANDROID_MAGIC_SIZE) * 8))).
Proof.
  intros Hf Hbest bid. subst bid. unfold android_reader_bid.
  destruct (Z.leb_spec ((BOOT_MAGIC_SIZE + SAMSUNG_SEANDROID_MAGIC_SIZE) * 8)
              best_bid) as [L|_]; [lia|].
  rewrite find_android_header_scan by assumption.
  split.
  - intros Hno. apply mb_memmem_None in Hno. rewrite Hno. reflexivity.
  - intros i h (Hocc & Hmin & Hfit & Eh) Hpage. subst h.
    set (tail := sub_bytes (f_data file) _ _).
    rewrite (mb_memmem_first _ _ _ Hocc Hmin).
    destruct (Z.ltb_spec (Z.of_nat (length (scan_window file)) - Z.of_nat i)
                sizeof_AndroidHeader) as [L|_]; [lia|].
    set (h := android_header_of_bytes _) in *.
    cbv zeta. cbn [hdr set_hdr set_have_header_offset samsung_offset].
    destruct (find_samsung_seandroid_magic_scan (scanned file) h
                (samsung_offset ctx) eq_refl
                (android_header_of_bytes_in_range _) Hpage) as (file2 & ->).
    cbn [f_data scanned]. fold tail.
    destruct (bytes_eqb tail SAMSUNG_SEANDROID_MAGIC) eqn:E.
    + apply bytes_eqb_eq in E. split; [congruence|].
      intros _. cbn [fst]. f_equal. lia.
    + split; [reflexivity|].
      intros E'. apply bytes_eqb_eq in E'. congruence.
Qed.

End bid_properties.

(** ** The MTK writer: finishing an entry *)

Section finish_entry_properties.
Import android mtk.
Context `{FormatDefs}.

Lemma mtk_writer_finish_entry_eq ctx file seg1 file1 e :
  SegmentWriter.finish_entry (seg ctx) file = (RET_OK, seg1, file1) ->
  SegmentWriter.entry seg1 = Some e ->
  let ty := SegmentWriter.type e in
  let size := SegmentWriter.size e in
  mtk_writer_finish_entry ctx file
  = if (EntryType_eqb ty ENTRY_TYPE_KERNEL
        || EntryType_eqb ty ENTRY_TYPE_RAMDISK)
       && (size =? UINT32_MAX - sizeof_MtkHeader)
    then (RET_FATAL, set_seg ctx seg1, file1)
    else if (EntryType_eqb ty ENTRY_TYPE_MTK_KERNEL_HEADER
             || EntryType_eqb ty ENTRY_TYPE_MTK_RAMDISK_HEADER)
            && negb (size =? sizeof_MtkHeader)
    then (RET_FATAL, set_seg ctx seg1, file1)
    else (RET_OK,
          set_hdr (set_seg ctx seg1) (header_after (hdr ctx) ty size),
          file1).
Proof.
  intros Hfin Hentry ty size. unfold mtk_writer_finish_entry.
  rewrite Hfin. cbn [seg set_seg]. rewrite Hentry. fold ty size.
  destruct ty; reflexivity.
Qed.

(** C3: for a finished entry (the segment writer finished it and reports
    it as the current one), [mtk_writer_finish_entry] returns [RET_FATAL]
    when the entry is a kernel or ramdisk of size exactly
    [UINT32_MAX - sizeof(MtkHeader)], and when it is an MTK header of a size
    other than [sizeof(MtkHeader)]; in every other case it returns [RET_OK]
    and stores, by the type of the entry, [size + sizeof(MtkHeader)] in
    [kernel_size] or [ramdisk_size], or [size] in [second_size] or
    [dt_size], each as the 32-bit value the field holds (the sum itself
    whenever it fits). *)
Theorem finish_entry_checks (ctx : MtkWriterCtx) (file : File)
  (seg1 : SegmentWriter.t) (file1 : File) (e : SegmentWriter.Entry) :
  SegmentWriter.finish_entry (seg ctx) file = (RET_OK, seg1, file1) ->
  SegmentWriter.entry seg1 = Some e ->
  let ty := SegmentWriter.type e in
  let size := SegmentWriter.size e in
  let payload_type := ty = ENTRY_TYPE_KERNEL \/ ty = ENTRY_TYPE_RAMDISK in
  let header_type :=
    ty = ENTRY_TYPE_MTK_KERNEL_HEADER \/ ty = ENTRY_TYPE_MTK_RAMDISK_HEADER in
  (payload_type -> size = UINT32_MAX - sizeof_MtkHeader ->
   mtk_writer_finish_entry ctx file = (RET_FATAL, set_seg ctx seg1, file1))
  /\ (header_type -> size <> sizeof_MtkHeader ->
      mtk_writer_finish_entry ctx file = (RET_FATAL, set_seg ctx seg1, file1))
  /\ (~ (payload_type /\ size = UINT32_MAX - sizeof_MtkHeader) ->
      ~ (header_type /\ size <> sizeof_MtkHeader) ->
      exists ctx',
        mtk_writer_finish_entry ctx file = (RET_OK, ctx', file1)
        /\ hdr ctx' = header_after (hdr ctx) ty size
        /\ (ty = ENTRY_TYPE_KERNEL ->
            kernel_size (hdr ctx') = to_u32 (size + sizeof_MtkHeader)
            /\ (0 <= size -> size + sizeof_MtkHeader <= UINT32_MAX ->
                kernel_size (hdr ctx') = size + sizeof_MtkHeader))
        /\ (ty = ENTRY_TYPE_RAMDISK ->
            ramdisk_size (hdr ctx') = to_u32 (size + sizeof_MtkHeader)
            /\ (0 <= size -> size + sizeof_MtkHeader <= UINT32_MAX ->
                ramdisk_size (hdr ctx') = size + sizeof_MtkHeader))
        /\ (ty = ENTRY_TYPE_SECONDBOOT ->
            second_size (hdr ctx') = to_u32 size
            /\ (is_u32 size -> second_size (hdr ctx') = size))
        /\ (ty = ENTRY_TYPE_DEVICE_TREE ->
            dt_size (hdr ctx') = to_u32 size
            /\ (is_u32 size -> dt_size (hdr ctx') = size))).
Proof.
  intros Hfin Hentry ty size payload_type header_type.
  pose proof (mtk_writer_finish_entry_eq ctx file seg1 file1 e Hfin Hentry)
    as E.
  cbv zeta in E. fold ty size in E. rewrite E. clear E.
  subst payload_type header_type. clearbody ty size.
  unfold sizeof_MtkHeader, UINT32_MAX, is_u32 in *.
  split; [|split].
  - intros [T|T] S; rewrite T, S; reflexivity.
  - intros [T|T] S; rewrite T; cbn [EntryType_eqb orb andb];
      destruct (Z.eqb_spec size 512); solve [reflexivity | contradiction].
  - intros N1 N2.
    assert ((EntryType_eqb ty ENTRY_TYPE_KERNEL
             || EntryType_eqb ty ENTRY_TYPE_RAMDISK)
            && (size =? 4294967295 - 512) = false) as ->.
    { destruct (Z.eqb_spec size (4294967295 - 512)) as [S|S];
        [|apply andb_false_r].
      destruct ty; cbn; try reflexivity; exfalso; apply N1; auto. }
    assert ((EntryType_eqb ty ENTRY_TYPE_MTK_KERNEL_HEADER
             || EntryType_eqb ty ENTRY_TYPE_MTK_RAMDISK_HEADER)
            && negb (size =? 512) = false) as ->.
    { destruct (Z.eqb_spec size 512) as [S|S]; [apply andb_false_r|].
      destruct ty; cbn; try reflexivity; exfalso; apply N2; auto. }
    eexists; split; [reflexivity|]. cbn [hdr set_hdr].
    split; [reflexivity|].
    split; [|split; [|split]]; intros T; rewrite T; unfold header_after;
      cbn [kernel_size ramdisk_size second_size dt_size set_kernel_size
           set_ramdisk_size set_second_size set_dt_size];
      (split; [reflexivity|]); intros; apply to_u32_small;
      unfold UINT32_MAX, sizeof_MtkHeader in *; lia.
Qed.

(** C10: for a finished kernel or ramdisk entry, [mtk_writer_finish_entry]
    returns [RET_FATAL] for the one size [UINT32_MAX - sizeof(MtkHeader)]
    and for no other; for every 64-bit size strictly greater than that
    value the check passes, the call returns [RET_OK], and the 32-bit field
    [kernel_size] (for a ramdisk, [ramdisk_size]) receives
    [size + sizeof(MtkHeader)] reduced modulo [2 ^ 32]. *)
Theorem finish_entry_oversize (ctx : MtkWriterCtx) (file : File)
  (seg1 : SegmentWriter.t) (file1 : File) (e : SegmentWriter.Entry) :
  SegmentWriter.finish_entry (seg ctx) file = (RET_OK, seg1, file1) ->
  SegmentWriter.entry seg1 = Some e ->
  let ty := SegmentWriter.type e in
  let size := SegmentWriter.size e in
  ty = ENTRY_TYPE_KERNEL \/ ty = ENTRY_TYPE_RAMDISK ->
  (fst (fst (mtk_writer_finish_entry ctx file)) = RET_FATAL
   <-> size = UINT32_MAX - sizeof_MtkHeader)
  /\ (UINT32_MAX - sizeof_MtkHeader < size <= UINT64_MAX ->
      exists ctx',
        mtk_writer_finish_entry ctx file = (RET_OK, ctx', file1)
        /\ (ty = ENTRY_TYPE_KERNEL ->
            kernel_size (hdr ctx') = (size + sizeof_MtkHeader) mod 2 ^ 32)
        /\ (ty = ENTRY_TYPE_RAMDISK ->
            ramdisk_size (hdr ctx') = (size + sizeof_MtkHeader) mod 2 ^ 32)).
Proof.
  intros Hfin Hentry ty size Hty.
  pose proof (mtk_writer_finish_entry_eq ctx file seg1 file1 e Hfin Hentry)
    as E.
  cbv zeta in E. fold ty size in E. rewrite E. clear E. clearbody ty size.
  unfold sizeof_MtkHeader, UINT32_MAX, UINT64_MAX in *.
  assert ((EntryType_eqb ty ENTRY_TYPE_KERNEL
           || EntryType_eqb ty ENTRY_TYPE_RAMDISK) = true) as ->
    by (destruct Hty as [-> | ->]; reflexivity).
  assert ((EntryType_eqb ty ENTRY_TYPE_MTK_KERNEL_HEADER
           || EntryType_eqb ty ENTRY_TYPE_MTK_RAMDISK_HEADER) = false) as ->
    by (destruct Hty as [-> | ->]; reflexivity).
  cbn [andb].
  destruct (Z.eqb_spec size (4294967295 - 512)) as [S|S].
  - split; [tauto|]. intros; lia.
  - split; [cbn [fst]; split; [discriminate|contradiction]|].
    intros _. eexists; split; [reflexivity|].
    cbn [hdr set_hdr]. unfold header_after, to_u32.
    split; intros T; rewrite T; reflexivity.
Qed.

End finish_entry_properties.

(** ** The MTK writer: closing while an entry is pending *)

Section close_pending_properties.
Import android mtk.
Context `{FormatDefs} `{Sha1}.

Lemma close_keeps_file_size ctx file :
  have_file_size ctx = true ->
  have_file_size (snd (fst (mtk_writer_close ctx file))) = true
  /\ file_size (snd (fst (mtk_writer_close ctx file))) = file_size ctx.
Proof.
  intros Hhave. unfold mtk_writer_close. rewrite Hhave. cbn [negb].
  destruct (SegmentWriter.entry (seg ctx)); [cbn; auto|].
  unfold finish_image.
  destruct (File_truncate file (file_size ctx)) as [? f1|fatal f1];
    [|cbn; auto].
  destruct (update_header_sizes _ _ f1) as [ret f2].
  destruct ret; try (cbn; auto; fail).
  destruct (_mtk_compute_sha1 (seg ctx) f2 _) as [[ret d] f3].
  destruct ret; try (cbn; auto; fail).
  destruct (File_seek f3 0 SEEK_SET) as [? f4|fatal f4]; [|cbn; auto].
  destruct (file_write_fully f4 _) as [n f5|fatal f5]; [|cbn; auto].
  destruct (negb (n =? sizeof_AndroidHeader)); cbn; auto.
Qed.

(** C9: when the segment writer still has a current entry,
    [mtk_writer_close] finalizes nothing.  If the position was captured
    before, it returns [RET_OK] with the context and the file, log
    included, exactly as given: no operation at all.  If not, and the
    position query does not fail, it returns [RET_OK], the only operation
    logged is that query ([seek(0, SEEK_CUR)]), the contents and the
    position are unchanged, and the position is recorded in [file_size]
    with [have_file_size] set.  Once [have_file_size] is set, no call of
    [mtk_writer_close], whatever its outcome, changes [file_size]. *)
Theorem close_with_pending_entry (ctx : MtkWriterCtx) (file : File)
  (e : SegmentWriter.Entry) :
  SegmentWriter.entry (seg ctx) = Some e ->
  (have_file_size ctx = true ->
   mtk_writer_close ctx file = (RET_OK, ctx, file))
  /\ (have_file_size ctx = false ->
      file_fault file = None -> 0 <= f_pos file ->
      mtk_writer_close ctx file
      = (RET_OK,
         mkCtx (hdr ctx) true (f_pos file) (seg ctx),
         mkFile (f_data file) (f_pos file) (tl (f_faults file))
           (f_log file ++ [OpSeek 0 SEEK_CUR])))
  /\ (forall ctx2 file2,
        have_file_size ctx2 = true ->
        have_file_size (snd (fst (mtk_writer_close ctx2 file2))) = true
        /\ file_size (snd (fst (mtk_writer_close ctx2 file2)))
           = file_size ctx2).
Proof.
  intros Hentry. split; [|split].
  - intros Hhave. unfold mtk_writer_close. rewrite Hhave. cbn [negb].
    rewrite Hentry. reflexivity.
  - intros Hhave Hfault Hpos. unfold mtk_writer_close.
    rewrite Hhave. cbn [negb].
    unfold File_seek. rewrite Hfault. rewrite Z.add_0_r.
    destruct (Z.ltb_spec (f_pos file) 0); [lia|].
    cbn [seg set_have_file_size set_file_size]. rewrite Hentry.
    reflexivity.
  - intros ctx2 file2. apply close_keeps_file_size.
Qed.

End close_pending_properties.

(** ** The digest pass *)

Lemma firstn_add {A} (a b : nat) (l : list A) :
  firstn (a + b) l = firstn a l ++ firstn b (skipn a l).
Proof.
  revert l; induction a as [|a IH]; intros l; [reflexivity|].
  destruct l as [|x l]; simpl.
  - rewrite firstn_nil. reflexivity.
  - rewrite IH. reflexivity.
Qed.

Lemma sub_bytes_split data pos a b :
  0 <= pos -> 0 <= a -> 0 <= b ->
  sub_bytes data pos (a + b)
  = sub_bytes data pos a ++ sub_bytes data (pos + a) b.
Proof.
  intros Hpos Ha Hb. unfold sub_bytes.
  rewrite Z2Nat.inj_add by assumption.
  rewrite firstn_add, skipn_skipn.
  rewrite (Z2Nat.inj_add pos a) by assumption.
  rewrite (Nat.add_comm (Z.to_nat a)). reflexivity.
Qed.

Lemma sub_bytes_0 data pos : sub_bytes data pos 0 = [].
Proof. reflexivity. Qed.

Lemma le32_bytes_to_u32 v : le32_bytes (to_u32 v) = le32_bytes v.
Proof.
  unfold le32_bytes, to_u32.
  apply le_combine_inj; [rewrite !length_le_split; reflexivity|].
  rewrite !le_combine_split.
  change (Z.of_nat 4 * 8) with 32. apply Z.mod_mod. lia.
Qed.

Lemma le32_bytes_sum a b :
  le32_bytes (to_u32 (a + to_u32 b)) = le32_bytes (a + b).
Proof.
  rewrite le32_bytes_to_u32. rewrite <- (le32_bytes_to_u32 (a + b)).
  rewrite <- (le32_bytes_to_u32 (a + to_u32 b)).
  f_equal. unfold to_u32. apply Z.add_mod_idemp_r. lia.
Qed.

Lemma file_same file :
  f_faults file = [] ->
  mkFile (f_data file) (f_pos file + 0) [] (f_log file ++ []) = file.
Proof.
  intros Hf. rewrite Z.add_0_r, app_nil_r. destruct file; cbn in *.
  subst. reflexivity.
Qed.

Section digest_properties.
Import android mtk.
Context `{FormatDefs} `{Sha1}.

(** The loop reads [remain] bytes from the position on, in chunks, and
    feeds them to the context in order; [fuel] iterations suffice as soon
    as they can cover [remain]. *)
Lemma update_with_data_OK : forall fuel file sha_ctx remain,
  f_faults file = [] -> 0 <= f_pos file -> 0 <= remain ->
  f_pos file + remain <= file_length file ->
  remain <= Z.of_nat fuel * sizeof_buf ->
  exists ops,
    update_with_data fuel file sha_ctx remain
    = Some (RET_OK,
            sha_ctx ++ sub_bytes (f_data file) (f_pos file) remain,
            mkFile (f_data file) (f_pos file + remain) []
              (f_log file ++ ops))
    /\ Forall digest_op ops.
Proof.
  unfold sizeof_buf.
  induction fuel as [|fuel IH]; intros file sha_ctx remain Hf Hpos Hrem Hfit
    Hfuel.
  - assert (remain = 0) as -> by lia. exists []. split; [|constructor].
    cbn [update_with_data]. rewrite Z.ltb_irrefl, sub_bytes_0, app_nil_r.
    rewrite file_same by assumption. reflexivity.
  - cbn [update_with_data].
    destruct (Z.ltb_spec 0 remain) as [L|L].
    + set (to_read := Z.min remain sizeof_buf).
      assert (0 < to_read <= 10240 /\ to_read <= remain
              /\ (to_read = remain \/ to_read = 10240)) as (Hr1 & Hr2 & Hr3)
        by (unfold to_read, sizeof_buf; lia).
      rewrite file_read_fully_ok by assumption.
      unfold file_length in Hfit.
      rewrite sub_bytes_length by lia.
      rewrite Z.eqb_refl. cbn [negb SHA1_Update].
      set (file1 := mkFile _ _ _ _).
      destruct (IH file1 (sha_ctx ++ sub_bytes (f_data file) (f_pos file)
                                       to_read) (remain - to_read))
        as (ops & E & Hops);
        try (subst file1; unfold file_length; cbn [f_faults f_pos f_data];
             solve [reflexivity | lia]).
      exists (OpRead to_read :: ops). split.
      * rewrite E. subst file1. cbn [f_data f_pos f_log].
        rewrite <- !app_assoc. cbn [app].
        rewrite <- (sub_bytes_split _ _ to_read (remain - to_read)) by lia.
        replace (to_read + (remain - to_read)) with remain by lia.
        replace (f_pos file + to_read + (remain - to_read))
          with (f_pos file + remain) by lia.
        reflexivity.
      * constructor; [cbn; unfold sizeof_buf; lia|exact Hops].
    + assert (remain = 0) as -> by lia. exists []. split; [|constructor].
      rewrite sub_bytes_0, app_nil_r, file_same by assumption. reflexivity.
Qed.

Lemma chunks_cover remain :
  0 <= remain -> remain <= Z.of_nat (chunks remain) * sizeof_buf.
Proof.
  intros Hrem. unfold chunks, sizeof_buf.
  pose proof (Z.div_mod remain 10240 ltac:(lia)).
  pose proof (Z.mod_pos_bound remain 10240 ltac:(lia)).
  assert (0 <= remain / 10240) by (apply Z.div_pos; lia).
  rewrite Z2Nat.id by lia. lia.
Qed.

(** The loop over the entries: every payload is read in full and the
    context receives [fed]; the file is only sought and read. *)
Lemma update_with_entries_OK : forall entries file sha_ctx k r,
  f_faults file = [] ->
  Forall (entry_within (file_length file)) entries ->
  exists pos ops,
    update_with_entries entries file sha_ctx k r
    = (RET_OK, sha_ctx ++ fed (f_data file) entries k r,
       mkFile (f_data file) pos [] (f_log file ++ ops))
    /\ Forall digest_op ops
    /\ (entries = [] -> pos = f_pos file).
Proof.
  induction entries as [|e rest IH]; intros file sha_ctx k r Hf Hall.
  - exists (f_pos file), []. split; [|split; [constructor|reflexivity]].
    cbn [update_with_entries fed]. rewrite app_nil_r.
    rewrite <- (Z.add_0_r (f_pos file)) at 1.
    rewrite file_same by assumption. reflexivity.
  - inversion Hall as [|? ? (Hoff & Hsize & Hfit) Hrest]; subst.
    cbn [update_with_entries].
    rewrite File_seek_SET by assumption.
    set (file1 := mkFile _ _ _ _).
    destruct (update_with_data_OK (chunks (SegmentWriter.size e)) file1
                sha_ctx (SegmentWriter.size e)) as (ops1 & E1 & Hops1);
      try (subst file1; unfold file_length in *; cbn [f_faults f_pos f_data];
           solve [reflexivity | assumption | lia]).
    { apply chunks_cover; assumption. }
    rewrite E1. subst file1. cbn [f_data f_pos f_log].
    set (file2 := mkFile _ _ _ _).
    cbn [fed]. fold (payload (f_data file) e).
    destruct (size_term e k r) as [k' r'|le32_size].
    + destruct (IH file2 (sha_ctx ++ payload (f_data file) e) k' r')
        as (pos & ops & E & Hops & _); [reflexivity|exact Hrest|].
      exists pos, (OpSeek (SegmentWriter.offset e) SEEK_SET :: ops1 ++ ops).
      split; [|split; [|discriminate]].
      * rewrite E. subst file2. cbn [f_data f_log].
        rewrite <- !app_assoc. reflexivity.
      * constructor; [exact I|]. apply Forall_app; auto.
    + cbn [SHA1_Update].
      destruct (IH file2 ((sha_ctx ++ payload (f_data file) e) ++ le32_size)
                  k r)
        as (pos & ops & E & Hops & _); [reflexivity|exact Hrest|].
      exists pos, (OpSeek (SegmentWriter.offset e) SEEK_SET :: ops1 ++ ops).
      split; [|split; [|discriminate]].
      * rewrite E. subst file2. cbn [f_data f_log].
        rewrite <- !app_assoc. reflexivity.
      * constructor; [exact I|]. apply Forall_app; auto.
Qed.

Lemma fed_mtk_order data kh k rh r s d :
  map SegmentWriter.type [kh; k; rh; r; s; d] = mtk_order ->
  fed data [kh; k; rh; r; s; d] 0 0 = mtk_digest_message data kh k rh r s d.
Proof.
  intros Hty. injection Hty as Tkh Tk Trh Tr Ts Td.
  unfold mtk_digest_message. cbn [fed]. unfold size_term.
  rewrite Tkh, Tk, Trh, Tr, Ts, Td.
  rewrite !le32_bytes_sum, !le32_bytes_to_u32.
  destruct (SegmentWriter.size d =? 0); rewrite ?app_nil_r; reflexivity.
Qed.

Lemma compute_sha1_OK seg file digest kh k rh r s d :
  SegmentWriter.entries seg = [kh; k; rh; r; s; d] ->
  map SegmentWriter.type [kh; k; rh; r; s; d] = mtk_order ->
  f_faults file = [] ->
  Forall (entry_within (file_length file)) [kh; k; rh; r; s; d] ->
  exists pos ops,
    _mtk_compute_sha1 seg file digest
    = (RET_OK, SHA1 (mtk_digest_message (f_data file) kh k rh r s d),
       mkFile (f_data file) pos [] (f_log file ++ ops))
    /\ Forall digest_op ops.
Proof.
  intros Hseg Hty Hf Hall. unfold _mtk_compute_sha1, SHA1_Init, SHA1_Final.
  rewrite Hseg.
  destruct (update_with_entries_OK [kh; k; rh; r; s; d] file [] 0 0 Hf Hall)
    as (pos & ops & E & Hops & _).
  rewrite E. rewrite (fed_mtk_order _ _ _ _ _ _ _ Hty). cbn [app].
  exists pos, ops. split; [reflexivity|exact Hops].
Qed.

(** C1: for a table that lists the six segments in the order of the MTK
    writer, each lying inside the file, and a file on which no operation
    fails, [_mtk_compute_sha1] returns [RET_OK] with the SHA-1 of: for each
    segment in table order its payload bytes from its offset, followed by
    the little-endian 32-bit size term of its type: none after the two MTK
    headers, [KERNEL.size + MTK_KERNEL_HEADER.size] after the kernel,
    [RAMDISK.size + MTK_RAMDISK_HEADER.size] after the ramdisk, the size
    after the second bootloader, and after the device tree its size, or
    nothing when that size is 0.  The pass leaves the contents alone: it
    only seeks from the start and reads at most [sizeof_buf] = 10240 bytes
    at a time. *)
Theorem compute_sha1_digest (seg : SegmentWriter.t) (file : File)
  (digest : list byte) (kh k rh r s d : SegmentWriter.Entry) :
  SegmentWriter.entries seg = [kh; k; rh; r; s; d] ->
  map SegmentWriter.type [kh; k; rh; r; s; d] = mtk_order ->
  f_faults file = [] ->
  Forall (entry_within (file_length file)) [kh; k; rh; r; s; d] ->
  exists pos ops,
    _mtk_compute_sha1 seg file digest
    = (RET_OK, SHA1 (mtk_digest_message (f_data file) kh k rh r s d),
       mkFile (f_data file) pos [] (f_log file ++ ops))
    /\ Forall digest_op ops.
Proof. exact (compute_sha1_OK seg file digest kh k rh r s d). Qed.

End digest_properties.

(** ** Finalization *)

Lemma truncate_to_length data size :
  0 <= size -> Z.of_nat (length (truncate_to data size)) = size.
Proof.
  intros Hs. unfold truncate_to, zeros.
  rewrite length_app, length_firstn, repeat_length. lia.
Qed.

Lemma write_at_length data pos buf :
  0 <= pos -> pos + Z.of_nat (length buf) <= Z.of_nat (length data) ->
  length (write_at data pos buf) = length data.
Proof.
  intros Hp Hfit. unfold write_at, zeros.
  rewrite !length_app, length_firstn, repeat_length, length_skipn. lia.
Qed.

Lemma le32_bytes_length v : length (le32_bytes v) = 4%nat.
Proof. apply length_le_split. Qed.

Lemma android_header_bytes_length h :
  Z.of_nat (length (android.android_header_bytes h))
  = android.sizeof_AndroidHeader.
Proof.
  unfold android.android_header_bytes, android.field_bytes, zeros.
  rewrite !length_app, !le32_bytes_length, !length_firstn, !repeat_length.
  unfold android.sizeof_AndroidHeader. lia.
Qed.

Section close_properties.
Import android mtk.
Context `{FormatDefs} `{Sha1}.

Lemma mtk_header_update_size_OK file offset size :
  f_faults file = [] -> 0 <= offset ->
  offset <= SIZE_MAX - MtkHeader_size_offset ->
  _mtk_header_update_size file offset size
  = (RET_OK,
     mkFile
       (write_at (f_data file) (offset + MtkHeader_size_offset)
          (le32_bytes size))
       (offset + MtkHeader_size_offset + 4) []
       (f_log file
        ++ [OpSeek (offset + MtkHeader_size_offset) SEEK_SET;
            OpWrite (le32_bytes size)])).
Proof.
  intros Hf Hoff Hmax. pose proof MtkHeader_size_offset_range as Ho.
  unfold _mtk_header_update_size.
  destruct (Z.ltb_spec (SIZE_MAX - MtkHeader_size_offset) offset); [lia|].
  rewrite File_seek_SET by (assumption || lia).
  rewrite file_write_fully_ok by reflexivity.
  rewrite le32_bytes_length. cbn [f_data f_pos f_log negb Z.eqb Z.of_nat
                                  Pos.of_succ_nat Pos.succ Pos.eqb].
  rewrite <- app_assoc. reflexivity.
Qed.

Lemma update_header_sizes_OK file h kh k rh r s d :
  map SegmentWriter.type [kh; k; rh; r; s; d] = mtk_order ->
  f_faults file = [] ->
  0 <= SegmentWriter.offset kh <= SIZE_MAX - MtkHeader_size_offset ->
  0 <= SegmentWriter.offset rh <= SIZE_MAX - MtkHeader_size_offset ->
  let ksize := le32_bytes (kernel_size h - sizeof_MtkHeader) in
  let rsize := le32_bytes (ramdisk_size h - sizeof_MtkHeader) in
  update_header_sizes [kh; k; rh; r; s; d] h file
  = (RET_OK,
     mkFile
       (write_at
          (write_at (f_data file)
             (SegmentWriter.offset kh + MtkHeader_size_offset) ksize)
          (SegmentWriter.offset rh + MtkHeader_size_offset) rsize)
       (SegmentWriter.offset rh + MtkHeader_size_offset + 4) []
       (f_log file
        ++ [OpSeek (SegmentWriter.offset kh + MtkHeader_size_offset) SEEK_SET;
            OpWrite ksize;
            OpSeek (SegmentWriter.offset rh + MtkHeader_size_offset) SEEK_SET;
            OpWrite rsize])).
Proof.
  intros Hty Hf Hkh Hrh ksize rsize.
  injection Hty as Tkh Tk Trh Tr Ts Td.
  cbn [update_header_sizes]. rewrite Tkh, Tk, Trh, Tr, Ts, Td.
  rewrite mtk_header_update_size_OK by (assumption || lia).
  rewrite mtk_header_update_size_OK by (reflexivity || lia).
  cbn [f_data f_log]. rewrite !le32_bytes_to_u32.
  rewrite <- app_assoc. reflexivity.
Qed.

Lemma finish_image_OK ctx file kh k rh r s d :
  SegmentWriter.entries (seg ctx) = [kh; k; rh; r; s; d] ->
  map SegmentWriter.type [kh; k; rh; r; s; d] = mtk_order ->
  f_faults file = [] ->
  0 <= file_size ctx <= UINT64_MAX ->
  Forall (entry_within (file_size ctx)) [kh; k; rh; r; s; d] ->
  SegmentWriter.size kh = sizeof_MtkHeader ->
  SegmentWriter.size rh = sizeof_MtkHeader ->
  let ksize := le32_bytes (kernel_size (hdr ctx) - sizeof_MtkHeader) in
  let rsize := le32_bytes (ramdisk_size (hdr ctx) - sizeof_MtkHeader) in
  let data0 := truncate_to (f_data file) (file_size ctx) in
  let data1 :=
    write_at data0 (SegmentWriter.offset kh + MtkHeader_size_offset) ksize in
  let data2 :=
    write_at data1 (SegmentWriter.offset rh + MtkHeader_size_offset) rsize in
  let digest := SHA1 (mtk_digest_message data2 kh k rh r s d) in
  let hdr' :=
    set_id (hdr ctx) (digest ++ skipn SHA_DIGEST_LENGTH (id (hdr ctx))) in
  exists ops,
    finish_image ctx file
    = (RET_OK, set_hdr ctx hdr',
       mkFile (write_at data2 0 (android_header_bytes hdr'))
         (0 + sizeof_AndroidHeader) []
         (f_log file
          ++ finalization_log (file_size ctx) kh rh ksize rsize ops
               (android_header_bytes hdr')))
    /\ Forall digest_op ops.
Proof.
  intros Hseg Hty Hf Hsize Hall Hkh Hrh ksize rsize data0 data1 data2 digest
    hdr'.
  pose proof MtkHeader_size_offset_range as Ho.
  assert (entry_within (file_size ctx) kh /\ entry_within (file_size ctx) rh)
    as ((Hk1 & Hk2 & Hk3) & (Hr1 & Hr2 & Hr3)).
  { inversion Hall as [|? ? ? Hall1]; subst.
    inversion Hall1 as [|? ? ? Hall2]; subst.
    inversion Hall2; subst. auto. }
  rewrite Hkh in Hk3. rewrite Hrh in Hr3.
  unfold sizeof_MtkHeader in Hk3, Hr3. unfold UINT64_MAX in Hsize.
  assert (Z.of_nat (length data0) = file_size ctx) as L0
    by (apply truncate_to_length; lia).
  assert (length ksize = 4%nat) as Lk by apply le32_bytes_length.
  assert (length rsize = 4%nat) as Lr by apply le32_bytes_length.
  assert (length data1 = length data0) as L1
    by (apply write_at_length; lia).
  assert (length data2 = length data1) as L2
    by (apply write_at_length; lia).
  unfold finish_image.
  rewrite File_truncate_ok by assumption. fold data0.
  rewrite Hseg.
  rewrite (update_header_sizes_OK _ (hdr ctx) kh k rh r s d Hty)
    by (solve [reflexivity | cbn [f_data]; unfold SIZE_MAX, UINT64_MAX; lia]).
  cbn [f_data f_log]. fold ksize rsize data1 data2.
  set (file2 := mkFile data2 _ _ _).
  destruct (compute_sha1_OK (seg ctx) file2
              (firstn SHA_DIGEST_LENGTH (id (hdr ctx))) kh k rh r s d
              Hseg Hty eq_refl) as (pos & ops & E & Hops).
  { unfold file_length, file2. cbn [f_data]. rewrite L2, L1, L0. exact Hall. }
  rewrite E. subst file2. cbn [f_data f_log]. fold digest hdr'.
  rewrite File_seek_SET by (reflexivity || lia).
  rewrite file_write_fully_ok by reflexivity.
  rewrite android_header_bytes_length, Z.eqb_refl.
  cbn [negb f_data f_pos f_log hdr set_hdr].
  exists ops. split; [|exact Hops].
  unfold finalization_log. rewrite <- !app_assoc. reflexivity.
Qed.

(** C2, amended: when [mtk_writer_close] runs with no entry pending, on
    the table of the MTK writer and a file on which no operation fails, it
    records, unless a value was recorded before, the current file position
    (the offset [seek(0, SEEK_CUR)] returns, not the length of the file)
    and truncates the file to the recorded value; it then overwrites, for
    the MTK kernel and ramdisk header segment, the four bytes at
    [offset + offsetof(MtkHeader, size)] with the little-endian
    [kernel_size - sizeof(MtkHeader)], resp.
    [ramdisk_size - sizeof(MtkHeader)]; then computes the digest of the
    patched contents and stores it in the first 20 bytes of [id], whose
    last 12 bytes stay zero; and last writes the little-endian header at
    offset 0.  The log lists these operations in this order. *)
Theorem close_finalizes (ctx : MtkWriterCtx) (file : File)
  (kh k rh r s d : SegmentWriter.Entry) :
  SegmentWriter.entry (seg ctx) = None ->
  SegmentWriter.entries (seg ctx) = [kh; k; rh; r; s; d] ->
  map SegmentWriter.type [kh; k; rh; r; s; d] = mtk_order ->
  f_faults file = [] -> 0 <= f_pos file ->
  let size := if have_file_size ctx then file_size ctx else f_pos file in
  let query := if have_file_size ctx then [] else [OpSeek 0 SEEK_CUR] in
  0 <= size <= UINT64_MAX ->
  Forall (entry_within size) [kh; k; rh; r; s; d] ->
  SegmentWriter.size kh = sizeof_MtkHeader ->
  SegmentWriter.size rh = sizeof_MtkHeader ->
  skipn SHA_DIGEST_LENGTH (id (hdr ctx)) = zeros 12 ->
  let ksize := le32_bytes (kernel_size (hdr ctx) - sizeof_MtkHeader) in
  let rsize := le32_bytes (ramdisk_size (hdr ctx) - sizeof_MtkHeader) in
  let data0 := truncate_to (f_data file) size in
  let data1 :=
    write_at data0 (SegmentWriter.offset kh + MtkHeader_size_offset) ksize in
  let data2 :=
    write_at data1 (SegmentWriter.offset rh + MtkHeader_size_offset) rsize in
  let digest := SHA1 (mtk_digest_message data2 kh k rh r s d) in
  let hdr' := set_id (hdr ctx) (digest ++ zeros 12) in
  exists file' ops,
    mtk_writer_close ctx file
    = (RET_OK, mkCtx hdr' true size (seg ctx), file')
    /\ f_data file' = write_at data2 0 (android_header_bytes hdr')
    /\ f_log file'
       = f_log file ++ query
         ++ finalization_log size kh rh ksize rsize ops
              (android_header_bytes hdr')
    /\ Forall digest_op ops
    /\ length digest = SHA_DIGEST_LENGTH.
Proof.
  intros Hentry Hseg Hty Hf Hpos size query Hsize Hall Hkh Hrh Hid
    ksize rsize data0 data1 data2 digest hdr'.
  unfold mtk_writer_close.
  destruct (have_file_size ctx) eqn:Hhave; cbn [negb].
  - rewrite Hentry.
    destruct (finish_image_OK ctx file kh k rh r s d Hseg Hty Hf Hsize Hall
                Hkh Hrh) as (ops & E & Hops).
    rewrite E, Hid. fold ksize rsize data0 data1 data2 digest hdr'.
    unfold set_hdr. rewrite Hhave.
    eexists _, ops. split; [reflexivity|].
    split; [reflexivity|]. split; [reflexivity|].
    split; [exact Hops|apply SHA1_length].
  - rewrite File_seek_CUR_0 by assumption.
    set (ctx1 := set_have_file_size (set_file_size ctx (f_pos file)) true).
    set (file1 := mkFile _ _ _ _).
    change (SegmentWriter.entry (seg ctx1))
      with (SegmentWriter.entry (seg ctx)).
    rewrite Hentry.
    destruct (finish_image_OK ctx1 file1 kh k rh r s d Hseg Hty eq_refl Hsize
                Hall Hkh Hrh) as (ops & E & Hops).
    rewrite E. subst ctx1 file1.
    cbn [hdr file_size f_data f_log set_have_file_size set_file_size].
    rewrite Hid. fold ksize rsize data0 data1 data2 digest hdr'.
    eexists _, ops. split; [reflexivity|].
    split; [reflexivity|].
    split; [cbn [f_log]; rewrite <- app_assoc; reflexivity|].
    split; [exact Hops|apply SHA1_length].
Qed.

End close_properties.

(** * Worked examples *)

(** The values of "strict" listed in the specification. *)
Example strict_values :
  map (fun v =>
         android.allow_truncated_dt
           (snd (android.android_reader_set_option
                   android.mb_bi_reader_enable_format_android "strict" v)))
    ["true"; "TRUE"; "yes"; "Y"; "1"; "0"; "false"; ""; "no"]%string
  = [false; false; false; false; false; true; true; true; true].
Proof. reflexivity. Qed.

(** The minimal image without a trailer scores the bits of the magic. *)
Example bid_minimal_image :
  fst (fst (android.android_reader_bid android.new_AndroidReaderCtx
              (file_of example_image) 0))
  = BidBits 64.
Proof. vm_compute. reflexivity. Qed.

(** The Bump bid on the image with the Samsung trailer finds the header
    only. *)
Example bump_bid_samsung_image :
  fst (fst (android.bump_reader_bid android.new_AndroidReaderCtx
              (file_of example_image_samsung) 0))
  = BidBits 64.
Proof. vm_compute. reflexivity. Qed.

(** An image without the magic scores 0. *)
Example bid_no_magic :
  fst (fst (android.android_reader_bid android.new_AndroidReaderCtx
              (file_of (zeros 4096)) 0))
  = BidBits 0.
Proof. vm_compute. reflexivity. Qed.

Lemma bid_cannot_win_witness :
  android.android_reader_bid android.new_AndroidReaderCtx
    (file_of example_image) 192
  = (BidRet RET_WARN, android.new_AndroidReaderCtx, file_of example_image)
  /\ android.bump_reader_bid android.new_AndroidReaderCtx
       (file_of example_image) 192
     = (BidRet RET_WARN, android.new_AndroidReaderCtx, file_of example_image).
Proof.
  split.
  - apply (proj1 (bid_cannot_win android.new_AndroidReaderCtx
                    (file_of example_image) 192)).
    vm_compute. discriminate.
  - apply (proj2 (bid_cannot_win android.new_AndroidReaderCtx
                    (file_of example_image) 192)).
    vm_compute. discriminate.
Defined.

Lemma set_option_strict_witness :
  str_equal "strict" "strict"
  /\ ~ str_equal "verbose" "strict"
  /\ (exists b : bool,
        android.android_reader_set_option
          android.mb_bi_reader_enable_format_android "strict" "TRUE"
        = (RET_OK,
           android.set_allow_truncated_dt
             android.mb_bi_reader_enable_format_android b)
        /\ (b = false <-> strict_value "TRUE")
        /\ (b = true <-> ~ strict_value "TRUE"))
  /\ android.android_reader_set_option
       android.mb_bi_reader_enable_format_android "verbose" "1"
     = (RET_WARN, android.mb_bi_reader_enable_format_android).
Proof.
  assert (str_equal "strict" "strict") as A by reflexivity.
  assert (~ str_equal "verbose" "strict") as B by (vm_compute; discriminate).
  split; [exact A|]. split; [exact B|]. split.
  - exact (proj1 (set_option_strict
                    android.mb_bi_reader_enable_format_android
                    "strict" "TRUE") A).
  - exact (proj1 (proj2 (set_option_strict
                           android.mb_bi_reader_enable_format_android
                           "verbose" "1")) B).
Defined.

Lemma read_header_lazy_scan_witness :
  exists ctx' header',
    android.android_reader_read_header
      android.mb_bi_reader_enable_format_android (file_of example_image)
      Header.empty
    = (RET_OK, ctx', scanned (file_of example_image), header')
    /\ android.hdr ctx' = example_android_header
    /\ android.header_offset ctx' = 0
    /\ android.have_header_offset ctx' = true.
Proof.
  apply (proj1 (read_header_lazy_scan
                  android.mb_bi_reader_enable_format_android
                  (file_of example_image) Header.empty)).
  - reflexivity.
  - vm_compute. reflexivity.
Defined.

Lemma read_header_segments_witness :
  exists ctx' file' header',
    android.android_reader_read_header
      android.mb_bi_reader_enable_format_android (file_of example_image)
      Header.empty
    = (RET_OK, ctx', file', header')
    /\ SegmentReader.entries (android.seg ctx')
       = [SegmentReader.mkEntry ENTRY_TYPE_KERNEL 2048 100 false;
          SegmentReader.mkEntry ENTRY_TYPE_RAMDISK 4096 50 false].
Proof.
  set (res := android.android_reader_read_header
                android.mb_bi_reader_enable_format_android
                (file_of example_image) Header.empty).
  assert (res = (RET_OK, snd (fst (fst res)), snd (fst res), snd res)) as E
    by (vm_compute; reflexivity).
  assert (cache_in_range android.mb_bi_reader_enable_format_android) as C
    by (intros D; discriminate D).
  assert (0 < android.page_size (android.hdr (snd (fst (fst res))))) as P
    by (vm_compute; reflexivity).
  exists (snd (fst (fst res))), (snd (fst res)), (snd res).
  split; [exact E|].
  destruct (read_header_segments _ _ _ _ _ _ C E P) as [T _].
  rewrite T. vm_compute. reflexivity.
Defined.

Lemma android_bid_score_witness :
  fst (fst (android.android_reader_bid android.new_AndroidReaderCtx
              (file_of example_image_samsung) 0))
  = BidBits ((android.BOOT_MAGIC_SIZE + android.SAMSUNG_SEANDROID_MAGIC_SIZE)
             * 8).
Proof.
  refine (proj2 (proj2 (android_bid_score android.new_AndroidReaderCtx
                          (file_of example_image_samsung) 0 eq_refl _)
                   0%nat example_android_header _ _) _).
  - vm_compute. reflexivity.
  - split; [vm_compute; reflexivity|].
    split; [intros j Hj; inversion Hj|].
    split; [vm_compute; discriminate|vm_compute; reflexivity].
  - reflexivity.
  - vm_compute. reflexivity.
Defined.

Lemma finish_entry_checks_witness :
  exists ctx',
    mtk.mtk_writer_finish_entry example_ctx_kernel example_file_kernel
    = (RET_OK, ctx',
       mkFile (firstn 2568 example_data) 4096 [] [OpSeek 1528 SEEK_CUR])
    /\ android.kernel_size (mtk.hdr ctx') = 520.
Proof.
  assert (SegmentWriter.finish_entry (mtk.seg example_ctx_kernel)
            example_file_kernel
          = (RET_OK, mtk.seg example_ctx_kernel,
             mkFile (firstn 2568 example_data) 4096 []
               [OpSeek 1528 SEEK_CUR])) as F by reflexivity.
  assert (SegmentWriter.entry (mtk.seg example_ctx_kernel) = Some example_k)
    as E by reflexivity.
  destruct (proj2 (proj2 (finish_entry_checks example_ctx_kernel
                            example_file_kernel _ _ _ F E)))
    as (ctx' & R & _ & K & _).
  - intros [_ C]. discriminate C.
  - intros [[C|C] _]; discriminate C.
  - exists ctx'. split; [exact R|].
    apply (proj2 (K eq_refl)); vm_compute; discriminate.
Defined.

Lemma finish_entry_oversize_witness :
  exists ctx',
    mtk.mtk_writer_finish_entry example_ctx_oversize (file_of [])
    = (RET_OK, ctx', mkFile [] 1537 [] [OpSeek 1537 SEEK_CUR])
    /\ android.kernel_size (mtk.hdr ctx') = 511.
Proof.
  assert (SegmentWriter.finish_entry (mtk.seg example_ctx_oversize)
            (file_of [])
          = (RET_OK, mtk.seg example_ctx_oversize,
             mkFile [] 1537 [] [OpSeek 1537 SEEK_CUR])) as F by reflexivity.
  assert (SegmentWriter.entry (mtk.seg example_ctx_oversize)
          = Some (SegmentWriter.mkEntry ENTRY_TYPE_KERNEL 2560 UINT32_MAX
                    2048)) as E by reflexivity.
  destruct (proj2 (finish_entry_oversize example_ctx_oversize (file_of [])
                     _ _ _ F E (or_introl eq_refl)))
    as (ctx' & R & K & _).
  - split; vm_compute; [reflexivity|discriminate].
  - exists ctx'. split; [exact R|]. exact (K eq_refl).
Defined.

Lemma close_with_pending_entry_witness :
  mtk.mtk_writer_close example_ctx_pending example_file
  = (RET_OK,
     mtk.mkCtx example_header true 6144
       (SegmentWriter.mk example_entries (Some 3%nat)),
     mkFile example_data 6144 [] [OpSeek 0 SEEK_CUR]).
Proof.
  refine (proj1 (proj2 (close_with_pending_entry example_ctx_pending
                          example_file example_r eq_refl))
            eq_refl eq_refl _).
  vm_compute. discriminate.
Defined.

(** Every entry of the example table lies inside the first 6144 bytes. *)
Lemma example_entries_within :
  Forall (entry_within 6144)
    [example_kh; example_k; example_rh; example_r; example_s; example_d].
Proof.
  repeat (constructor;
          [vm_compute; repeat split; intros C; discriminate C|]).
  constructor.
Qed.

Lemma compute_sha1_digest_witness :
  exists pos ops,
    mtk._mtk_compute_sha1 (mtk.seg example_ctx) example_file_padded []
    = (RET_OK,
       SHA1 (mtk_digest_message (f_data example_file_padded) example_kh
               example_k example_rh example_r example_s example_d),
       mkFile (f_data example_file_padded) pos []
         (f_log example_file_padded ++ ops))
    /\ Forall digest_op ops.
Proof.
  apply (compute_sha1_digest (mtk.seg example_ctx) example_file_padded []
           example_kh example_k example_rh example_r example_s example_d).
  - reflexivity.
  - reflexivity.
  - reflexivity.
  - replace (file_length example_file_padded) with 6144
      by (vm_compute; reflexivity).
    exact example_entries_within.
Defined.

(** C2 as stated fails on the example: the file is 4612 bytes long and the
    position is 6144; [mtk_writer_close] records 6144 and leaves a file of
    6144 bytes. *)
Lemma close_captures_position_not_length :
  file_length example_file = 4612
  /\ mtk.file_size (snd (fst (mtk.mtk_writer_close example_ctx example_file)))
     = 6144
  /\ file_length (snd (mtk.mtk_writer_close example_ctx example_file)) = 6144
  /\ ~ captures_file_length example_ctx example_file.
Proof.
  split; [vm_compute; reflexivity|].
  split; [vm_compute; reflexivity|].
  split; [vm_compute; reflexivity|].
  intros [C _]. vm_compute in C. discriminate C.
Qed.

Lemma close_finalizes_witness :
  exists ctx' file',
    mtk.mtk_writer_close example_ctx example_file = (RET_OK, ctx', file')
    /\ mtk.have_file_size ctx' = true
    /\ mtk.file_size ctx' = 6144
    /\ file_length file' = 6144
    /\ sub_bytes (f_data file') 2052 4 = le32_bytes 8
    /\ sub_bytes (f_data file') 4100 4 = le32_bytes 4
    /\ skipn 20 (android.id (mtk.hdr ctx')) = zeros 12
    /\ sub_bytes (f_data file') 0 608
       = android.android_header_bytes (mtk.hdr ctx').
Proof.
  destruct (close_finalizes example_ctx example_file example_kh example_k
              example_rh example_r example_s example_d)
    as (file' & ops & R & D & _ & _ & L);
    try reflexivity.
  - vm_compute. discriminate.
  - split; vm_compute; discriminate.
  - exact example_entries_within.
  - eexists _, file'. split; [exact R|].
    split; [reflexivity|]. split; [reflexivity|].
    unfold file_length. rewrite D.
    split; [vm_compute; reflexivity|].
    split; [vm_compute; reflexivity|].
    split; [vm_compute; reflexivity|].
    split; [|vm_compute; reflexivity].
    cbn [android.id mtk.hdr mtk.set_id]. rewrite skipn_app, L.
    rewrite skipn_all2 by (rewrite L; apply Nat.le_refl). reflexivity.
Defined.

(** * Further properties *)

(** ** The bids *)

Section bump_bid_properties.
Import android.
Context `{FormatDefs}.

(** The Bump trailer test without failures. *)
Lemma find_bump_magic_scan file h off0 :
  f_faults file = [] -> header_in_range h -> 0 < page_size h ->
  exists file2,
    find_bump_magic file h off0
    = if bytes_eqb (sub_bytes (f_data file) (tail_offset h) BUMP_MAGIC_SIZE)
           BUMP_MAGIC
      then (RET_OK, tail_offset h, file2)
      else (RET_WARN, off0, file2).
Proof.
  intros Hf Hrange Hpage.
  destruct (magic_pos_tail h Hrange Hpage) as (Epos & Hpos).
  unfold find_bump_magic. rewrite Epos. cbv zeta.
  rewrite File_seek_SET by assumption.
  rewrite file_read_fully_ok by reflexivity. cbn [f_data f_pos f_log].
  set (buf := sub_bytes (f_data file) (tail_offset h) BUMP_MAGIC_SIZE).
  eexists.
  destruct (bytes_eqb buf BUMP_MAGIC) eqn:E.
  - apply bytes_eqb_eq in E.
    assert ((Z.of_nat (length buf) =? BUMP_MAGIC_SIZE) = true)
      as Hn by (rewrite E; apply Z.eqb_refl).
    assert (memcmp_eq buf BUMP_MAGIC (Z.of_nat (length buf)) = true) as Hm.
    { unfold memcmp_eq. apply bytes_eqb_eq. rewrite E. reflexivity. }
    rewrite Hn, Hm. reflexivity.
  - destruct (Z.eqb_spec (Z.of_nat (length buf)) BUMP_MAGIC_SIZE)
      as [L|L]; cbn [negb orb]; [|reflexivity].
    assert (memcmp_eq buf BUMP_MAGIC (Z.of_nat (length buf)) = false) as Hm.
    { unfold memcmp_eq. rewrite Nat2Z.id, firstn_all.
      unfold BUMP_MAGIC_SIZE in L. apply Nat2Z.inj in L.
      rewrite L, firstn_all. exact E. }
    rewrite Hm. reflexivity.
Qed.

(** X1: on a file without failures and with a bid that can still be won,
    [bump_reader_bid] returns 0 when the magic "ANDROID!" stands nowhere in
    the bytes scanned; when the scan finds the header it returns
    [BOOT_MAGIC_SIZE * 8] if the Bump magic is not at the tail offset of
    that header, and [(BOOT_MAGIC_SIZE + BUMP_MAGIC_SIZE) * 8] if it is. *)
Theorem bump_bid_score (ctx : AndroidReaderCtx) (file : File) (best_bid : Z) :
  f_faults file = [] ->
  best_bid < (BOOT_MAGIC_SIZE + BUMP_MAGIC_SIZE) * 8 ->
  let bid := fst (fst (bump_reader_bid ctx file best_bid)) in
  ((forall i, ~ occurs_at BOOT_MAGIC (scan_window file) i) ->
   bid = BidBits 0)
  /\ (forall i h,
        header_found file i h -> 0 < page_size h ->
        let tail :=
          sub_bytes (f_data file) (tail_offset h) BUMP_MAGIC_SIZE in
        (tail <> BUMP_MAGIC -> bid = BidBits (BOOT_MAGIC_SIZE * 8))
        /\ (tail = BUMP_MAGIC ->
            bid = BidBits ((BOOT_MAGIC_SIZE + BUMP_MAGIC_SIZE) * 8))).
Proof.
  intros Hf Hbest bid. subst bid. unfold bump_reader_bid.
  destruct (Z.leb_spec ((BOOT_MAGIC_SIZE + BUMP_MAGIC_SIZE) * 8) best_bid)
    as [L|_]; [lia|].
  rewrite find_android_header_scan by assumption.
  split.
  - intros Hno. apply mb_memmem_None in Hno. rewrite Hno. reflexivity.
  - intros i h (Hocc & Hmin & Hfit & Eh) Hpage. subst h.
    set (tail := sub_bytes (f_data file) _ _).
    rewrite (mb_memmem_first _ _ _ Hocc Hmin).
    destruct (Z.ltb_spec (Z.of_nat (length (scan_window file)) - Z.of_nat i)
                sizeof_AndroidHeader) as [L|_]; [lia|].
    set (h := android_header_of_bytes _) in *.
    cbv zeta. cbn [hdr set_hdr set_have_header_offset bump_offset].
    destruct (find_bump_magic_scan (scanned file) h (bump_offset ctx) eq_refl
                (android_header_of_bytes_in_range _) Hpage) as (file2 & ->).
    cbn [f_data scanned]. fold tail.
    destruct (bytes_eqb tail BUMP_MAGIC) eqn:E.
    + apply bytes_eqb_eq in E. split; [congruence|].
      intros _. cbn [fst]. f_equal. lia.
    + split; [reflexivity|].
      intros E'. apply bytes_eqb_eq in E'. congruence.
Qed.

End bump_bid_properties.

Lemma bump_bid_score_witness :
  fst (fst (android.bump_reader_bid android.new_AndroidReaderCtx
              (file_of example_image_bump) 0))
  = BidBits ((android.BOOT_MAGIC_SIZE + android.BUMP_MAGIC_SIZE) * 8).
Proof.
  refine (proj2 (proj2 (bump_bid_score android.new_AndroidReaderCtx
                          (file_of example_image_bump) 0 eq_refl _)
                   0%nat example_android_header _ _) _).
  - vm_compute. reflexivity.
  - split; [vm_compute; reflexivity|].
    split; [intros j Hj; inversion Hj|].
    split; [vm_compute; discriminate|vm_compute; reflexivity].
  - reflexivity.
  - vm_compute. reflexivity.
Defined.

(** ** Reading never writes *)

Lemma read_only_step_refl file : read_only_step file file.
Proof.
  split; [reflexivity|]. exists []. split; [|constructor].
  symmetry; apply app_nil_r.
Qed.

Lemma read_only_step_trans f1 f2 f3 :
  read_only_step f1 f2 -> read_only_step f2 f3 -> read_only_step f1 f3.
Proof.
  intros (D1 & ops1 & L1 & O1) (D2 & ops2 & L2 & O2).
  split; [congruence|]. exists (ops1 ++ ops2).
  split; [rewrite L2, L1, app_assoc; reflexivity|].
  apply Forall_app; auto.
Qed.

Lemma File_seek_read_only file off w :
  match File_seek file off w with
  | FileOk _ file' | FileErr _ file' => read_only_step file file'
  end.
Proof.
  unfold File_seek.
  assert (read_only_step file (file_enter (OpSeek off w) file)) as S.
  { split; [reflexivity|]. exists [OpSeek off w].
    split; [reflexivity|]. repeat constructor. }
  destruct (file_fault file); [exact S|].
  destruct (_ <? 0); [exact S|].
  destruct S as (D & ops & L & O). split; [exact D|]. exists ops. auto.
Qed.

Lemma file_read_fully_read_only file size :
  match file_read_fully file size with
  | FileOk _ file' | FileErr _ file' => read_only_step file file'
  end.
Proof.
  unfold file_read_fully.
  assert (read_only_step file (file_enter (OpRead size) file)) as S.
  { split; [reflexivity|]. exists [OpRead size].
    split; [reflexivity|]. repeat constructor. }
  destruct (file_fault file); [exact S|].
  destruct S as (D & ops & L & O). split; [exact D|]. exists ops. auto.
Qed.

Section read_only_properties.
Import android.
Context `{FormatDefs}.

Lemma find_android_header_read_only file m h0 off0 :
  read_only_step file (snd (find_android_header file m h0 off0)).
Proof.
  unfold find_android_header.
  destruct (MAX_HEADER_OFFSET <? m); [apply read_only_step_refl|].
  pose proof (File_seek_read_only file 0 SEEK_SET) as S.
  destruct (File_seek file 0 SEEK_SET) as [? file1|? file1]; [|exact S].
  pose proof (file_read_fully_read_only file1 (m + sizeof_AndroidHeader))
    as R.
  destruct (file_read_fully file1 _) as [buf file2|? file2];
    [|exact (read_only_step_trans _ _ _ S R)].
  pose proof (read_only_step_trans _ _ _ S R) as T.
  destruct (mb_memmem buf BOOT_MAGIC); [|exact T].
  destruct (_ <? sizeof_AndroidHeader); exact T.
Qed.

Lemma find_samsung_seandroid_magic_read_only file h off0 :
  read_only_step file (snd (find_samsung_seandroid_magic file h off0)).
Proof.
  unfold find_samsung_seandroid_magic. cbv zeta.
  pose proof (File_seek_read_only file (magic_pos h) SEEK_SET) as S.
  destruct (File_seek file (magic_pos h) SEEK_SET) as [? file1|? file1];
    [|exact S].
  pose proof (file_read_fully_read_only file1 SAMSUNG_SEANDROID_MAGIC_SIZE)
    as R.
  destruct (file_read_fully file1 _) as [buf file2|? file2];
    [|exact (read_only_step_trans _ _ _ S R)].
  pose proof (read_only_step_trans _ _ _ S R) as T.
  destruct (_ || _); exact T.
Qed.

Lemma find_bump_magic_read_only file h off0 :
  read_only_step file (snd (find_bump_magic file h off0)).
Proof.
  unfold find_bump_magic. cbv zeta.
  pose proof (File_seek_read_only file (magic_pos h) SEEK_SET) as S.
  destruct (File_seek file (magic_pos h) SEEK_SET) as [? file1|? file1];
    [|exact S].
  pose proof (file_read_fully_read_only file1 BUMP_MAGIC_SIZE) as R.
  destruct (file_read_fully file1 _) as [buf file2|? file2];
    [|exact (read_only_step_trans _ _ _ S R)].
  pose proof (read_only_step_trans _ _ _ S R) as T.
  destruct (_ || _); exact T.
Qed.

Lemma android_reader_bid_read_only ctx file best_bid :
  read_only_step file (snd (android_reader_bid ctx file best_bid)).
Proof.
  unfold android_reader_bid.
  destruct (_ <=? best_bid); [apply read_only_step_refl|].
  pose proof (find_android_header_read_only file MAX_HEADER_OFFSET (hdr ctx)
                (header_offset ctx)) as A.
  destruct (find_android_header file MAX_HEADER_OFFSET _ _)
    as [[[ret h] off] file1].
  cbn [snd] in A.
  destruct ret; try exact A.
  cbv zeta.
  match goal with
  | |- context [find_samsung_seandroid_magic file1 ?hh ?oo] =>
      pose proof (find_samsung_seandroid_magic_read_only file1 hh oo) as B;
      destruct (find_samsung_seandroid_magic file1 hh oo)
        as [[ret2 soff] file2]
  end.
  cbn [snd] in B.
  destruct ret2; exact (read_only_step_trans _ _ _ A B).
Qed.

Lemma bump_reader_bid_read_only ctx file best_bid :
  read_only_step file (snd (bump_reader_bid ctx file best_bid)).
Proof.
  unfold bump_reader_bid.
  destruct (_ <=? best_bid); [apply read_only_step_refl|].
  pose proof (find_android_header_read_only file MAX_HEADER_OFFSET (hdr ctx)
                (header_offset ctx)) as A.
  destruct (find_android_header file MAX_HEADER_OFFSET _ _)
    as [[[ret h] off] file1].
  cbn [snd] in A.
  destruct ret; try exact A.
  cbv zeta.
  match goal with
  | |- context [find_bump_magic file1 ?hh ?oo] =>
      pose proof (find_bump_magic_read_only file1 hh oo) as B;
      destruct (find_bump_magic file1 hh oo) as [[ret2 boff] file2]
  end.
  cbn [snd] in B.
  destruct ret2; exact (read_only_step_trans _ _ _ A B).
Qed.

Lemma android_reader_read_header_read_only ctx file header :
  read_only_step file
    (snd (fst (android_reader_read_header ctx file header))).
Proof.
  unfold android_reader_read_header.
  destruct (negb (have_header_offset ctx)).
  - pose proof (find_android_header_read_only file MAX_HEADER_OFFSET
                  (hdr ctx) (header_offset ctx)) as A.
    destruct (find_android_header file MAX_HEADER_OFFSET _ _)
      as [[[ret h] off] file1].
    cbn [snd] in A.
    destruct (ret_negative ret); [exact A|].
    destruct (read_header_tail_frame
                (set_have_header_offset (set_hdr ctx h off) true) file1
                header) as (s & h' & ->).
    exact A.
  - destruct (read_header_tail_frame ctx file header) as (s & h' & ->).
    apply read_only_step_refl.
Qed.

(** X2: whatever the file does, a bid (Android or Bump) and
    [android_reader_read_header] leave the contents of the file as they
    were: the operations they add to the log are seeks and reads. *)
Theorem reader_never_writes (ctx : AndroidReaderCtx) (file : File)
  (best_bid : Z) (header : Header.t) :
  read_only_step file (snd (android_reader_bid ctx file best_bid))
  /\ read_only_step file (snd (bump_reader_bid ctx file best_bid))
  /\ read_only_step file
       (snd (fst (android_reader_read_header ctx file header))).
Proof.
  split; [apply android_reader_bid_read_only|].
  split; [apply bump_reader_bid_read_only|].
  apply android_reader_read_header_read_only.
Qed.

End read_only_properties.

(** ** What a bid returns and what it leaves in the context *)

Section bid_outcome_properties.
Import android.
Context `{FormatDefs}.

Lemma set_hdr_same ctx : set_hdr ctx (hdr ctx) (header_offset ctx) = ctx.
Proof. destruct ctx; reflexivity. Qed.

(** The codes the scan can return, and what each leaves in the outputs. *)
Lemma find_android_header_cases file m h0 off0 :
  exists ret h off file1,
    find_android_header file m h0 off0 = (ret, h, off, file1)
    /\ (ret = RET_OK \/ (h = h0 /\ off = off0
                         /\ (ret = RET_WARN \/ ret = RET_FAILED
                             \/ ret = RET_FATAL)))
    /\ (f_faults file = [] -> ret = RET_OK \/ ret = RET_WARN)
    /\ (f_faults file = [] -> f_faults file1 = []).
Proof.
  unfold find_android_header.
  destruct (MAX_HEADER_OFFSET <? m).
  { eexists _, _, _, _. split; [reflexivity|]. auto 8. }
  unfold File_seek, file_read_fully. cbn [Z.add Z.ltb Z.compare].
  destruct (file_fault file) as [fatal|] eqn:F1.
  { eexists _, _, _, _. split; [reflexivity|].
    split; [right; destruct fatal; cbn; auto 8|].
    split; intros Hf; unfold file_fault in F1; rewrite Hf in F1;
      discriminate F1. }
  set (file1 := file_set_pos (file_enter (OpSeek 0 SEEK_SET) file) 0).
  destruct (file_fault file1) as [fatal|] eqn:F2.
  { eexists _, _, _, _. split; [reflexivity|].
    split; [right; destruct fatal; cbn; auto 8|].
    split; intros Hf; unfold file_fault, file1 in F2; cbn in F2;
      rewrite Hf in F2; discriminate F2. }
  set (buf := sub_bytes _ _ _).
  assert (forall f, f_faults file = [] ->
                    f_faults (file_set_pos (file_enter (OpRead
                      (m + sizeof_AndroidHeader)) file1) f) = []) as Hk.
  { intros f Hf. cbn. rewrite Hf. reflexivity. }
  destruct (mb_memmem buf BOOT_MAGIC) as [ptr|].
  - destruct (_ <? sizeof_AndroidHeader);
      eexists _, _, _, _; (split; [reflexivity|]); auto 8.
  - eexists _, _, _, _. split; [reflexivity|]. auto 8.
Qed.

Lemma magic_pos_nonneg h : 0 <= magic_pos h.
Proof.
  unfold magic_pos. cbv zeta. unfold to_u64 at 1.
  apply Z.mod_pos_bound. lia.
Qed.

Lemma find_samsung_seandroid_magic_cases file h off0 :
  exists ret off file1,
    find_samsung_seandroid_magic file h off0 = (ret, off, file1)
    /\ (ret = RET_OK \/ ret = RET_WARN \/ ret = RET_FAILED
        \/ ret = RET_FATAL)
    /\ (f_faults file = [] -> ret = RET_OK \/ ret = RET_WARN).
Proof.
  unfold find_samsung_seandroid_magic. cbv zeta.
  pose proof (magic_pos_nonneg h) as Hp.
  unfold File_seek, file_read_fully. rewrite Z.add_0_l.
  destruct (file_fault file) as [fatal|] eqn:F1.
  { eexists _, _, _. split; [reflexivity|].
    split; [destruct fatal; cbn; auto|].
    intros Hf; unfold file_fault in F1; rewrite Hf in F1; discriminate F1. }
  destruct (Z.ltb_spec (magic_pos h) 0); [lia|].
  set (file1 := file_set_pos _ _).
  destruct (file_fault file1) as [fatal|] eqn:F2.
  { eexists _, _, _. split; [reflexivity|].
    split; [destruct fatal; cbn; auto|].
    intros Hf; unfold file_fault, file1 in F2; cbn in F2;
      rewrite Hf in F2; discriminate F2. }
  destruct (_ || _); eexists _, _, _; (split; [reflexivity|]); auto.
Qed.

Lemma find_bump_magic_cases file h off0 :
  exists ret off file1,
    find_bump_magic file h off0 = (ret, off, file1)
    /\ (ret = RET_OK \/ ret = RET_WARN \/ ret = RET_FAILED
        \/ ret = RET_FATAL)
    /\ (f_faults file = [] -> ret = RET_OK \/ ret = RET_WARN).
Proof.
  unfold find_bump_magic. cbv zeta.
  pose proof (magic_pos_nonneg h) as Hp.
  unfold File_seek, file_read_fully. rewrite Z.add_0_l.
  destruct (file_fault file) as [fatal|] eqn:F1.
  { eexists _, _, _. split; [reflexivity|].
    split; [destruct fatal; cbn; auto|].
    intros Hf; unfold file_fault in F1; rewrite Hf in F1; discriminate F1. }
  destruct (Z.ltb_spec (magic_pos h) 0); [lia|].
  set (file1 := file_set_pos _ _).
  destruct (file_fault file1) as [fatal|] eqn:F2.
  { eexists _, _, _. split; [reflexivity|].
    split; [destruct fatal; cbn; auto|].
    intros Hf; unfold file_fault, file1 in F2; cbn in F2;
      rewrite Hf in F2; discriminate F2. }
  destruct (_ || _); eexists _, _, _; (split; [reflexivity|]); auto.
Qed.

(** Choose the disjunct that [tac] proves. *)
Ltac pick tac := first [ solve [tac] | solve [left; tac] | right; pick tac ].

(** X3: the result of [android_reader_bid] is [RET_WARN] exactly when the
    bid cannot be won; otherwise it is one of the three scores 0,
    [BOOT_MAGIC_SIZE * 8] and
    [(BOOT_MAGIC_SIZE + SAMSUNG_SEANDROID_MAGIC_SIZE) * 8], or the code of a
    failed file operation, [RET_FAILED] or [RET_FATAL]; on a file on which
    no operation fails it is always a score. *)
Theorem android_bid_outcomes (ctx : AndroidReaderCtx) (file : File)
  (best_bid : Z) :
  let r := fst (fst (android_reader_bid ctx file best_bid)) in
  let top := (BOOT_MAGIC_SIZE + SAMSUNG_SEANDROID_MAGIC_SIZE) * 8 in
  (r = BidRet RET_WARN <-> top <= best_bid)
  /\ (r = BidRet RET_WARN \/ r = BidRet RET_FAILED \/ r = BidRet RET_FATAL
      \/ r = BidBits 0 \/ r = BidBits (BOOT_MAGIC_SIZE * 8)
      \/ r = BidBits top)
  /\ (f_faults file = [] -> best_bid < top ->
      r = BidBits 0 \/ r = BidBits (BOOT_MAGIC_SIZE * 8) \/ r = BidBits top).
Proof.
  intros r top. subst r. unfold android_reader_bid. fold top.
  destruct (Z.leb_spec top best_bid) as [L|L].
  { cbn [fst]. split; [tauto|]. split; [auto|]. intros; lia. }
  destruct (find_android_header_cases file MAX_HEADER_OFFSET (hdr ctx)
              (header_offset ctx))
    as (ret & h & off & file1 & E & C & NF & NF').
  rewrite E.
  destruct C as [-> | (-> & -> & [-> | [-> | ->]])].
  - cbv zeta.
    match goal with
    | |- context [find_samsung_seandroid_magic file1 ?hh ?oo] =>
        destruct (find_samsung_seandroid_magic_cases file1 hh oo)
          as (ret2 & soff & file2 & E2 & C2 & NF2)
    end.
    rewrite E2.
    assert (f_faults file = [] -> ret2 = RET_OK \/ ret2 = RET_WARN) as NF3
      by (intros Hf; auto).
    destruct C2 as [-> | [-> | [-> | ->]]]; cbn [fst];
      (split; [split; [discriminate|lia]|]);
      (split; [pick ltac:(first [reflexivity | f_equal; subst top; lia])|]);
      intros Hf _;
      first [ pick ltac:(first [reflexivity | f_equal; subst top; lia])
            | destruct (NF3 Hf); discriminate ].
  - cbn [fst]. split; [split; [discriminate|lia]|]. auto 8.
  - cbn [fst]. split; [split; [discriminate|lia]|]. split; [auto 8|].
    intros Hf _. destruct (NF Hf); discriminate.
  - cbn [fst]. split; [split; [discriminate|lia]|]. split; [auto 8|].
    intros Hf _. destruct (NF Hf); discriminate.
Qed.

(** X4: the same for [bump_reader_bid], with the Bump magic. *)
Theorem bump_bid_outcomes (ctx : AndroidReaderCtx) (file : File)
  (best_bid : Z) :
  let r := fst (fst (bump_reader_bid ctx file best_bid)) in
  let top := (BOOT_MAGIC_SIZE + BUMP_MAGIC_SIZE) * 8 in
  (r = BidRet RET_WARN <-> top <= best_bid)
  /\ (r = BidRet RET_WARN \/ r = BidRet RET_FAILED \/ r = BidRet RET_FATAL
      \/ r = BidBits 0 \/ r = BidBits (BOOT_MAGIC_SIZE * 8)
      \/ r = BidBits top)
  /\ (f_faults file = [] -> best_bid < top ->
      r = BidBits 0 \/ r = BidBits (BOOT_MAGIC_SIZE * 8) \/ r = BidBits top).
Proof.
  intros r top. subst r. unfold bump_reader_bid. fold top.
  destruct (Z.leb_spec top best_bid) as [L|L].
  { cbn [fst]. split; [tauto|]. split; [auto|]. intros; lia. }
  destruct (find_android_header_cases file MAX_HEADER_OFFSET (hdr ctx)
              (header_offset ctx))
    as (ret & h & off & file1 & E & C & NF & NF').
  rewrite E.
  destruct C as [-> | (-> & -> & [-> | [-> | ->]])].
  - cbv zeta.
    match goal with
    | |- context [find_bump_magic file1 ?hh ?oo] =>
        destruct (find_bump_magic_cases file1 hh oo)
          as (ret2 & soff & file2 & E2 & C2 & NF2)
    end.
    rewrite E2.
    assert (f_faults file = [] -> ret2 = RET_OK \/ ret2 = RET_WARN) as NF3
      by (intros Hf; auto).
    destruct C2 as [-> | [-> | [-> | ->]]]; cbn [fst];
      (split; [split; [discriminate|lia]|]);
      (split; [pick ltac:(first [reflexivity | f_equal; subst top; lia])|]);
      intros Hf _;
      first [ pick ltac:(first [reflexivity | f_equal; subst top; lia])
            | destruct (NF3 Hf); discriminate ].
  - cbn [fst]. split; [split; [discriminate|lia]|]. auto 8.
  - cbn [fst]. split; [split; [discriminate|lia]|]. split; [auto 8|].
    intros Hf _. destruct (NF Hf); discriminate.
  - cbn [fst]. split; [split; [discriminate|lia]|]. split; [auto 8|].
    intros Hf _. destruct (NF Hf); discriminate.
Qed.

Lemma cache_in_range_set_hdr_same ctx :
  cache_in_range ctx ->
  cache_in_range (set_hdr ctx (hdr ctx) (header_offset ctx)).
Proof. rewrite set_hdr_same. auto. Qed.

Lemma cache_in_range_found ctx h off :
  header_in_range h -> 0 <= off <= MAX_HEADER_OFFSET ->
  cache_in_range (set_have_header_offset (set_hdr ctx h off) true).
Proof. intros Hh Hoff _. cbn. auto. Qed.

(** What [android_reader_bid] leaves in the context. *)
Lemma android_reader_bid_context ctx file best_bid r ctx' file' :
  android_reader_bid ctx file best_bid = (r, ctx', file') ->
  (cache_in_range ctx -> cache_in_range ctx')
  /\ (forall n, r = BidBits n -> 0 < n ->
      have_header_offset ctx' = true /\ header_in_range (hdr ctx')
      /\ 0 <= header_offset ctx' <= MAX_HEADER_OFFSET)
  /\ allow_truncated_dt ctx' = allow_truncated_dt ctx
  /\ seg ctx' = seg ctx.
Proof.
  unfold android_reader_bid.
  destruct (_ <=? best_bid).
  { intros [= <- <- <-]. split; [auto|]. split; [discriminate|]. auto. }
  destruct (find_android_header_cases file MAX_HEADER_OFFSET (hdr ctx)
              (header_offset ctx))
    as (ret & h & off & file1 & E & C & _).
  rewrite E.
  destruct C as [-> | (-> & -> & [-> | [-> | ->]])].
  - destruct (find_android_header_OK _ _ _ _ _ _ E) as (Hh & Hoff).
    cbv zeta.
    match goal with
    | |- context [find_samsung_seandroid_magic file1 ?hh ?oo] =>
        destruct (find_samsung_seandroid_magic file1 hh oo)
          as [[ret2 soff] file2]
    end.
    destruct ret2; intros [= <- <- <-]; cbn;
      (split; [intros _ _; cbn; auto|]);
      (split; [intros n [= <-] Hn; auto|auto]).
  - rewrite set_hdr_same. intros [= <- <- <-].
    split; [auto|]. split; [intros n [= <-] Hn; lia|auto].
  - rewrite set_hdr_same. intros [= <- <- <-].
    split; [auto|]. split; [intros n [=]|auto].
  - rewrite set_hdr_same. intros [= <- <- <-].
    split; [auto|]. split; [intros n [=]|auto].
Qed.

Lemma bump_reader_bid_context ctx file best_bid r ctx' file' :
  bump_reader_bid ctx file best_bid = (r, ctx', file') ->
  (cache_in_range ctx -> cache_in_range ctx')
  /\ (forall n, r = BidBits n -> 0 < n ->
      have_header_offset ctx' = true /\ header_in_range (hdr ctx')
      /\ 0 <= header_offset ctx' <= MAX_HEADER_OFFSET)
  /\ allow_truncated_dt ctx' = allow_truncated_dt ctx
  /\ seg ctx' = seg ctx.
Proof.
  unfold bump_reader_bid.
  destruct (_ <=? best_bid).
  { intros [= <- <- <-]. split; [auto|]. split; [discriminate|]. auto. }
  destruct (find_android_header_cases file MAX_HEADER_OFFSET (hdr ctx)
              (header_offset ctx))
    as (ret & h & off & file1 & E & C & _).
  rewrite E.
  destruct C as [-> | (-> & -> & [-> | [-> | ->]])].
  - destruct (find_android_header_OK _ _ _ _ _ _ E) as (Hh & Hoff).
    cbv zeta.
    match goal with
    | |- context [find_bump_magic file1 ?hh ?oo] =>
        destruct (find_bump_magic file1 hh oo) as [[ret2 soff] file2]
    end.
    destruct ret2; intros [= <- <- <-]; cbn;
      (split; [intros _ _; cbn; auto|]);
      (split; [intros n [= <-] Hn; auto|auto]).
  - rewrite set_hdr_same. intros [= <- <- <-].
    split; [auto|]. split; [intros n [= <-] Hn; lia|auto].
  - rewrite set_hdr_same. intros [= <- <- <-].
    split; [auto|]. split; [intros n [=]|auto].
  - rewrite set_hdr_same. intros [= <- <- <-].
    split; [auto|]. split; [intros n [=]|auto].
Qed.

Lemma android_reader_read_header_context ctx file header ret ctx' file'
  header' :
  android_reader_read_header ctx file header = (ret, ctx', file', header') ->
  cache_in_range ctx -> cache_in_range ctx'.
Proof.
  unfold android_reader_read_header.
  destruct (have_header_offset ctx) eqn:Hhave; cbn [negb].
  - destruct (read_header_tail_frame ctx file header) as (s & h' & ->).
    intros [= <- <- <- <-] Hc. exact Hc.
  - destruct (find_android_header_cases file MAX_HEADER_OFFSET (hdr ctx)
                (header_offset ctx))
      as (r & h & off & file1 & E & C & _).
    rewrite E.
    destruct C as [-> | (-> & -> & [-> | [-> | ->]])]; cbn [ret_negative].
    + destruct (find_android_header_OK _ _ _ _ _ _ E) as (Hh & Hoff).
      destruct (read_header_tail_frame
                  (set_have_header_offset (set_hdr ctx h off) true) file1
                  header) as (s & h' & ->).
      intros [= <- <- <- <-] _ _. cbn. auto.
    + rewrite set_hdr_same. intros [= <- <- <- <-] Hc. exact Hc.
    + rewrite set_hdr_same. intros [= <- <- <- <-] Hc. exact Hc.
    + rewrite set_hdr_same. intros [= <- <- <- <-] Hc. exact Hc.
Qed.


(** X6: a bid and the read that follows.  When a bid (Android or Bump)
    returns a positive score, [android_reader_read_header] called next
    with the context the bid left succeeds on any file without touching
    it (no operation is logged), keeps the header and offset the bid
    cached, and, for a positive page size, builds the layout of the
    sections that header announces. *)
Theorem bid_then_read_header (ctx : AndroidReaderCtx) (file : File)
  (best_bid n : Z) (ctx1 : AndroidReaderCtx) (file1 : File) :
  android_reader_bid ctx file best_bid = (BidBits n, ctx1, file1)
  \/ bump_reader_bid ctx file best_bid = (BidBits n, ctx1, file1) ->
  0 < n ->
  forall (file2 : File) (header : Header.t),
  exists ctx2 header2,
    android_reader_read_header ctx1 file2 header
    = (RET_OK, ctx2, file2, header2)
    /\ hdr ctx2 = hdr ctx1 /\ header_offset ctx2 = header_offset ctx1
    /\ (0 < page_size (hdr ctx1) ->
        SegmentReader.entries (seg ctx2)
        = place (page_size (hdr ctx1))
            (header_offset ctx1 + sizeof_AndroidHeader)
            (announced (hdr ctx1) (allow_truncated_dt ctx1))).
Proof.
  intros Hbid Hn file2 header.
  assert (have_header_offset ctx1 = true /\ header_in_range (hdr ctx1)
          /\ 0 <= header_offset ctx1 <= MAX_HEADER_OFFSET)
    as (Hhave & Hh & Hoff).
  { destruct Hbid as [E|E].
    - exact (proj1 (proj2 (android_reader_bid_context _ _ _ _ _ _ E))
               n eq_refl Hn).
    - exact (proj1 (proj2 (bump_reader_bid_context _ _ _ _ _ _ E))
               n eq_refl Hn). }
  unfold android_reader_read_header. rewrite Hhave. cbn [negb].
  destruct (read_header_tail_frame ctx1 file2 header) as (s & h' & E).
  rewrite E. eexists _, _. split; [reflexivity|].
  split; [reflexivity|]. split; [reflexivity|].
  intros Hpage.
  destruct (read_header_tail_layout ctx1 file2 header Hh Hoff Hpage)
    as (h'' & E').
  assert (set_seg ctx1 s
          = set_seg ctx1
              (SegmentReader.mk
                 (place (page_size (hdr ctx1))
                    (header_offset ctx1 + sizeof_AndroidHeader)
                    (announced (hdr ctx1) (allow_truncated_dt ctx1)))
                 None)) as -> by congruence.
  reflexivity.
Qed.

End bid_outcome_properties.

Lemma android_bid_outcomes_witness :
  let r := fst (fst (android.android_reader_bid android.new_AndroidReaderCtx
                       (file_of example_image) 0)) in
  r = BidBits 0 \/ r = BidBits (android.BOOT_MAGIC_SIZE * 8)
  \/ r = BidBits ((android.BOOT_MAGIC_SIZE
                   + android.SAMSUNG_SEANDROID_MAGIC_SIZE) * 8).
Proof.
  refine (proj2 (proj2 (android_bid_outcomes android.new_AndroidReaderCtx
                          (file_of example_image) 0)) eq_refl _).
  vm_compute. reflexivity.
Defined.

Lemma bump_bid_outcomes_witness :
  let r := fst (fst (android.bump_reader_bid android.new_AndroidReaderCtx
                       (file_of example_image) 0)) in
  r = BidBits 0 \/ r = BidBits (android.BOOT_MAGIC_SIZE * 8)
  \/ r = BidBits ((android.BOOT_MAGIC_SIZE + android.BUMP_MAGIC_SIZE) * 8).
Proof.
  refine (proj2 (proj2 (bump_bid_outcomes android.new_AndroidReaderCtx
                          (file_of example_image) 0)) eq_refl _).
  vm_compute. reflexivity.
Defined.


Lemma bid_then_read_header_witness :
  exists ctx1 ctx2 header2,
    android.android_reader_read_header ctx1 (file_of []) Header.empty
    = (RET_OK, ctx2, file_of [], header2)
    /\ android.hdr ctx2 = example_android_header
    /\ SegmentReader.entries (android.seg ctx2)
       = [SegmentReader.mkEntry ENTRY_TYPE_KERNEL 2048 100 false;
          SegmentReader.mkEntry ENTRY_TYPE_RAMDISK 4096 50 false].
Proof.
  set (res := android.android_reader_bid
                android.mb_bi_reader_enable_format_android
                (file_of example_image_samsung) 0).
  assert (res = (BidBits 192, snd (fst res), snd res)) as E
    by (vm_compute; reflexivity).
  assert (0 < 192) as P by reflexivity.
  destruct (bid_then_read_header _ _ _ _ _ _ (or_introl E) P (file_of [])
              Header.empty) as (ctx2 & header2 & R & Hh & _ & T).
  exists (snd (fst res)), ctx2, header2.
  split; [exact R|]. split; [rewrite Hh; vm_compute; reflexivity|].
  rewrite T by (vm_compute; reflexivity). vm_compute. reflexivity.
Defined.

(** ** The header scan: edge cases *)

Section scan_edge_properties.
Import android.
Context `{FormatDefs}.

(** X7: a header that is cut off is no header.  On a file on which no
    operation fails, when the magic first stands at offset [i] of the bytes
    scanned but fewer than [sizeof(AndroidHeader)] bytes follow from [i],
    [find_android_header] returns [RET_WARN] with its outputs untouched,
    and both bids (when they can be won) return 0: it makes no difference
    that the magic is there. *)
Theorem scan_header_cut_off (ctx : AndroidReaderCtx) (file : File)
  (h0 : AndroidHeader) (off0 : Z) (i : nat) (best_bid : Z) :
  f_faults file = [] ->
  occurs_at BOOT_MAGIC (scan_window file) i ->
  (forall j, (j < i)%nat -> ~ occurs_at BOOT_MAGIC (scan_window file) j) ->
  Z.of_nat (length (scan_window file)) < Z.of_nat i + sizeof_AndroidHeader ->
  find_android_header file MAX_HEADER_OFFSET h0 off0
  = (RET_WARN, h0, off0, scanned file)
  /\ (best_bid < (BOOT_MAGIC_SIZE + SAMSUNG_SEANDROID_MAGIC_SIZE) * 8 ->
      android_reader_bid ctx file best_bid = (BidBits 0, ctx, scanned file))
  /\ (best_bid < (BOOT_MAGIC_SIZE + BUMP_MAGIC_SIZE) * 8 ->
      bump_reader_bid ctx file best_bid = (BidBits 0, ctx, scanned file)).
Proof.
  intros Hf Hocc Hmin Hcut.
  assert (forall h o, find_android_header file MAX_HEADER_OFFSET h o
                      = (RET_WARN, h, o, scanned file)) as E.
  { intros h o. rewrite find_android_header_scan by assumption.
    rewrite (mb_memmem_first _ _ _ Hocc Hmin).
    destruct (Z.ltb_spec (Z.of_nat (length (scan_window file)) - Z.of_nat i)
                sizeof_AndroidHeader); [reflexivity|lia]. }
  split; [apply E|]. split; intros Hbest.
  - unfold android_reader_bid.
    destruct (Z.leb_spec ((BOOT_MAGIC_SIZE + SAMSUNG_SEANDROID_MAGIC_SIZE) * 8)
                best_bid); [lia|].
    rewrite E, set_hdr_same. reflexivity.
  - unfold bump_reader_bid.
    destruct (Z.leb_spec ((BOOT_MAGIC_SIZE + BUMP_MAGIC_SIZE) * 8) best_bid);
      [lia|].
    rewrite E, set_hdr_same. reflexivity.
Qed.

(** X8: failures of the file.  When the seek to the start fails,
    [find_android_header] returns [RET_FATAL] or [RET_FAILED] by the fatal
    bit, having attempted that one operation only; when the seek succeeds
    and the read fails, it returns by the fatal bit of the read, after
    those two operations.  In both cases the outputs keep their values and
    the contents of the file are untouched.  A bound above
    [MAX_HEADER_OFFSET] is refused with [RET_WARN] before any operation. *)
Theorem scan_failures (file : File) (m : Z) (h0 : AndroidHeader) (off0 : Z)
  (fatal : bool) (rest : list (option bool)) :
  (MAX_HEADER_OFFSET < m ->
   find_android_header file m h0 off0 = (RET_WARN, h0, off0, file))
  /\ (m <= MAX_HEADER_OFFSET -> f_faults file = Some fatal :: rest ->
      find_android_header file m h0 off0
      = (ret_of_file_error fatal, h0, off0,
         mkFile (f_data file) (f_pos file) rest
           (f_log file ++ [OpSeek 0 SEEK_SET])))
  /\ (m <= MAX_HEADER_OFFSET -> f_faults file = None :: Some fatal :: rest ->
      find_android_header file m h0 off0
      = (ret_of_file_error fatal, h0, off0,
         mkFile (f_data file) 0 rest
           (f_log file
            ++ [OpSeek 0 SEEK_SET; OpRead (m + sizeof_AndroidHeader)]))).
Proof.
  unfold find_android_header. split; [|split].
  - intros Hm. destruct (Z.ltb_spec MAX_HEADER_OFFSET m); [reflexivity|lia].
  - intros Hm Hf. destruct (Z.ltb_spec MAX_HEADER_OFFSET m); [lia|].
    unfold File_seek, file_fault, file_enter. rewrite Hf. reflexivity.
  - intros Hm Hf. destruct (Z.ltb_spec MAX_HEADER_OFFSET m); [lia|].
    unfold File_seek, file_read_fully, file_fault, file_enter, file_set_pos.
    rewrite Hf. cbn. rewrite <- app_assoc. reflexivity.
Qed.

(** X9: what a successful scan returns, whatever the bound and the file:
    the offset is at most [max_header_offset]; the magic stands at that
    offset and nowhere before it; the whole header lies inside the file;
    the header returned is the decoding of the [sizeof(AndroidHeader)]
    bytes at the offset, so its magic is "ANDROID!" and its integral fields
    are 32-bit values. *)
Theorem scan_success (file : File) (m : Z) (h0 : AndroidHeader) (off0 : Z)
  (h : AndroidHeader) (off : Z) (file1 : File) :
  find_android_header file m h0 off0 = (RET_OK, h, off, file1) ->
  0 <= off <= m /\ m <= MAX_HEADER_OFFSET
  /\ off + sizeof_AndroidHeader <= file_length file
  /\ sub_bytes (f_data file) off BOOT_MAGIC_SIZE = BOOT_MAGIC
  /\ (forall j, 0 <= j < off ->
      sub_bytes (f_data file) j BOOT_MAGIC_SIZE <> BOOT_MAGIC)
  /\ h = android_header_of_bytes
           (sub_bytes (f_data file) off sizeof_AndroidHeader)
  /\ magic h = BOOT_MAGIC /\ header_in_range h.
Proof.
  unfold find_android_header.
  destruct (Z.ltb_spec MAX_HEADER_OFFSET m) as [|Hm]; [intros [=]|].
  unfold File_seek, file_read_fully. cbn [Z.add Z.ltb Z.compare].
  destruct (file_fault file) as [fatal|]; [destruct fatal; intros [=]|].
  set (file0 := file_set_pos (file_enter (OpSeek 0 SEEK_SET) file) 0).
  destruct (file_fault file0) as [fatal|]; [destruct fatal; intros [=]|].
  change (f_data file0) with (f_data file). change (f_pos file0) with 0.
  set (N := m + sizeof_AndroidHeader).
  destruct (mb_memmem (sub_bytes (f_data file) 0 N) BOOT_MAGIC) as [ptr|]
    eqn:M; [|intros [=]].
  destruct (Z.ltb_spec (Z.of_nat (length (sub_bytes (f_data file) 0 N))
                        - Z.of_nat ptr) sizeof_AndroidHeader) as [|Hfit];
    intros [= <- <- <-].
  destruct (mb_memmem_Some _ _ _ M) as (Hocc & Hmin & _).
  unfold occurs_at in Hocc, Hmin.
  change (length BOOT_MAGIC) with 8%nat in Hocc, Hmin.
  pose proof (sub_bytes_length_le (f_data file) 0 N) as Hlen.
  assert (Z.of_nat (length (sub_bytes (f_data file) 0 N))
          <= file_length file) as Hlen2.
  { unfold sub_bytes, file_length. rewrite length_firstn, length_skipn. lia. }
  unfold sizeof_AndroidHeader, BOOT_MAGIC_SIZE in *.
  assert (0 <= N) as HN by (destruct (Z.le_gt_cases 0 N); [assumption|];
    exfalso; unfold sub_bytes in Hfit;
    rewrite length_firstn in Hfit; lia).
  specialize (Hlen HN).
  assert (forall p len, 0 <= p -> 0 <= len -> p + len <= N ->
            sub_bytes (sub_bytes (f_data file) 0 N) p len
            = sub_bytes (f_data file) p len) as Hsub.
  { intros p len Hp Hl Hpl. unfold sub_bytes. cbn [Z.to_nat skipn].
    rewrite skipn_firstn_comm, firstn_firstn. f_equal. lia. }
  split; [lia|]. split; [lia|]. split; [lia|].
  split.
  { rewrite <- (Hsub (Z.of_nat ptr) 8) by lia.
    unfold sub_bytes at 1. rewrite Nat2Z.id. exact Hocc. }
  split.
  { intros j Hj E. apply (Hmin (Z.to_nat j)); [lia|].
    rewrite <- (Hsub j 8) in E by lia. exact E. }
  rewrite (Hsub (Z.of_nat ptr) 608) by lia.
  split; [reflexivity|].
  split; [|apply android_header_of_bytes_in_range].
  cbn [magic android_header_of_bytes].
  rewrite <- (Hsub (Z.of_nat ptr) 608) by lia.
  unfold sub_bytes. cbn [Z.to_nat skipn].
  rewrite Nat2Z.id, firstn_firstn. exact Hocc.
Qed.

End scan_edge_properties.

Lemma scan_header_cut_off_witness :
  android.find_android_header (file_of example_image_cut) MAX_HEADER_OFFSET
    android.zero_header 0
  = (RET_WARN, android.zero_header, 0, scanned (file_of example_image_cut))
  /\ android.android_reader_bid android.new_AndroidReaderCtx
       (file_of example_image_cut) 0
     = (BidBits 0, android.new_AndroidReaderCtx,
        scanned (file_of example_image_cut)).
Proof.
  destruct (scan_header_cut_off android.new_AndroidReaderCtx
              (file_of example_image_cut) android.zero_header 0 16%nat 0)
    as (S & B & _).
  - reflexivity.
  - vm_compute. reflexivity.
  - intros j Hj.
    do 16 (destruct j as [|j]; [vm_compute; discriminate|]).
    exfalso. lia.
  - vm_compute. reflexivity.
  - split; [exact S|]. apply B. vm_compute. reflexivity.
Defined.

Lemma scan_failures_witness :
  android.find_android_header (mkFile example_image 7 [Some true] [])
    MAX_HEADER_OFFSET android.zero_header 0
  = (RET_FATAL, android.zero_header, 0,
     mkFile example_image 7 [] [OpSeek 0 SEEK_SET])
  /\ android.find_android_header
       (mkFile example_image 7 [None; Some false] [])
       MAX_HEADER_OFFSET android.zero_header 0
     = (RET_FAILED, android.zero_header, 0,
        mkFile example_image 0 []
          [OpSeek 0 SEEK_SET;
           OpRead (MAX_HEADER_OFFSET + android.sizeof_AndroidHeader)]).
Proof.
  split.
  - refine (proj1 (proj2 (scan_failures
                            (mkFile example_image 7 [Some true] [])
                            MAX_HEADER_OFFSET android.zero_header 0 true []))
              _ eq_refl).
    vm_compute. discriminate.
  - refine (proj2 (proj2 (scan_failures
                            (mkFile example_image 7 [None; Some false] [])
                            MAX_HEADER_OFFSET android.zero_header 0 false []))
              _ eq_refl).
    vm_compute. discriminate.
Defined.

Lemma scan_success_witness :
  android.magic example_android_header = android.BOOT_MAGIC
  /\ sub_bytes example_image 0 android.BOOT_MAGIC_SIZE = android.BOOT_MAGIC.
Proof.
  assert (android.find_android_header (file_of example_image)
            MAX_HEADER_OFFSET android.zero_header 7
          = (RET_OK, example_android_header, 0,
             scanned (file_of example_image))) as E
    by (vm_compute; reflexivity).
  destruct (scan_success _ _ _ _ _ _ _ E) as (_ & _ & _ & M & _ & _ & Hm & _).
  split; [exact Hm|exact M].
Defined.

(** ** Reading the header: failure, repetition, layout *)

Lemma place_laid_out page : 0 < page -> forall items pos,
  Forall (fun it => 0 <= snd (fst it)) items ->
  laid_out page pos (place page pos items).
Proof.
  intros Hpage. induction items as [|[[ty sz] tr] rest IH]; intros pos Hall.
  - exact I.
  - inversion Hall as [|? ? Hsz Hrest]; subst. cbn [snd fst] in Hsz.
    cbn [place laid_out SegmentReader.offset SegmentReader.size].
    pose proof (align_up_bounds pos page Hpage).
    split; [lia|]. split; [apply align_up_multiple; exact Hpage|].
    split; [exact Hsz|]. apply IH. exact Hrest.
Qed.

Lemma c_bytes_prefix bs :
  exists rest, bs = c_bytes bs ++ rest /\ ~ In Byte.x00 (c_bytes bs)
               /\ (rest = [] \/ hd Byte.x00 rest = Byte.x00).
Proof.
  induction bs as [|b r (rest & E & Hno & Hrest)].
  - exists []. cbn. auto.
  - cbn [c_bytes]. destruct (Byte.eqb b Byte.x00) eqn:B.
    + exists (b :: r). split; [reflexivity|]. split; [intros []|].
      right. cbn. apply Byte.byte_dec_bl. exact B.
    + exists rest. split; [cbn; congruence|]. split; [|exact Hrest].
      intros [->|Hin]; [|exact (Hno Hin)].
      vm_compute in B. discriminate B.
Qed.

Section read_header_further.
Import android.
Context `{FormatDefs}.

(** Whatever the logical header held, [android_set_header] leaves the
    header of [h]. *)
Lemma android_set_header_value (h : AndroidHeader) (header : Header.t) :
  android_set_header h header = (RET_OK, logical_header h).
Proof.
  unfold android_set_header, logical_header.
  set (board_name := c_bytes _). set (cmdline := c_bytes _).
  clearbody board_name cmdline.
  vm_compute. reflexivity.
Qed.

(** The part after the scan is a function of the cached header, its offset
    and the option: run again on its own result it changes nothing. *)
Lemma read_header_tail_again ctx file header ctx' file' header' :
  read_header_tail ctx file header = (RET_OK, ctx', file', header') ->
  header' = logical_header (hdr ctx')
  /\ have_header_offset ctx' = have_header_offset ctx
  /\ forall file2 header2,
       read_header_tail ctx' file2 header2 = (RET_OK, ctx', file2, header').
Proof.
  unfold read_header_tail. rewrite android_set_header_value.
  cbv zeta. rewrite add_entries_OK. intros [= <- <- <-].
  split; [reflexivity|]. split; [reflexivity|].
  intros file2 header2. rewrite android_set_header_value.
  rewrite add_entries_OK. reflexivity.
Qed.

Lemma read_header_OK_cached ctx file header ctx' file' header' :
  android_reader_read_header ctx file header = (RET_OK, ctx', file', header') ->
  have_header_offset ctx' = true
  /\ header' = logical_header (hdr ctx')
  /\ forall file2 header2,
       read_header_tail ctx' file2 header2 = (RET_OK, ctx', file2, header').
Proof.
  unfold android_reader_read_header.
  destruct (have_header_offset ctx) eqn:Hhave; cbn [negb].
  - intros E. destruct (read_header_tail_again _ _ _ _ _ _ E) as (? & ? & ?).
    split; [congruence|]. auto.
  - destruct (find_android_header file MAX_HEADER_OFFSET (hdr ctx)
                (header_offset ctx)) as [[[ret h] off] file1].
    destruct ret; cbn [ret_negative]; intros E; [|discriminate E..].
    destruct (read_header_tail_again _ _ _ _ _ _ E) as (? & Hh & ?).
    split; [rewrite Hh; reflexivity|]. auto.
Qed.

(** X10: a call of [android_reader_read_header] that does not return
    [RET_OK] has changed nothing: the context and the logical header come
    back as they were.  This happens only when no header was cached and the
    scan failed; the code is then the scan's, [RET_WARN] (no header in the
    file) unless a file operation failed. *)
Theorem read_header_failure (ctx : AndroidReaderCtx) (file : File)
  (header : Header.t) (ret : Ret) (ctx' : AndroidReaderCtx) (file' : File)
  (header' : Header.t) :
  android_reader_read_header ctx file header = (ret, ctx', file', header') ->
  ret <> RET_OK ->
  ctx' = ctx /\ header' = header
  /\ have_header_offset ctx = false
  /\ find_android_header file MAX_HEADER_OFFSET (hdr ctx) (header_offset ctx)
     = (ret, hdr ctx, header_offset ctx, file')
  /\ (ret = RET_WARN \/ ret = RET_FAILED \/ ret = RET_FATAL)
  /\ (f_faults file = [] -> ret = RET_WARN).
Proof.
  unfold android_reader_read_header.
  destruct (have_header_offset ctx) eqn:Hhave; cbn [negb].
  - destruct (read_header_tail_frame ctx file header) as (s & h' & ->).
    intros [= <- <- <- <-] Hret. congruence.
  - destruct (find_android_header_cases file MAX_HEADER_OFFSET (hdr ctx)
                (header_offset ctx))
      as (r & h & off & file1 & E & C & NF & _).
    rewrite E.
    destruct C as [-> | (-> & -> & C)].
    + cbn [ret_negative].
      destruct (read_header_tail_frame
                  (set_have_header_offset (set_hdr ctx h off) true) file1
                  header) as (s & h' & ->).
      intros [= <- <- <- <-] Hret. congruence.
    + assert (ret_negative r = true) as ->
        by (destruct C as [-> | [-> | ->]]; reflexivity).
      rewrite set_hdr_same. intros [= <- <- <- <-] Hret.
      split; [reflexivity|]. split; [reflexivity|]. split; [reflexivity|].
      split; [reflexivity|]. split; [exact C|].
      intros Hf. destruct (NF Hf); [contradiction|assumption].
Qed.

(** X11: reading the header again changes nothing.  After a successful
    [android_reader_read_header], a further call, on any file and with any
    logical header, returns [RET_OK] with the same context (the same cached
    header, offset and table) and the same logical header, and performs no
    file operation. *)
Theorem read_header_again (ctx : AndroidReaderCtx) (file : File)
  (header : Header.t) (ctx' : AndroidReaderCtx) (file' : File)
  (header' : Header.t) :
  android_reader_read_header ctx file header = (RET_OK, ctx', file', header') ->
  forall (file2 : File) (header2 : Header.t),
    android_reader_read_header ctx' file2 header2
    = (RET_OK, ctx', file2, header').
Proof.
  intros E file2 header2.
  destruct (read_header_OK_cached _ _ _ _ _ _ E) as (Hhave & _ & Hagain).
  unfold android_reader_read_header. rewrite Hhave. cbn [negb].
  apply Hagain.
Qed.

(** X12: the table of a successful [android_reader_read_header], for a
    positive page size, lists segments that do not overlap and start on
    page boundaries: the first one starts at or after the end of the
    header, every other one at or after the end of the segment before it,
    each at a multiple of the page size and less than a page after that
    end; no type is listed twice; and the whole layout lies below 2^64, so
    that no offset has wrapped. *)
Theorem read_header_table_laid_out (ctx : AndroidReaderCtx) (file : File)
  (header : Header.t) (ctx' : AndroidReaderCtx) (file' : File)
  (header' : Header.t) :
  cache_in_range ctx ->
  android_reader_read_header ctx file header = (RET_OK, ctx', file', header') ->
  0 < page_size (hdr ctx') ->
  let table := SegmentReader.entries (seg ctx') in
  laid_out (page_size (hdr ctx')) (header_offset ctx' + sizeof_AndroidHeader)
    table
  /\ NoDup (map SegmentReader.type table)
  /\ Forall (fun e => SegmentReader.offset e + SegmentReader.size e
                      <= UINT64_MAX) table.
Proof.
  intros Hcache Hread Hpage table.
  pose proof (read_header_layout _ _ _ _ _ _ Hcache Hread Hpage) as E.
  fold table in E.
  destruct (read_header_OK_cached _ _ _ _ _ _ Hread) as (Hhave & _).
  destruct (android_reader_read_header_context _ _ _ _ _ _ _ Hread Hcache
              Hhave) as ((Hk & Hr & Hs & Hd & Hp) & Hoff).
  pose proof MAX_HEADER_OFFSET_range as HM.
  unfold is_u32, UINT32_MAX in *.
  set (P := page_size (hdr ctx')) in *.
  set (start := header_offset ctx' + sizeof_AndroidHeader) in *.
  assert (0 <= start <= 2 ^ 33) as Hstart
    by (unfold start, sizeof_AndroidHeader; lia).
  rewrite E. split; [|split].
  - apply place_laid_out; [exact Hpage|].
    unfold announced.
    destruct (0 <? second_size (hdr ctx')), (0 <? dt_size (hdr ctx'));
      repeat constructor; cbn [fst snd]; lia.
  - unfold announced.
    destruct (0 <? second_size (hdr ctx')), (0 <? dt_size (hdr ctx'));
      cbn [app place map SegmentReader.type];
      repeat (constructor; [cbn [In]; intuition discriminate|]);
      constructor.
  - pose proof (align_up_bounds start P Hpage) as B1.
    set (k_off := align_up start P) in *.
    pose proof (align_up_bounds (k_off + kernel_size (hdr ctx')) P Hpage)
      as B2.
    set (r_off := align_up (k_off + kernel_size (hdr ctx')) P) in *.
    pose proof (align_up_bounds (r_off + ramdisk_size (hdr ctx')) P Hpage)
      as B3.
    set (s_off := align_up (r_off + ramdisk_size (hdr ctx')) P) in *.
    pose proof (align_up_bounds (s_off + second_size (hdr ctx')) P Hpage)
      as B4.
    pose proof (align_up_bounds (r_off + ramdisk_size (hdr ctx')
                                 + dt_size (hdr ctx')) P Hpage) as B5.
    unfold announced, UINT64_MAX.
    destruct (0 <? second_size (hdr ctx')), (0 <? dt_size (hdr ctx'));
      cbn [app place]; fold k_off r_off s_off;
      repeat (constructor;
              [cbn [SegmentReader.offset SegmentReader.size]; lia|]);
      try constructor.
    all: cbn [SegmentReader.offset SegmentReader.size].
    all: try (pose proof (align_up_bounds (r_off + ramdisk_size (hdr ctx')) P
                            Hpage); lia).
Qed.

(** X13: what [android_set_header] makes of an on-disk header.  It always
    returns [RET_OK]; nothing of what the logical header held before
    survives; the supported fields are the seven of [SUPPORTED_FIELDS]; the
    page size and the four addresses are the header's; the board name and
    the command line are the bytes of [name] and [cmdline] before their
    first NUL, so at most 16 and 512 bytes with no NUL among them. *)
Theorem set_header_fields (h : AndroidHeader) (header : Header.t) :
  exists header1 board cmd,
    android_set_header h header = (RET_OK, header1)
    /\ android_set_header h Header.empty = (RET_OK, header1)
    /\ Header.supported_fields header1 = SUPPORTED_FIELDS
    /\ Header.page_size header1 = Some (page_size h)
    /\ Header.kernel_address header1 = Some (kernel_addr h)
    /\ Header.ramdisk_address header1 = Some (ramdisk_addr h)
    /\ Header.secondboot_address header1 = Some (second_addr h)
    /\ Header.kernel_tags_address header1 = Some (tags_addr h)
    /\ Header.board_name header1 = Some board
    /\ Header.kernel_cmdline header1 = Some cmd
    /\ (length board <= 16)%nat /\ (length cmd <= 512)%nat
    /\ ~ In Byte.x00 board /\ ~ In Byte.x00 cmd
    /\ (exists rest, field_bytes 16 (name h) = board ++ rest
                     /\ (rest = [] \/ hd Byte.x00 rest = Byte.x00))
    /\ (exists rest, field_bytes 512 (cmdline h) = cmd ++ rest
                     /\ (rest = [] \/ hd Byte.x00 rest = Byte.x00)).
Proof.
  exists (logical_header h), (c_bytes (field_bytes 16 (name h))),
    (c_bytes (field_bytes 512 (cmdline h))).
  rewrite !android_set_header_value.
  destruct (c_bytes_prefix (field_bytes 16 (name h))) as (r1 & E1 & N1 & T1).
  destruct (c_bytes_prefix (field_bytes 512 (cmdline h)))
    as (r2 & E2 & N2 & T2).
  assert (forall n bs, length (field_bytes n bs) = n) as L.
  { intros n bs. unfold field_bytes, zeros.
    rewrite length_app, length_firstn, repeat_length. lia. }
  assert (length (c_bytes (field_bytes 16 (name h))) <= 16)%nat.
  { pose proof (f_equal (@length byte) E1) as E. rewrite length_app, L in E.
    lia. }
  assert (length (c_bytes (field_bytes 512 (cmdline h))) <= 512)%nat.
  { pose proof (f_equal (@length byte) E2) as E. rewrite length_app, L in E.
    lia. }
  repeat (split; [first [reflexivity | assumption]|]).
  split; [exists r1|exists r2]; auto.
Qed.

End read_header_further.

Lemma read_header_failure_witness :
  android.find_android_header (file_of example_image_cut) MAX_HEADER_OFFSET
    (android.hdr android.new_AndroidReaderCtx)
    (android.header_offset android.new_AndroidReaderCtx)
  = (RET_WARN, android.hdr android.new_AndroidReaderCtx,
     android.header_offset android.new_AndroidReaderCtx,
     scanned (file_of example_image_cut)).
Proof.
  assert (android.android_reader_read_header android.new_AndroidReaderCtx
            (file_of example_image_cut) Header.empty
          = (RET_WARN, android.new_AndroidReaderCtx,
             scanned (file_of example_image_cut), Header.empty)) as E
    by (vm_compute; reflexivity).
  assert (RET_WARN <> RET_OK) as N by discriminate.
  exact (proj1 (proj2 (proj2 (proj2
           (read_header_failure _ _ _ _ _ _ _ E N))))).
Defined.

Lemma read_header_again_witness :
  exists ctx' header',
    android.hdr ctx' = example_android_header
    /\ android.android_reader_read_header ctx' (file_of []) Header.empty
       = (RET_OK, ctx', file_of [], header').
Proof.
  set (res := android.android_reader_read_header
                android.mb_bi_reader_enable_format_android
                (file_of example_image) Header.empty).
  assert (res = (RET_OK, snd (fst (fst res)), snd (fst res), snd res)) as E
    by (vm_compute; reflexivity).
  exists (snd (fst (fst res))), (snd res).
  split; [vm_compute; reflexivity|].
  exact (read_header_again _ _ _ _ _ _ E (file_of []) Header.empty).
Defined.

Lemma read_header_table_laid_out_witness :
  laid_out 2048 608
    [SegmentReader.mkEntry ENTRY_TYPE_KERNEL 2048 100 false;
     SegmentReader.mkEntry ENTRY_TYPE_RAMDISK 4096 50 false].
Proof.
  set (res := android.android_reader_read_header
                android.mb_bi_reader_enable_format_android
                (file_of example_image) Header.empty).
  assert (res = (RET_OK, snd (fst (fst res)), snd (fst res), snd res)) as E
    by (vm_compute; reflexivity).
  assert (cache_in_range android.mb_bi_reader_enable_format_android) as C
    by (intros [=]).
  assert (0 < android.page_size (android.hdr (snd (fst (fst res))))) as P
    by (vm_compute; reflexivity).
  pose proof (proj1 (read_header_table_laid_out _ _ _ _ _ _ C E P)) as L.
  revert L. vm_compute. intros L. exact L.
Defined.

(** ** The header, written and read back *)

Lemma field_bytes_exact n bs :
  length bs = n -> android.field_bytes n bs = bs.
Proof.
  intros <-. unfold android.field_bytes.
  rewrite firstn_all, Nat.sub_diag. apply app_nil_r.
Qed.

Lemma skipn_app_ge (a r : list byte) (k : nat) :
  (length a <= k)%nat -> skipn k (a ++ r) = skipn (k - length a) r.
Proof.
  intros L. rewrite skipn_app, (skipn_all2 a) by lia. reflexivity.
Qed.

Lemma firstn_app_exact (a r : list byte) (n : nat) :
  length a = n -> firstn n (a ++ r) = a.
Proof.
  intros <-. rewrite firstn_app, Nat.sub_diag, firstn_all. cbn [firstn].
  apply app_nil_r.
Qed.

Lemma le32_value_bytes v r : is_u32 v -> le32_value (le32_bytes v ++ r) = v.
Proof.
  intros Hv. unfold le32_value.
  rewrite firstn_app_exact by apply le32_bytes_length.
  unfold le32_bytes. rewrite le_combine_split.
  change (Z.of_nat 4 * 8) with 32.
  apply Z.mod_small. unfold is_u32, UINT32_MAX in Hv. lia.
Qed.

(** Decoding the bytes of a header gives the header back. *)
Lemma android_header_of_bytes_bytes h rest :
  header_wf h ->
  android.android_header_of_bytes (android.android_header_bytes h ++ rest) = h.
Proof.
  intros (Lm & Li & Ln & Lc & Hks & Hka & Hrs & Hra & Hss & Hsa & Hta & Hps
          & Hds & Hun).
  destruct h as [m ks ka rs ra ss sa ta ps ds un i nm cl].
  cbn [android.magic android.kernel_size android.kernel_addr
       android.ramdisk_size android.ramdisk_addr android.second_size
       android.second_addr android.tags_addr android.page_size
       android.dt_size android.unused android.id android.name
       android.cmdline] in *.
  unfold android.android_header_bytes, android.android_header_of_bytes.
  cbn [android.magic android.kernel_size android.kernel_addr
       android.ramdisk_size android.ramdisk_addr android.second_size
       android.second_addr android.tags_addr android.page_size
       android.dt_size android.unused android.id android.name
       android.cmdline].
  rewrite !field_bytes_exact by assumption.
  rewrite <- !app_assoc.
  pose proof (le32_bytes_length ks) as L1.
  pose proof (le32_bytes_length ka) as L2.
  pose proof (le32_bytes_length rs) as L3.
  pose proof (le32_bytes_length ra) as L4.
  pose proof (le32_bytes_length ss) as L5.
  pose proof (le32_bytes_length sa) as L6.
  pose proof (le32_bytes_length ta) as L7.
  pose proof (le32_bytes_length ps) as L8.
  pose proof (le32_bytes_length ds) as L9.
  pose proof (le32_bytes_length un) as L10.
  unfold sub_bytes.
  change (Z.to_nat 0) with 0%nat. change (Z.to_nat 8) with 8%nat.
  change (Z.to_nat 48) with 48%nat. change (Z.to_nat 32) with 32%nat.
  change (Z.to_nat 80) with 80%nat. change (Z.to_nat 16) with 16%nat.
  change (Z.to_nat 96) with 96%nat. change (Z.to_nat 512) with 512%nat.
  repeat match goal with
         | |- context [skipn ?k (?a ++ ?r)] =>
             rewrite (skipn_app_ge a r k)
               by (rewrite ?L1, ?L2, ?L3, ?L4, ?L5, ?L6, ?L7, ?L8, ?L9, ?L10,
                     ?Lm, ?Li, ?Ln;
                   apply Nat.leb_le; reflexivity)
         end.
  rewrite ?L1, ?L2, ?L3, ?L4, ?L5, ?L6, ?L7, ?L8, ?L9, ?L10, ?Lm, ?Li, ?Ln.
  cbn [Nat.sub]. rewrite !skipn_O.
  rewrite !le32_value_bytes by assumption.
  rewrite !firstn_app_exact by assumption.
  reflexivity.
Qed.

Section round_trip_properties.
Import android.
Context `{FormatDefs}.

(** The scan on a file that starts with the bytes of a header. *)
Lemma find_android_header_written (file : File) (h h0 : AndroidHeader)
  (off0 : Z) (rest : list byte) :
  f_faults file = [] -> header_wf h -> magic h = BOOT_MAGIC ->
  f_data file = android_header_bytes h ++ rest ->
  find_android_header file MAX_HEADER_OFFSET h0 off0
  = (RET_OK, h, 0, scanned file).
Proof.
  intros Hf Hwf Hmagic Hdata.
  pose proof MAX_HEADER_OFFSET_range as HM.
  pose proof (android_header_bytes_length h) as Lb.
  unfold sizeof_AndroidHeader in Lb.
  assert (length (android_header_bytes h) = 608%nat) as Lb' by lia.
  set (N := Z.to_nat (MAX_HEADER_OFFSET + sizeof_AndroidHeader)).
  assert (608 <= N)%nat as HN by (unfold N, sizeof_AndroidHeader; lia).
  assert (scan_window file = firstn N (android_header_bytes h ++ rest)) as W.
  { unfold scan_window, sub_bytes. rewrite Hdata. reflexivity. }
  assert (firstn 608 (scan_window file) = android_header_bytes h) as W608.
  { rewrite W, firstn_firstn, Nat.min_l by lia.
    apply firstn_app_exact. exact Lb'. }
  assert (608 <= length (scan_window file))%nat as Wlen.
  { rewrite W, length_firstn, length_app. lia. }
  assert (occurs_at BOOT_MAGIC (scan_window file) 0) as Hocc.
  { unfold occurs_at. cbn [skipn]. change (length BOOT_MAGIC) with 8%nat.
    rewrite <- (firstn_skipn 608 (scan_window file)), W608.
    unfold android_header_bytes.
    rewrite field_bytes_exact by (rewrite Hmagic; reflexivity).
    rewrite <- !app_assoc.
    rewrite firstn_app_exact by (rewrite Hmagic; reflexivity).
    exact Hmagic. }
  rewrite find_android_header_scan by assumption.
  rewrite (mb_memmem_first _ _ 0%nat Hocc) by (intros j Hj; lia).
  destruct (Z.ltb_spec (Z.of_nat (length (scan_window file)) - Z.of_nat 0)
              sizeof_AndroidHeader) as [L|_];
    [unfold sizeof_AndroidHeader in L; lia|].
  do 3 f_equal.
  unfold sub_bytes. cbn [Z.of_nat Z.to_nat skipn].
  change (Z.to_nat sizeof_AndroidHeader) with 608%nat.
  rewrite W608. rewrite <- (app_nil_r (android_header_bytes h)).
  apply android_header_of_bytes_bytes. exact Hwf.
Qed.


(** X14: a header that was written is read back.  On a file on which no
    operation fails and that starts with the bytes [android_header_bytes]
    gives for a header [h] (arrays of the declared lengths, 32-bit fields,
    magic "ANDROID!"), [find_android_header] returns [RET_OK] with [h]
    itself and offset 0, whatever follows the header in the file and
    whatever the outputs held; [android_reader_read_header], called without
    a bid before it, caches that header. *)
Theorem header_round_trip (file : File) (h h0 : AndroidHeader) (off0 : Z)
  (rest : list byte) (ctx : AndroidReaderCtx) (header : Header.t) :
  f_faults file = [] -> header_wf h -> magic h = BOOT_MAGIC ->
  f_data file = android_header_bytes h ++ rest ->
  find_android_header file MAX_HEADER_OFFSET h0 off0
  = (RET_OK, h, 0, scanned file)
  /\ (have_header_offset ctx = false ->
      exists ctx',
        android_reader_read_header ctx file header
        = (RET_OK, ctx', scanned file, logical_header h)
        /\ hdr ctx' = h /\ header_offset ctx' = 0
        /\ have_header_offset ctx' = true).
Proof.
  intros Hf Hwf Hmagic Hdata.
  split; [exact (find_android_header_written _ _ _ _ _ Hf Hwf Hmagic Hdata)|].
  intros Hno. unfold android_reader_read_header. rewrite Hno. cbn [negb].
  rewrite (find_android_header_written _ _ _ _ _ Hf Hwf Hmagic Hdata).
  cbn [ret_negative].
  destruct (read_header_tail_frame
              (set_have_header_offset (set_hdr ctx h 0) true) (scanned file)
              header) as (seg' & header' & E).
  pose proof (read_header_tail_again _ _ _ _ _ _ E) as (Hh & _).
  rewrite E. eexists. split; [rewrite Hh; reflexivity|]. auto.
Qed.

End round_trip_properties.

Lemma header_round_trip_witness :
  android.find_android_header (file_of example_image) MAX_HEADER_OFFSET
    android.zero_header 7
  = (RET_OK, example_android_header, 0, scanned (file_of example_image)).
Proof.
  refine (proj1 (header_round_trip (file_of example_image)
                   example_android_header android.zero_header 7
                   (skipn 608 example_image) android.new_AndroidReaderCtx
                   Header.empty eq_refl _ eq_refl _)).
  - vm_compute. repeat split; first [reflexivity | discriminate].
  - vm_compute. reflexivity.
Defined.

(** ** The MTK writer: the size fields *)

Lemma write_at_inside data pos buf :
  0 <= pos -> pos <= Z.of_nat (length data) ->
  write_at data pos buf
  = firstn (Z.to_nat pos) data ++ buf
    ++ skipn (Z.to_nat pos + length buf) data.
Proof.
  intros Hp Hl. unfold write_at.
  replace (Z.to_nat pos - length data)%nat with 0%nat by lia. reflexivity.
Qed.

Lemma sub_bytes_write_at_same data pos buf :
  0 <= pos -> pos <= Z.of_nat (length data) ->
  sub_bytes (write_at data pos buf) pos (Z.of_nat (length buf)) = buf.
Proof.
  intros Hp Hl. rewrite write_at_inside by assumption. unfold sub_bytes.
  rewrite Nat2Z.id, skipn_app.
  rewrite skipn_all2 by (rewrite length_firstn; lia).
  rewrite length_firstn.
  replace (Z.to_nat pos - Nat.min (Z.to_nat pos) (length data))%nat
    with 0%nat by lia.
  cbn [app skipn]. apply firstn_app_exact. reflexivity.
Qed.

Lemma sub_bytes_write_at_before data pos buf q n :
  0 <= q -> 0 <= n -> q + n <= pos -> pos <= Z.of_nat (length data) ->
  sub_bytes (write_at data pos buf) q n = sub_bytes data q n.
Proof.
  intros Hq Hn Hqn Hl. rewrite write_at_inside by lia. unfold sub_bytes.
  rewrite skipn_app, firstn_app, length_skipn, length_firstn.
  replace (Z.to_nat n - (Nat.min (Z.to_nat pos) (length data) - Z.to_nat q))%nat
    with 0%nat by lia.
  cbn [firstn]. rewrite app_nil_r.
  rewrite skipn_firstn_comm, firstn_firstn. f_equal. lia.
Qed.

Lemma sub_bytes_write_at_after data pos buf q n :
  0 <= pos -> pos + Z.of_nat (length buf) <= q ->
  pos + Z.of_nat (length buf) <= Z.of_nat (length data) ->
  sub_bytes (write_at data pos buf) q n = sub_bytes data q n.
Proof.
  intros Hp Hq Hl. rewrite write_at_inside by lia. unfold sub_bytes. f_equal.
  rewrite app_assoc, skipn_app.
  rewrite skipn_all2 by (rewrite length_app, length_firstn; lia).
  rewrite length_app, length_firstn. cbn [app]. rewrite skipn_skipn.
  f_equal. lia.
Qed.

Lemma le32_value_le32_bytes v : le32_value (le32_bytes v) = to_u32 v.
Proof.
  unfold le32_value, le32_bytes.
  rewrite firstn_all2 by (rewrite length_le_split; apply Nat.le_refl).
  rewrite le_combine_split. reflexivity.
Qed.

Section size_field_properties.
Import android mtk.
Context `{FormatDefs} `{Sha1}.

(** X15: [_mtk_header_update_size].  An offset above
    [SIZE_MAX - offsetof(MtkHeader, size)] is refused with [RET_FATAL]
    before any file operation.  Otherwise, on a file on which no operation
    fails and that holds the whole field, the call returns [RET_OK]; the
    length of the file is unchanged; the four bytes at
    [offset + offsetof(MtkHeader, size)] read back as [size] (as a 32-bit
    value); and every range of bytes that does not meet those four is as
    it was.  When the seek or the write fails, the code is that of the
    fatal bit and the contents are untouched. *)
Theorem header_update_size_effect (file : File) (offset size : Z) :
  let field := offset + MtkHeader_size_offset in
  (SIZE_MAX - MtkHeader_size_offset < offset ->
   _mtk_header_update_size file offset size = (RET_FATAL, file))
  /\ (0 <= offset <= SIZE_MAX - MtkHeader_size_offset ->
      f_faults file = [] -> field + 4 <= file_length file ->
      exists file',
        _mtk_header_update_size file offset size = (RET_OK, file')
        /\ file_length file' = file_length file
        /\ le32_value (sub_bytes (f_data file') field 4) = to_u32 size
        /\ (forall q n, 0 <= q -> 0 <= n ->
              q + n <= field \/ field + 4 <= q ->
              sub_bytes (f_data file') q n = sub_bytes (f_data file) q n))
  /\ (0 <= offset <= SIZE_MAX - MtkHeader_size_offset ->
      forall fatal rest,
        f_faults file = Some fatal :: rest
        \/ f_faults file = None :: Some fatal :: rest ->
        exists file',
          _mtk_header_update_size file offset size
          = (ret_of_file_error fatal, file')
          /\ f_data file' = f_data file /\ f_faults file' = rest).
Proof.
  intros field. pose proof MtkHeader_size_offset_range as Ho.
  split; [|split].
  - intros Hbig. unfold _mtk_header_update_size.
    destruct (Z.ltb_spec (SIZE_MAX - MtkHeader_size_offset) offset);
      [reflexivity|lia].
  - intros Hoff Hf Hfit. unfold file_length in Hfit.
    rewrite mtk_header_update_size_OK by (assumption || lia).
    fold field. eexists. split; [reflexivity|].
    cbn [f_data]. unfold file_length. cbn [f_data].
    pose proof (le32_bytes_length size) as L4.
    split; [|split].
    + rewrite write_at_length by (rewrite ?L4; lia). reflexivity.
    + change 4 with (Z.of_nat 4). rewrite <- L4.
      rewrite sub_bytes_write_at_same by (subst field; lia).
      apply le32_value_le32_bytes.
    + intros q n Hq Hn [Hbefore|Hafter].
      * apply sub_bytes_write_at_before; subst field; lia.
      * apply sub_bytes_write_at_after; rewrite ?L4; subst field; lia.
  - intros Hoff fatal rest Hf. unfold _mtk_header_update_size.
    destruct (Z.ltb_spec (SIZE_MAX - MtkHeader_size_offset) offset); [lia|].
    unfold File_seek, file_write_fully, file_fault, file_enter, file_set_pos.
    destruct Hf as [Hf|Hf]; rewrite Hf; cbn [hd tl].
    + eexists. split; [reflexivity|]. split; reflexivity.
    + destruct (Z.ltb_spec (0 + (offset + MtkHeader_size_offset)) 0); [lia|].
      cbn [f_faults hd tl].
      eexists. split; [reflexivity|]. split; reflexivity.
Qed.

End size_field_properties.

Lemma header_update_size_effect_witness :
  exists file',
    mtk._mtk_header_update_size example_file 2048 8 = (RET_OK, file')
    /\ le32_value (sub_bytes (f_data file') (2048 + MtkHeader_size_offset) 4)
       = to_u32 8.
Proof.
  destruct (proj1 (proj2 (header_update_size_effect example_file 2048 8)))
    as (file' & E & _ & V & _).
  - vm_compute. split; discriminate.
  - reflexivity.
  - vm_compute. discriminate.
  - exists file'. split; [exact E|exact V].
Defined.

(** ** The digest pass: what it leaves alone, and short segments *)

Section digest_further.
Import android mtk.
Context `{FormatDefs} `{Sha1}.

Lemma chunks_enough remain :
  remain <= Z.of_nat (chunks remain) * sizeof_buf.
Proof.
  destruct (Z.le_gt_cases 0 remain) as [L|L]; [apply chunks_cover; exact L|].
  unfold sizeof_buf. lia.
Qed.

(** The fuel of the model never runs out. *)
Lemma update_with_data_total : forall fuel file sha_ctx remain,
  remain <= Z.of_nat fuel * sizeof_buf ->
  update_with_data fuel file sha_ctx remain <> None.
Proof.
  unfold sizeof_buf.
  induction fuel as [|fuel IH]; intros file sha_ctx remain Hfuel;
    cbn [update_with_data].
  - destruct (Z.ltb_spec 0 remain); [lia|discriminate].
  - destruct (Z.ltb_spec 0 remain); [|discriminate].
    destruct (file_read_fully file _) as [buf file1|fatal file1];
      [|discriminate].
    destruct (negb _); [discriminate|]. cbn [SHA1_Update].
    apply IH. unfold sizeof_buf. lia.
Qed.

Lemma update_with_data_frame : forall fuel file sha_ctx remain,
  match update_with_data fuel file sha_ctx remain with
  | Some (ret, _, file') =>
      read_only_step file file'
      /\ (ret = RET_OK \/ ret = RET_FAILED \/ ret = RET_FATAL)
  | None => True
  end.
Proof.
  induction fuel as [|fuel IH]; intros file sha_ctx remain;
    cbn [update_with_data].
  - destruct (0 <? remain); [exact I|].
    split; [apply read_only_step_refl|auto].
  - destruct (0 <? remain);
      [|split; [apply read_only_step_refl|auto]].
    pose proof (file_read_fully_read_only file (Z.min remain sizeof_buf))
      as R.
    destruct (file_read_fully file _) as [buf file1|fatal file1].
    + destruct (negb _); [split; [exact R|auto]|]. cbn [SHA1_Update].
      specialize (IH file1 (sha_ctx ++ buf)
                    (remain - Z.min remain sizeof_buf)).
      destruct (update_with_data fuel file1 _ _) as [[[ret s] f]|];
        [|exact I].
      destruct IH as (S & C). split; [|exact C].
      exact (read_only_step_trans _ _ _ R S).
    + split; [exact R|destruct fatal; cbn; auto].
Qed.

Lemma update_with_entries_frame : forall entries file sha_ctx k r,
  read_only_step file (snd (update_with_entries entries file sha_ctx k r))
  /\ (let ret := fst (fst (update_with_entries entries file sha_ctx k r)) in
      ret = RET_OK \/ ret = RET_FAILED \/ ret = RET_FATAL).
Proof.
  induction entries as [|e rest IH]; intros file sha_ctx k r;
    cbn [update_with_entries].
  - split; [apply read_only_step_refl|cbn; auto].
  - pose proof (File_seek_read_only file (SegmentWriter.offset e) SEEK_SET)
      as R.
    destruct (File_seek file _ _) as [p file1|fatal file1];
      [|split; [exact R|destruct fatal; cbn; auto]].
    pose proof (update_with_data_frame (chunks (SegmentWriter.size e)) file1
                  sha_ctx (SegmentWriter.size e)) as D.
    destruct (update_with_data _ file1 _ _) as [[[ret s] file2]|];
      [|split; [exact R|cbn; auto]].
    destruct D as (S & C).
    pose proof (read_only_step_trans _ _ _ R S) as RS.
    destruct ret; try (split; [exact RS|cbn; tauto]).
    destruct (size_term e k r) as [k' r'|le32_size].
    + destruct (IH file2 s k' r') as (T & C'). split; [|exact C'].
      exact (read_only_step_trans _ _ _ RS T).
    + cbn [SHA1_Update].
      destruct (IH file2 (s ++ le32_size) k r) as (T & C').
      split; [|exact C']. exact (read_only_step_trans _ _ _ RS T).
Qed.

(** X16: the digest pass reads and never writes.  Whatever
    [_mtk_compute_sha1] returns and whatever fails, the contents of the file
    are as before and every operation performed is a seek or a read; the
    caller's digest buffer is changed only when the call returns [RET_OK],
    and then it holds [SHA_DIGEST_LENGTH] bytes; the code returned is
    [RET_OK], [RET_FAILED] or [RET_FATAL]. *)
Theorem compute_sha1_frame (seg : SegmentWriter.t) (file : File)
  (digest : list byte) :
  let res := _mtk_compute_sha1 seg file digest in
  let ret := fst (fst res) in
  read_only_step file (snd res)
  /\ (ret <> RET_OK -> snd (fst res) = digest)
  /\ (ret = RET_OK -> length (snd (fst res)) = SHA_DIGEST_LENGTH)
  /\ (ret = RET_OK \/ ret = RET_FAILED \/ ret = RET_FATAL).
Proof.
  unfold _mtk_compute_sha1, SHA1_Init, SHA1_Final.
  destruct (update_with_entries_frame (SegmentWriter.entries seg) file [] 0 0)
    as (S & C).
  destruct (update_with_entries _ file [] 0 0) as [[ret s] file1].
  cbn [fst snd] in S, C.
  destruct ret; cbn [fst snd];
    (split; [exact S|]);
    (split; [intros N; try reflexivity; congruence|]);
    (split; [intros E; try discriminate E; apply SHA1_length|]);
    first [ tauto | destruct C as [C|[C|C]]; discriminate C ].
Qed.

(** A segment that runs past the end of the file: the loop meets a short
    read. *)
Lemma update_with_data_short : forall fuel file sha_ctx remain,
  f_faults file = [] -> 0 <= f_pos file -> 0 < remain ->
  file_length file < f_pos file + remain ->
  remain <= Z.of_nat fuel * sizeof_buf ->
  exists sha_ctx' file',
    update_with_data fuel file sha_ctx remain
    = Some (RET_FAILED, sha_ctx', file')
    /\ f_data file' = f_data file.
Proof.
  unfold sizeof_buf.
  induction fuel as [|fuel IH]; intros file sha_ctx remain Hf Hpos Hrem Hshort
    Hfuel; [lia|].
  cbn [update_with_data].
  destruct (Z.ltb_spec 0 remain) as [_|L]; [|lia].
  set (to_read := Z.min remain sizeof_buf).
  assert (0 < to_read <= 10240 /\ to_read <= remain
          /\ (to_read = remain \/ to_read = 10240)) as (Hr1 & Hr2 & Hr3)
    by (unfold to_read, sizeof_buf; lia).
  rewrite file_read_fully_ok by assumption.
  set (buf := sub_bytes (f_data file) (f_pos file) to_read).
  destruct (Z.eqb_spec (Z.of_nat (length buf)) to_read) as [Efull|Eshort];
    cbn [negb].
  - cbn [SHA1_Update].
    assert (f_pos file + to_read <= file_length file) as Hin.
    { unfold buf, sub_bytes in Efull.
      rewrite length_firstn, length_skipn in Efull.
      unfold file_length. lia. }
    set (file1 := mkFile _ _ _ _).
    destruct (IH file1 (sha_ctx ++ buf) (remain - to_read))
      as (sha' & file' & E & D);
      try (subst file1; unfold file_length in *;
           cbn [f_faults f_pos f_data]; solve [reflexivity | lia]).
    exists sha', file'. split; [exact E|exact D].
  - eexists _, _. split; reflexivity.
Qed.

(** The segments before the short one are read in full. *)
Lemma update_with_entries_app : forall pre rest file sha_ctx k r,
  f_faults file = [] ->
  Forall (entry_within (file_length file)) pre ->
  exists file1 sha_ctx1 k1 r1,
    update_with_entries (pre ++ rest) file sha_ctx k r
    = update_with_entries rest file1 sha_ctx1 k1 r1
    /\ f_faults file1 = [] /\ f_data file1 = f_data file.
Proof.
  induction pre as [|e pre IH]; intros rest file sha_ctx k r Hf Hall.
  - exists file, sha_ctx, k, r. auto.
  - inversion Hall as [|? ? (Hoff & Hsize & Hfit) Hrest]; subst.
    cbn [app update_with_entries].
    rewrite File_seek_SET by assumption.
    set (file1 := mkFile _ _ _ _).
    destruct (update_with_data_OK (chunks (SegmentWriter.size e)) file1
                sha_ctx (SegmentWriter.size e)) as (ops1 & E1 & Hops1);
      try (subst file1; unfold file_length in *; cbn [f_faults f_pos f_data];
           solve [reflexivity | assumption | lia]).
    { apply chunks_cover; assumption. }
    rewrite E1. subst file1. cbn [f_data f_pos f_log].
    set (file2 := mkFile _ _ _ _).
    destruct (size_term e k r) as [k' r'|le32_size]; cbn [SHA1_Update].
    + destruct (IH rest file2 (sha_ctx ++ sub_bytes (f_data file)
                                  (SegmentWriter.offset e)
                                  (SegmentWriter.size e)) k' r')
        as (f & s & k1 & r1 & E & F & D); [reflexivity|exact Hrest|].
      exists f, s, k1, r1. auto.
    + destruct (IH rest file2 ((sha_ctx ++ sub_bytes (f_data file)
                                   (SegmentWriter.offset e)
                                   (SegmentWriter.size e)) ++ le32_size) k r)
        as (f & s & k1 & r1 & E & F & D); [reflexivity|exact Hrest|].
      exists f, s, k1, r1. auto.
Qed.

(** X17: a segment that runs past the end of the file makes the digest
    pass fail.  On a file on which no operation fails, when the segments
    listed before [e] lie inside the file and [e], of positive size, ends
    after the end of the file, [_mtk_compute_sha1] returns [RET_FAILED]
    (the read came back short), the caller's digest buffer is unchanged,
    and so are the contents of the file. *)
Theorem compute_sha1_short_segment (seg : SegmentWriter.t) (file : File)
  (digest : list byte) (pre post : list SegmentWriter.Entry)
  (e : SegmentWriter.Entry) :
  SegmentWriter.entries seg = pre ++ e :: post ->
  f_faults file = [] ->
  Forall (entry_within (file_length file)) pre ->
  0 <= SegmentWriter.offset e -> 0 < SegmentWriter.size e ->
  file_length file < SegmentWriter.offset e + SegmentWriter.size e ->
  exists file',
    _mtk_compute_sha1 seg file digest = (RET_FAILED, digest, file')
    /\ f_data file' = f_data file.
Proof.
  intros Hseg Hf Hpre Hoff Hsize Hshort.
  unfold _mtk_compute_sha1, SHA1_Init. rewrite Hseg.
  destruct (update_with_entries_app pre (e :: post) file [] 0 0 Hf Hpre)
    as (file1 & sha1 & k1 & r1 & -> & Hf1 & D1).
  cbn [update_with_entries].
  rewrite File_seek_SET by assumption.
  set (file2 := mkFile _ _ _ _).
  destruct (update_with_data_short (chunks (SegmentWriter.size e)) file2 sha1
              (SegmentWriter.size e)) as (sha' & file' & -> & D);
    try (subst file2; unfold file_length in *; cbn [f_faults f_pos f_data];
         solve [reflexivity | assumption | lia | rewrite D1; lia]).
  { apply chunks_enough. }
  exists file'. split; [reflexivity|].
  rewrite D. subst file2. cbn [f_data]. exact D1.
Qed.

End digest_further.

Lemma compute_sha1_short_segment_witness :
  exists file',
    mtk._mtk_compute_sha1
      (SegmentWriter.mk
         [example_kh; example_k; example_rh;
          SegmentWriter.mkEntry ENTRY_TYPE_RAMDISK 4608 8 2048] None)
      example_file []
    = (RET_FAILED, [], file')
    /\ f_data file' = f_data example_file.
Proof.
  apply (compute_sha1_short_segment _ example_file []
           [example_kh; example_k; example_rh] []
           (SegmentWriter.mkEntry ENTRY_TYPE_RAMDISK 4608 8 2048)).
  - reflexivity.
  - reflexivity.
  - repeat (constructor;
            [vm_compute; repeat split; intros C; discriminate C|]).
    constructor.
  - vm_compute. discriminate.
  - reflexivity.
  - vm_compute. reflexivity.
Defined.

(** ** Closing the image: failures, and the image read back *)

Section close_further.
Import android mtk.
Context `{FormatDefs} `{Sha1}.

(** X18: failures at the start of [mtk_writer_close].  When the query of
    the position fails, the call returns by the fatal bit, the context is
    unchanged (no size was recorded) and nothing but the query was
    attempted.  When the query succeeds and the truncation fails, the call
    returns by the fatal bit of the truncation, the position stays recorded
    with [have_file_size] set, so that a later call truncates to the same
    size, and neither a size field nor the header was written: the contents
    are untouched. *)
Theorem close_failures (ctx : MtkWriterCtx) (file : File) (fatal : bool)
  (rest : list (option bool)) :
  have_file_size ctx = false ->
  (f_faults file = Some fatal :: rest ->
   mtk_writer_close ctx file
   = (ret_of_file_error fatal, ctx,
      mkFile (f_data file) (f_pos file) rest
        (f_log file ++ [OpSeek 0 SEEK_CUR])))
  /\ (f_faults file = None :: Some fatal :: rest -> 0 <= f_pos file ->
      SegmentWriter.entry (seg ctx) = None ->
      mtk_writer_close ctx file
      = (ret_of_file_error fatal,
         mkCtx (hdr ctx) true (f_pos file) (seg ctx),
         mkFile (f_data file) (f_pos file) rest
           (f_log file ++ [OpSeek 0 SEEK_CUR; OpTruncate (f_pos file)]))).
Proof.
  intros Hhave. unfold mtk_writer_close. rewrite Hhave. cbn [negb].
  unfold File_seek, file_fault, file_enter, file_set_pos.
  split.
  - intros Hf. rewrite Hf. cbn [hd tl]. destruct fatal; reflexivity.
  - intros Hf Hpos Hentry. rewrite Hf. cbn [hd tl].
    rewrite Z.add_0_r.
    destruct (Z.ltb_spec (f_pos file) 0); [lia|].
    cbn [seg set_have_file_size set_file_size]. rewrite Hentry.
    unfold finish_image, File_truncate, file_fault, file_enter.
    cbn [f_faults f_data f_pos f_log hd tl file_size set_have_file_size
         set_file_size hdr seg].
    rewrite <- app_assoc. reflexivity.
Qed.

(** What a finalization returns, with the contents it leaves. *)
Lemma mtk_writer_close_OK ctx file kh k rh r s d :
  SegmentWriter.entry (seg ctx) = None ->
  SegmentWriter.entries (seg ctx) = [kh; k; rh; r; s; d] ->
  map SegmentWriter.type [kh; k; rh; r; s; d] = mtk_order ->
  f_faults file = [] -> 0 <= f_pos file ->
  let size := if have_file_size ctx then file_size ctx else f_pos file in
  0 <= size <= UINT64_MAX ->
  Forall (entry_within size) [kh; k; rh; r; s; d] ->
  SegmentWriter.size kh = sizeof_MtkHeader ->
  SegmentWriter.size rh = sizeof_MtkHeader ->
  let ksize := le32_bytes (kernel_size (hdr ctx) - sizeof_MtkHeader) in
  let rsize := le32_bytes (ramdisk_size (hdr ctx) - sizeof_MtkHeader) in
  let data0 := truncate_to (f_data file) size in
  let data1 :=
    write_at data0 (SegmentWriter.offset kh + MtkHeader_size_offset) ksize in
  let data2 :=
    write_at data1 (SegmentWriter.offset rh + MtkHeader_size_offset) rsize in
  let digest := SHA1 (mtk_digest_message data2 kh k rh r s d) in
  let hdr' :=
    set_id (hdr ctx) (digest ++ skipn SHA_DIGEST_LENGTH (id (hdr ctx))) in
  exists file',
    mtk_writer_close ctx file
    = (RET_OK, mkCtx hdr' true size (seg ctx), file')
    /\ f_data file' = write_at data2 0 (android_header_bytes hdr')
    /\ f_faults file' = [].
Proof.
  intros Hentry Hseg Hty Hf Hpos size Hsize Hall Hkh Hrh
    ksize rsize data0 data1 data2 digest hdr'.
  unfold mtk_writer_close.
  destruct (have_file_size ctx) eqn:Hhave; cbn [negb].
  - rewrite Hentry.
    destruct (finish_image_OK ctx file kh k rh r s d Hseg Hty Hf Hsize Hall
                Hkh Hrh) as (ops & E & Hops).
    rewrite E. fold ksize rsize data0 data1 data2 digest hdr'.
    unfold set_hdr. rewrite Hhave.
    eexists. split; [reflexivity|]. split; reflexivity.
  - rewrite File_seek_CUR_0 by assumption.
    set (ctx1 := set_have_file_size (set_file_size ctx (f_pos file)) true).
    set (file1 := mkFile _ _ _ _).
    change (SegmentWriter.entry (seg ctx1))
      with (SegmentWriter.entry (seg ctx)).
    rewrite Hentry.
    destruct (finish_image_OK ctx1 file1 kh k rh r s d Hseg Hty eq_refl Hsize
                Hall Hkh Hrh) as (ops & E & Hops).
    rewrite E. subst ctx1 file1.
    cbn [hdr file_size f_data f_log set_have_file_size set_file_size].
    fold ksize rsize data0 data1 data2 digest hdr'.
    eexists. split; [reflexivity|]. split; reflexivity.
Qed.

(** X19: the image [mtk_writer_close] finalizes is recognized by the
    Android reader.  When the header of the writer is well formed and
    carries the magic (as [mtk_writer_write_header] builds it), then after
    a finalization the header scan of the reader, run on the file the
    writer left, returns [RET_OK] at offset 0 with exactly the header the
    writer holds, digest included. *)
Theorem close_then_scan (ctx : MtkWriterCtx) (file : File)
  (kh k rh r s d : SegmentWriter.Entry) :
  SegmentWriter.entry (seg ctx) = None ->
  SegmentWriter.entries (seg ctx) = [kh; k; rh; r; s; d] ->
  map SegmentWriter.type [kh; k; rh; r; s; d] = mtk_order ->
  f_faults file = [] -> 0 <= f_pos file ->
  let size := if have_file_size ctx then file_size ctx else f_pos file in
  0 <= size <= UINT64_MAX ->
  Forall (entry_within size) [kh; k; rh; r; s; d] ->
  SegmentWriter.size kh = sizeof_MtkHeader ->
  SegmentWriter.size rh = sizeof_MtkHeader ->
  header_wf (hdr ctx) -> magic (hdr ctx) = BOOT_MAGIC ->
  exists ctx' file',
    mtk_writer_close ctx file = (RET_OK, ctx', file')
    /\ header_wf (hdr ctx')
    /\ sub_bytes (f_data file') 0 sizeof_AndroidHeader
       = android_header_bytes (hdr ctx')
    /\ forall h0 off0,
         find_android_header file' MAX_HEADER_OFFSET h0 off0
         = (RET_OK, hdr ctx', 0, scanned file').
Proof.
  intros Hentry Hseg Hty Hf Hpos size Hsize Hall Hkh Hrh Hwf Hmagic.
  destruct (mtk_writer_close_OK ctx file kh k rh r s d Hentry Hseg Hty Hf Hpos
              Hsize Hall Hkh Hrh) as (file' & E & D & F).
  cbv zeta in E, D. fold size in E, D.
  set (data2 := write_at _ _ (le32_bytes (ramdisk_size _ - _))) in *.
  set (hdr' := set_id (hdr ctx) _) in *.
  assert (header_wf hdr') as Hwf'.
  { destruct Hwf as (Lm & Li & Hrest). split; [exact Lm|].
    split; [|exact Hrest].
    unfold hdr'. cbn [id set_id].
    rewrite length_app, SHA1_length, length_skipn, Li. reflexivity. }
  pose proof (android_header_bytes_length hdr') as Lb.
  unfold sizeof_AndroidHeader in Lb.
  assert (f_data file'
          = android_header_bytes hdr' ++ skipn 608 data2) as D'.
  { rewrite D. unfold write_at. cbn [Z.to_nat firstn Nat.sub zeros repeat app].
    do 2 f_equal. lia. }
  eexists _, file'. split; [exact E|]. cbn [hdr].
  split; [exact Hwf'|]. split.
  - rewrite D'. unfold sub_bytes. cbn [Z.to_nat skipn].
    change (Z.to_nat sizeof_AndroidHeader) with 608%nat.
    apply firstn_app_exact. lia.
  - intros h0 off0.
    exact (find_android_header_written file' hdr' h0 off0 (skipn 608 data2)
             F Hwf' Hmagic D').
Qed.

End close_further.

Section size_fields_read_back.
Import android mtk.
Context `{FormatDefs} `{Sha1}.

(** X20: the size fields of the finalized image.  When the MTK kernel
    header lies after the Android header and the MTK ramdisk header after
    the MTK kernel header, then after a finalization the file has the
    recorded size, and the size field of the MTK kernel header reads back as
    [kernel_size - sizeof(MtkHeader)] and that of the MTK ramdisk header as
    [ramdisk_size - sizeof(MtkHeader)], as 32-bit values: neither the later
    patch nor the header written at offset 0 has disturbed them.  With the
    sizes [mtk_writer_finish_entry] stores, these are the sizes of the
    kernel and of the ramdisk themselves, also where the stored sum had
    wrapped. *)
Theorem close_size_fields (ctx : MtkWriterCtx) (file : File)
  (kh k rh r s d : SegmentWriter.Entry) :
  SegmentWriter.entry (seg ctx) = None ->
  SegmentWriter.entries (seg ctx) = [kh; k; rh; r; s; d] ->
  map SegmentWriter.type [kh; k; rh; r; s; d] = mtk_order ->
  f_faults file = [] -> 0 <= f_pos file ->
  let size := if have_file_size ctx then file_size ctx else f_pos file in
  0 <= size <= UINT64_MAX ->
  Forall (entry_within size) [kh; k; rh; r; s; d] ->
  SegmentWriter.size kh = sizeof_MtkHeader ->
  SegmentWriter.size rh = sizeof_MtkHeader ->
  sizeof_AndroidHeader <= SegmentWriter.offset kh ->
  SegmentWriter.offset kh + sizeof_MtkHeader <= SegmentWriter.offset rh ->
  exists ctx' file',
    mtk_writer_close ctx file = (RET_OK, ctx', file')
    /\ file_length file' = size
    /\ (let field :=
          le32_value (sub_bytes (f_data file')
                        (SegmentWriter.offset kh + MtkHeader_size_offset) 4) in
        field = to_u32 (kernel_size (hdr ctx) - sizeof_MtkHeader)
        /\ (kernel_size (hdr ctx)
            = to_u32 (SegmentWriter.size k + sizeof_MtkHeader) ->
            field = to_u32 (SegmentWriter.size k)))
    /\ (let field :=
          le32_value (sub_bytes (f_data file')
                        (SegmentWriter.offset rh + MtkHeader_size_offset) 4) in
        field = to_u32 (ramdisk_size (hdr ctx) - sizeof_MtkHeader)
        /\ (ramdisk_size (hdr ctx)
            = to_u32 (SegmentWriter.size r + sizeof_MtkHeader) ->
            field = to_u32 (SegmentWriter.size r))).
Proof.
  intros Hentry Hseg Hty Hf Hpos size Hsize Hall Hkh Hrh Hafter Horder.
  destruct (mtk_writer_close_OK ctx file kh k rh r s d Hentry Hseg Hty Hf Hpos
              Hsize Hall Hkh Hrh) as (file' & E & D & F).
  cbv zeta in E, D. fold size in E, D.
  pose proof MtkHeader_size_offset_range as Ho.
  assert (entry_within size kh /\ entry_within size rh)
    as ((Hk1 & Hk2 & Hk3) & (Hr1 & Hr2 & Hr3)).
  { inversion Hall as [|? ? ? Hall1]; subst.
    inversion Hall1 as [|? ? ? Hall2]; subst.
    inversion Hall2; subst. auto. }
  rewrite Hkh in Hk3. rewrite Hrh in Hr3.
  unfold sizeof_MtkHeader in Hk3, Hr3, Horder.
  unfold sizeof_AndroidHeader in Hafter. unfold UINT64_MAX in Hsize.
  set (ksize := le32_bytes (kernel_size (hdr ctx) - sizeof_MtkHeader)) in *.
  set (rsize := le32_bytes (ramdisk_size (hdr ctx) - sizeof_MtkHeader)) in *.
  set (data0 := truncate_to (f_data file) size) in *.
  set (data1 := write_at data0 _ ksize) in *.
  set (data2 := write_at data1 _ rsize) in *.
  set (hdr' := set_id (hdr ctx) _) in *.
  assert (Z.of_nat (length data0) = size) as L0
    by (apply truncate_to_length; lia).
  assert (length ksize = 4%nat) as Lk by apply le32_bytes_length.
  assert (length rsize = 4%nat) as Lr by apply le32_bytes_length.
  assert (length data1 = length data0) as L1
    by (apply write_at_length; lia).
  assert (length data2 = length data1) as L2
    by (apply write_at_length; lia).
  pose proof (android_header_bytes_length hdr') as Lb.
  unfold sizeof_AndroidHeader in Lb.
  assert (forall a, to_u32 (to_u32 (a + sizeof_MtkHeader) - sizeof_MtkHeader)
                    = to_u32 a) as Hwrap.
  { intros a. unfold to_u32. rewrite Zminus_mod_idemp_l. f_equal. lia. }
  eexists _, file'. split; [exact E|].
  split; [unfold file_length; rewrite D, write_at_length; lia|].
  rewrite D. split.
  - assert (le32_value
              (sub_bytes (write_at data2 0 (android_header_bytes hdr'))
                 (SegmentWriter.offset kh + MtkHeader_size_offset) 4)
            = to_u32 (kernel_size (hdr ctx) - sizeof_MtkHeader)) as V.
    { rewrite sub_bytes_write_at_after by lia.
      unfold data2. rewrite sub_bytes_write_at_before by lia.
      unfold data1. change 4 with (Z.of_nat 4). rewrite <- Lk.
      rewrite sub_bytes_write_at_same by lia.
      apply le32_value_le32_bytes. }
    cbv zeta. split; [exact V|]. intros Hstored.
    rewrite V, Hstored. apply Hwrap.
  - assert (le32_value
              (sub_bytes (write_at data2 0 (android_header_bytes hdr'))
                 (SegmentWriter.offset rh + MtkHeader_size_offset) 4)
            = to_u32 (ramdisk_size (hdr ctx) - sizeof_MtkHeader)) as V.
    { rewrite sub_bytes_write_at_after by lia.
      unfold data2. change 4 with (Z.of_nat 4). rewrite <- Lr.
      rewrite sub_bytes_write_at_same by lia.
      apply le32_value_le32_bytes. }
    cbv zeta. split; [exact V|]. intros Hstored.
    rewrite V, Hstored. apply Hwrap.
Qed.

End size_fields_read_back.

Lemma close_failures_witness :
  mtk.mtk_writer_close example_ctx (mkFile example_data 6144 [Some true] [])
  = (RET_FATAL, example_ctx,
     mkFile example_data 6144 [] [OpSeek 0 SEEK_CUR]).
Proof.
  exact (proj1 (close_failures example_ctx
                  (mkFile example_data 6144 [Some true] []) true [] eq_refl)
           eq_refl).
Defined.

Lemma close_then_scan_witness :
  exists ctx' file',
    mtk.mtk_writer_close example_ctx example_file = (RET_OK, ctx', file')
    /\ android.find_android_header file' MAX_HEADER_OFFSET
         android.zero_header 0
       = (RET_OK, mtk.hdr ctx', 0, scanned file').
Proof.
  destruct (close_then_scan example_ctx example_file example_kh example_k
              example_rh example_r example_s example_d)
    as (ctx' & file' & R & _ & _ & S);
    try reflexivity.
  - vm_compute. discriminate.
  - split; vm_compute; discriminate.
  - exact example_entries_within.
  - vm_compute. repeat split; first [reflexivity | discriminate].
  - exists ctx', file'. split; [exact R|apply S].
Defined.

Lemma close_size_fields_witness :
  exists ctx' file',
    mtk.mtk_writer_close example_ctx example_file = (RET_OK, ctx', file')
    /\ file_length file' = 6144
    /\ le32_value (sub_bytes (f_data file') (2048 + MtkHeader_size_offset) 4)
       = 8
    /\ le32_value (sub_bytes (f_data file') (4096 + MtkHeader_size_offset) 4)
       = 4.
Proof.
  destruct (close_size_fields example_ctx example_file example_kh example_k
              example_rh example_r example_s example_d)
    as (ctx' & file' & R & L & (_ & K) & (_ & Rd));
    try reflexivity.
  - vm_compute. discriminate.
  - split; vm_compute; discriminate.
  - exact example_entries_within.
  - vm_compute. discriminate.
  - vm_compute. discriminate.
  - exists ctx', file'. split; [exact R|]. split; [exact L|].
    split; [exact (K eq_refl)|exact (Rd eq_refl)].
Defined.

(** ** Writing the header *)

Lemma c_bytes_length bs : (length (c_bytes bs) <= length bs)%nat.
Proof.
  destruct (c_bytes_prefix bs) as (rest & E & _).
  pose proof (f_equal (@length byte) E) as L. rewrite length_app in L. lia.
Qed.

Lemma c_bytes_stop a r : ~ In Byte.x00 a -> c_bytes (a ++ Byte.x00 :: r) = a.
Proof.
  induction a as [|b a IH]; intros Hno; [reflexivity|].
  cbn [app c_bytes].
  destruct (Byte.eqb b Byte.x00) eqn:B.
  - exfalso. apply Hno. left. symmetry. apply Byte.byte_dec_bl. exact B.
  - f_equal. apply IH. intros Hin. apply Hno. right. exact Hin.
Qed.

Lemma c_bytes_nul_free a : ~ In Byte.x00 a -> c_bytes a = a.
Proof.
  induction a as [|b a IH]; intros Hno; [reflexivity|].
  cbn [c_bytes].
  destruct (Byte.eqb b Byte.x00) eqn:B.
  - exfalso. apply Hno. left. symmetry. apply Byte.byte_dec_bl. exact B.
  - f_equal. apply IH. intros Hin. apply Hno. right. exact Hin.
Qed.

(** A string copied with [strncpy] into a zeroed array one byte longer and
    terminated reads back as the string up to its NUL. *)
Lemma c_bytes_copied bs n :
  (length bs <= n)%nat ->
  length (android.field_bytes n (c_bytes bs) ++ [Byte.x00]) = S n
  /\ c_bytes (android.field_bytes (S n)
                (android.field_bytes n (c_bytes bs) ++ [Byte.x00]))
     = c_bytes bs.
Proof.
  intros L. pose proof (c_bytes_length bs) as Lc.
  destruct (c_bytes_prefix bs) as (_ & _ & Hno & _).
  assert (length (android.field_bytes n (c_bytes bs) ++ [Byte.x00]) = S n)
    as Len.
  { unfold android.field_bytes, zeros.
    rewrite !length_app, length_firstn, repeat_length. cbn [length]. lia. }
  split; [exact Len|].
  rewrite field_bytes_exact by exact Len.
  unfold android.field_bytes, zeros.
  rewrite firstn_all2 by lia.
  rewrite <- app_assoc, <- repeat_cons.
  apply c_bytes_stop. exact Hno.
Qed.

Lemma page_size_case_spec p :
  mtk.page_size_case p = true <-> In p page_sizes.
Proof.
  unfold mtk.page_size_case, page_sizes.
  rewrite !orb_true_iff, !Z.eqb_eq. cbn [In]. intuition auto.
Qed.

Section write_header_properties.
Import android mtk.
Context `{SegmentWriterTable}.

(** What a successful [mtk_writer_write_header] went through. *)
Lemma write_header_OK ctx file header ctx' file' :
  mtk_writer_write_header ctx file header = (RET_OK, ctx', file') ->
  exists p seg1,
    Header.page_size header = Some p /\ page_size_case p = true
    /\ (forall bn, Header.board_name header = Some bn ->
          (length bn < sizeof_name)%nat)
    /\ (forall cl, Header.kernel_cmdline header = Some cl ->
          (length cl < sizeof_cmdline)%nat)
    /\ add_mtk_entries (entries_clear (seg ctx)) p = (RET_OK, seg1)
    /\ ctx' = mkCtx (built_header header p) (have_file_size ctx)
                (file_size ctx) seg1
    /\ File_seek file p SEEK_SET = FileOk p file'.
Proof.
  unfold mtk_writer_write_header, built_header, strncpy.
  destruct header as [sf bn cl ps ka ra sa ta].
  cbn [Header.page_size Header.board_name Header.kernel_cmdline
       Header.kernel_address Header.ramdisk_address
       Header.secondboot_address Header.kernel_tags_address].
  destruct ps as [p|]; [|intros [=]].
  destruct (page_size_case p) eqn:Hp; cbn [negb]; [|intros [=]].
  cbv zeta.
  destruct bn as [bn|];
    [destruct (Nat.leb_spec sizeof_name (length bn)) as [|Lb];
     [intros [=]|]|].
  all: destruct cl as [cl|];
    [destruct (Nat.leb_spec sizeof_cmdline (length cl)) as [|Lc];
     [intros [=]|]|].
  all: cbn [seg set_hdr hdr page_size set_cmdline set_name set_page_size].
  all: destruct (add_mtk_entries (entries_clear (seg ctx)) p)
         as [ret seg1] eqn:A.
  all: destruct ret; try (intros [=]; fail).
  all: destruct (File_seek file p SEEK_SET) as [pos file1|fatal file1] eqn:S;
    [|destruct fatal; intros [=]].
  all: intros [= <- <-]; exists p, seg1.
  all: split; [reflexivity|]; split; [exact Hp|].
  all: split; [first [intros b [= <-]; assumption | intros b [=]]|].
  all: split; [first [intros b [= <-]; assumption | intros b [=]]|].
  all: split; [exact A|]; split; [destruct ka, ra, sa, ta; reflexivity|].
  all: revert S; unfold File_seek; destruct (file_fault file);
    [intros [=]|]; cbn [Z.add]; destruct (p <? 0); intros [= <- <-];
    reflexivity.
Qed.

(** X21: what [mtk_writer_write_header] accepts.  The call returns
    [RET_OK] only for a logical header that has a page size, one of 2048,
    4096, 8192, 16384, 32768, 65536 and 131072, a board name (if any) of at
    most 15 bytes and a command line (if any) of at most 511.  A header
    without page size, with another page size, with a board name of 16
    bytes or more or a command line of 512 or more is refused with
    [RET_FAILED] before anything else is touched: no file operation is
    performed and the table and the recorded size are as they were. *)
Theorem write_header_validation (ctx : MtkWriterCtx) (file : File)
  (header : Header.t) :
  let res := mtk_writer_write_header ctx file header in
  let ret := fst (fst res) in
  (ret = RET_OK ->
   (exists p, Header.page_size header = Some p /\ In p page_sizes)
   /\ (forall bn, Header.board_name header = Some bn ->
         (length bn <= 15)%nat)
   /\ (forall cl, Header.kernel_cmdline header = Some cl ->
         (length cl <= 511)%nat))
  /\ (Header.page_size header = None
      \/ (exists p, Header.page_size header = Some p /\ ~ In p page_sizes)
      \/ (exists bn, Header.board_name header = Some bn
                     /\ (16 <= length bn)%nat)
      \/ (exists cl, Header.kernel_cmdline header = Some cl
                     /\ (512 <= length cl)%nat) ->
      ret = RET_FAILED /\ snd res = file
      /\ seg (snd (fst res)) = seg ctx
      /\ have_file_size (snd (fst res)) = have_file_size ctx
      /\ file_size (snd (fst res)) = file_size ctx).
Proof.
  intros res ret. split.
  - subst ret. destruct res as [[r c] f] eqn:E. cbn [fst]. intros ->.
    destruct (write_header_OK _ _ _ _ _ E)
      as (p & seg1 & Hp & Hcase & Hbn & Hcl & _).
    unfold sizeof_name, sizeof_cmdline in *.
    split; [exists p; split; [exact Hp|apply page_size_case_spec, Hcase]|].
    split; intros b Hb; [specialize (Hbn b Hb)|specialize (Hcl b Hb)]; lia.
  - intros Hbad. subst ret res. unfold mtk_writer_write_header.
    destruct header as [sf bn cl ps ka ra sa ta].
    cbn [Header.page_size Header.board_name Header.kernel_cmdline
         Header.kernel_address Header.ramdisk_address
         Header.secondboot_address Header.kernel_tags_address] in *.
    destruct ps as [p|]; [|repeat split; reflexivity].
    destruct (page_size_case p) eqn:Hp; cbn [negb];
      [|repeat split; reflexivity].
    cbv zeta. unfold sizeof_name, sizeof_cmdline.
    destruct bn as [bn|];
      [destruct (Nat.leb_spec 16 (length bn)) as [|Lb];
       [repeat split; reflexivity|]|].
    all: destruct cl as [cl|];
      [destruct (Nat.leb_spec 512 (length cl)) as [|Lc];
       [repeat split; reflexivity|]|].
    all: exfalso; apply page_size_case_spec in Hp.
    all: destruct Hbad as [Hb|[(p' & Hb & N)|[(b & Hb & L)|(b & Hb & L)]]];
      try discriminate Hb; injection Hb as <-; first [contradiction | lia].
Qed.

(** The array fields of the header built: their lengths and terminators. *)
Lemma built_header_arrays header p :
  (forall bn, Header.board_name header = Some bn -> (length bn < 16)%nat) ->
  (forall cl, Header.kernel_cmdline header = Some cl ->
     (length cl < 512)%nat) ->
  (length (name (built_header header p)) = 16%nat
   /\ nth 15 (name (built_header header p)) Byte.x01 = Byte.x00)
  /\ (length (cmdline (built_header header p)) = 512%nat
      /\ nth 511 (cmdline (built_header header p)) Byte.x01 = Byte.x00).
Proof.
  intros Hbn Hcl. split.
  - unfold built_header. cbn [name].
    destruct (Header.board_name header) as [bn|]; [|split; reflexivity].
    assert (length bn <= 15)%nat as L by (specialize (Hbn bn eq_refl); lia).
    destruct (c_bytes_copied bn 15 L) as (Len & _). split; [exact Len|].
    rewrite app_nth2; rewrite length_app in Len; cbn [length] in Len.
    + replace (15 - length (field_bytes 15 (c_bytes bn)))%nat with 0%nat
        by lia. reflexivity.
    + lia.
  - unfold built_header. cbn [cmdline].
    destruct (Header.kernel_cmdline header) as [cl|]; [|split; reflexivity].
    assert (length cl <= 511)%nat as L by (specialize (Hcl cl eq_refl); lia).
    destruct (c_bytes_copied cl 511 L) as (Len & _). split; [exact Len|].
    rewrite app_nth2; rewrite length_app in Len; cbn [length] in Len.
    + replace (511 - length (field_bytes 511 (c_bytes cl)))%nat with 0%nat
        by lia. reflexivity.
    + lia.
Qed.

Lemma built_header_wf header p :
  In p page_sizes ->
  (forall bn, Header.board_name header = Some bn -> (length bn < 16)%nat) ->
  (forall cl, Header.kernel_cmdline header = Some cl ->
     (length cl < 512)%nat) ->
  (forall a, In (Some a)
               [Header.kernel_address header; Header.ramdisk_address header;
                Header.secondboot_address header;
                Header.kernel_tags_address header] -> is_u32 a) ->
  header_wf (built_header header p).
Proof.
  intros Hcase Hbn Hcl Haddr.
  destruct (built_header_arrays header p Hbn Hcl) as ((Ln & _) & (Lc & _)).
  assert (forall o, In o [Header.kernel_address header;
                          Header.ramdisk_address header;
                          Header.secondboot_address header;
                          Header.kernel_tags_address header] ->
                    is_u32 (field_or 0 o)) as Hu.
  { intros [a|] Hin; [exact (Haddr a Hin)|].
    unfold is_u32, UINT32_MAX. cbn. lia. }
  assert (is_u32 0) as Hz by (unfold is_u32, UINT32_MAX; lia).
  assert (is_u32 p) as Hpu.
  { unfold is_u32, UINT32_MAX, page_sizes in *. cbn [In] in Hcase. lia. }
  unfold header_wf.
  split; [reflexivity|]. split; [reflexivity|].
  split; [exact Ln|]. split; [exact Lc|].
  unfold built_header.
  cbn [kernel_size kernel_addr ramdisk_size ramdisk_addr second_size
       second_addr tags_addr page_size dt_size unused].
  repeat split; try (exact Hz || exact Hpu || apply Hz || apply Hpu);
    apply Hu; cbn [In]; auto.
Qed.

(** X22: the header [mtk_writer_write_header] builds.  After a call that
    returned [RET_OK], the header of the writer carries the magic
    "ANDROID!", the page size asked for and the addresses given (0 for one
    that is absent); the four sizes, [unused] and the 32 bytes of [id] are
    zero; [name] and [cmdline] have 16 and 512 bytes and end with a NUL.
    When the addresses given are 32-bit values the header is well formed,
    which is what the finalization and the reader's scan ask of it.  The
    recorded size is untouched, and the one file operation performed is the
    seek to the page size, where the first segment will start. *)
Theorem write_header_builds (ctx : MtkWriterCtx) (file : File)
  (header : Header.t) (ctx' : MtkWriterCtx) (file' : File) :
  mtk_writer_write_header ctx file header = (RET_OK, ctx', file') ->
  exists p,
    Header.page_size header = Some p /\ In p page_sizes
    /\ hdr ctx' = built_header header p
    /\ magic (hdr ctx') = BOOT_MAGIC /\ page_size (hdr ctx') = p
    /\ kernel_size (hdr ctx') = 0 /\ ramdisk_size (hdr ctx') = 0
    /\ second_size (hdr ctx') = 0 /\ dt_size (hdr ctx') = 0
    /\ id (hdr ctx') = zeros 32
    /\ skipn SHA_DIGEST_LENGTH (id (hdr ctx')) = zeros 12
    /\ length (name (hdr ctx')) = 16%nat
    /\ length (cmdline (hdr ctx')) = 512%nat
    /\ nth 15 (name (hdr ctx')) Byte.x01 = Byte.x00
    /\ nth 511 (cmdline (hdr ctx')) Byte.x01 = Byte.x00
    /\ ((forall a, In (Some a)
                     [Header.kernel_address header;
                      Header.ramdisk_address header;
                      Header.secondboot_address header;
                      Header.kernel_tags_address header] -> is_u32 a) ->
        header_wf (hdr ctx'))
    /\ have_file_size ctx' = have_file_size ctx
    /\ file_size ctx' = file_size ctx
    /\ file' = mkFile (f_data file) p (tl (f_faults file))
                 (f_log file ++ [OpSeek p SEEK_SET]).
Proof.
  intros E.
  destruct (write_header_OK _ _ _ _ _ E)
    as (p & seg1 & Hp & Hcase & Hbn & Hcl & _ & -> & Hseek).
  apply page_size_case_spec in Hcase.
  unfold sizeof_name, sizeof_cmdline in *.
  destruct (built_header_arrays header p Hbn Hcl)
    as ((Ln & Nn) & (Lc & Nc)).
  exists p. cbn [hdr have_file_size file_size].
  split; [exact Hp|]. split; [exact Hcase|].
  do 9 (split; [reflexivity|]).
  split; [exact Ln|]. split; [exact Lc|].
  split; [exact Nn|]. split; [exact Nc|].
  split.
  - intros Haddr. exact (built_header_wf header p Hcase Hbn Hcl Haddr).
  - split; [reflexivity|]. split; [reflexivity|].
    revert Hseek. unfold File_seek. destruct (file_fault file); [intros [=]|].
    cbn [Z.add]. destruct (p <? 0); intros [= <-]. reflexivity.
Qed.

(** X23: the logical header survives the writer.  The header built by a
    successful [mtk_writer_write_header], handed to [android_set_header] as
    the reader does with the header it finds, gives the page size and the
    addresses of the logical header written (0 for an absent address) and
    its board name and command line up to their first NUL (empty when
    absent).  In particular a logical header with all seven fields set,
    the supported fields of the reader and no NUL inside its strings comes
    back exactly. *)
Theorem write_header_read_back (ctx : MtkWriterCtx) (file : File)
  (header : Header.t) (ctx' : MtkWriterCtx) (file' : File)
  (any : Header.t) :
  mtk_writer_write_header ctx file header = (RET_OK, ctx', file') ->
  android_set_header (hdr ctx') any
  = (RET_OK,
     Header.mk SUPPORTED_FIELDS
       (Some (c_bytes (field_or [] (Header.board_name header))))
       (Some (c_bytes (field_or [] (Header.kernel_cmdline header))))
       (Header.page_size header)
       (Some (field_or 0 (Header.kernel_address header)))
       (Some (field_or 0 (Header.ramdisk_address header)))
       (Some (field_or 0 (Header.secondboot_address header)))
       (Some (field_or 0 (Header.kernel_tags_address header))))
  /\ (Header.supported_fields header = SUPPORTED_FIELDS ->
      (exists bn, Header.board_name header = Some bn /\ ~ In Byte.x00 bn) ->
      (exists cl, Header.kernel_cmdline header = Some cl
                  /\ ~ In Byte.x00 cl) ->
      Header.kernel_address header <> None ->
      Header.ramdisk_address header <> None ->
      Header.secondboot_address header <> None ->
      Header.kernel_tags_address header <> None ->
      android_set_header (hdr ctx') any = (RET_OK, header)).
Proof.
  intros E.
  destruct (write_header_OK _ _ _ _ _ E)
    as (p & seg1 & Hp & Hcase & Hbn & Hcl & _ & -> & _).
  unfold sizeof_name, sizeof_cmdline in *.
  rewrite android_set_header_value. cbn [hdr].
  assert (c_bytes (field_bytes 16 (name (built_header header p)))
          = c_bytes (field_or [] (Header.board_name header))) as Nn.
  { unfold built_header. cbn [name].
    destruct (Header.board_name header) as [bn|]; [|reflexivity].
    assert (length bn <= 15)%nat as L by (specialize (Hbn bn eq_refl); lia).
    exact (proj2 (c_bytes_copied bn 15 L)). }
  assert (c_bytes (field_bytes 512 (cmdline (built_header header p)))
          = c_bytes (field_or [] (Header.kernel_cmdline header))) as Nc.
  { unfold built_header. cbn [cmdline].
    destruct (Header.kernel_cmdline header) as [cl|]; [|reflexivity].
    assert (length cl <= 511)%nat as L by (specialize (Hcl cl eq_refl); lia).
    exact (proj2 (c_bytes_copied cl 511 L)). }
  unfold logical_header. rewrite Nn, Nc, Hp.
  split; [reflexivity|].
  intros Hsf (bn & Hb & Nb) (cl & Hc & Ncl) Hka Hra Hsa Hta.
  destruct header as [sf bn' cl' ps ka ra sa ta].
  cbn [Header.page_size Header.board_name Header.kernel_cmdline
       Header.kernel_address Header.ramdisk_address
       Header.secondboot_address Header.kernel_tags_address
       Header.supported_fields built_header field_or page_size kernel_addr
       ramdisk_addr second_addr tags_addr] in *.
  subst sf bn' cl' ps.
  destruct ka; [|contradiction]. destruct ra; [|contradiction].
  destruct sa; [|contradiction]. destruct ta; [|contradiction].
  cbn [field_or]. rewrite !c_bytes_nul_free by assumption. reflexivity.
Qed.

End write_header_properties.

Lemma header_wf_sizes h k r s d :
  header_wf h ->
  header_wf (android.mkAndroidHeader (android.magic h) (to_u32 k)
               (android.kernel_addr h) (to_u32 r) (android.ramdisk_addr h)
               (to_u32 s) (android.second_addr h) (android.tags_addr h)
               (android.page_size h) (to_u32 d) (android.unused h)
               (android.id h) (android.name h) (android.cmdline h)).
Proof.
  intros (Lm & Li & Ln & Lc & Hks & Hka & Hrs & Hra & Hss & Hsa & Hta & Hps
          & Hds & Hun).
  assert (forall v, is_u32 (to_u32 v)) as Hu.
  { intros v. unfold is_u32, to_u32, UINT32_MAX.
    pose proof (Z.mod_pos_bound v (2 ^ 32) ltac:(lia)). lia. }
  unfold header_wf. cbn. auto 20.
Qed.

Lemma to_u32_id v : is_u32 v -> to_u32 v = v.
Proof.
  unfold is_u32, UINT32_MAX, to_u32. intros Hv. apply Z.mod_small. lia.
Qed.

Section writer_invariant.
Import android mtk.
Context `{FormatDefs} `{Sha1} `{SegmentWriterTable}.

(** X24: the header of the writer stays fit for the finalization.  Being
    well formed, carrying the magic and having a zero [id] is what
    [mtk_writer_write_header] establishes (for 32-bit addresses) when it
    returns [RET_OK]; [mtk_writer_finish_entry] keeps it, whatever it
    returns, and changes nothing but the four sizes; and
    [mtk_writer_close], called while an entry is pending, leaves the header
    as it is. *)
Theorem writer_header_invariant (ctx : MtkWriterCtx) (file : File)
  (header : Header.t) :
  let written := snd (fst (mtk_writer_write_header ctx file header)) in
  let finished := snd (fst (mtk_writer_finish_entry ctx file)) in
  let closed := snd (fst (mtk_writer_close ctx file)) in
  (fst (fst (mtk_writer_write_header ctx file header)) = RET_OK ->
   (forall a, In (Some a)
                [Header.kernel_address header; Header.ramdisk_address header;
                 Header.secondboot_address header;
                 Header.kernel_tags_address header] -> is_u32 a) ->
   writer_header_ok (hdr written))
  /\ (writer_header_ok (hdr ctx) -> writer_header_ok (hdr finished))
  /\ (exists k r s d,
        hdr finished
        = set_dt_size
            (set_second_size
               (set_ramdisk_size (set_kernel_size (hdr ctx) k) r) s) d)
  /\ (SegmentWriter.entry (seg ctx) <> None -> hdr closed = hdr ctx).
Proof.
  intros written finished closed. split; [|split; [|split]].
  - subst written.
    destruct (mtk_writer_write_header ctx file header) as [[r c] f] eqn:E.
    cbn [fst snd]. intros -> Haddr.
    destruct (write_header_OK _ _ _ _ _ E)
      as (p & seg1 & Hp & Hcase & Hbn & Hcl & _ & -> & _).
    apply page_size_case_spec in Hcase.
    unfold sizeof_name, sizeof_cmdline in *. cbn [hdr].
    split; [exact (built_header_wf header p Hcase Hbn Hcl Haddr)|].
    split; reflexivity.
  - subst finished. intros (Hwf & Hm & Hi).
    unfold mtk_writer_finish_entry.
    destruct (SegmentWriter.finish_entry (seg ctx) file) as [[r s] f].
    destruct r; cbn [fst snd hdr set_seg]; try (split; [assumption|auto]).
    destruct (SegmentWriter.entry s) as [e|];
      cbn [fst snd hdr set_seg]; [|split; [assumption|auto]].
    destruct (_ && _); cbn [fst snd hdr set_seg]; [split; [assumption|auto]|].
    destruct (_ && _); cbn [fst snd hdr set_seg]; [split; [assumption|auto]|].
    pose proof Hwf as (_ & _ & _ & _ & Hks & _ & Hrs & _ & Hss & _ & _ & _
                       & Hds & _).
    pose proof (header_wf_sizes (hdr ctx)) as W.
    destruct (SegmentWriter.type e); cbn [hdr set_hdr set_seg];
      (split; [|split; assumption]); try assumption.
    + specialize (W (SegmentWriter.size e + sizeof_MtkHeader)
                    (ramdisk_size (hdr ctx)) (second_size (hdr ctx))
                    (dt_size (hdr ctx)) Hwf).
      rewrite (to_u32_id (ramdisk_size _)), (to_u32_id (second_size _)),
        (to_u32_id (dt_size _)) in W by assumption.
      exact W.
    + specialize (W (kernel_size (hdr ctx))
                    (SegmentWriter.size e + sizeof_MtkHeader)
                    (second_size (hdr ctx)) (dt_size (hdr ctx)) Hwf).
      rewrite (to_u32_id (kernel_size _)), (to_u32_id (second_size _)),
        (to_u32_id (dt_size _)) in W by assumption.
      exact W.
    + specialize (W (kernel_size (hdr ctx)) (ramdisk_size (hdr ctx))
                    (SegmentWriter.size e) (dt_size (hdr ctx)) Hwf).
      rewrite (to_u32_id (kernel_size _)), (to_u32_id (ramdisk_size _)),
        (to_u32_id (dt_size _)) in W by assumption.
      exact W.
    + specialize (W (kernel_size (hdr ctx)) (ramdisk_size (hdr ctx))
                    (second_size (hdr ctx)) (SegmentWriter.size e) Hwf).
      rewrite (to_u32_id (kernel_size _)), (to_u32_id (ramdisk_size _)),
        (to_u32_id (second_size _)) in W by assumption.
      exact W.
  - subst finished. unfold mtk_writer_finish_entry.
    assert (forall h, exists k r s d,
              h = set_dt_size
                    (set_second_size
                       (set_ramdisk_size (set_kernel_size h k) r) s) d)
      as Same.
    { intros h. exists (kernel_size h), (ramdisk_size h), (second_size h),
        (dt_size h). destruct h; reflexivity. }
    destruct (SegmentWriter.finish_entry (seg ctx) file) as [[r s] f].
    destruct r; cbn [fst snd hdr set_seg]; try apply Same.
    destruct (SegmentWriter.entry s) as [e|];
      cbn [fst snd hdr set_seg]; [|apply Same].
    destruct (_ && _); cbn [fst snd hdr set_seg]; [apply Same|].
    destruct (_ && _); cbn [fst snd hdr set_seg]; [apply Same|].
    destruct (SegmentWriter.type e); cbn [hdr set_hdr set_seg];
      try apply Same.
    + exists (to_u32 (SegmentWriter.size e + sizeof_MtkHeader)),
        (ramdisk_size (hdr ctx)), (second_size (hdr ctx)),
        (dt_size (hdr ctx)). reflexivity.
    + exists (kernel_size (hdr ctx)),
        (to_u32 (SegmentWriter.size e + sizeof_MtkHeader)),
        (second_size (hdr ctx)), (dt_size (hdr ctx)). reflexivity.
    + exists (kernel_size (hdr ctx)), (ramdisk_size (hdr ctx)),
        (to_u32 (SegmentWriter.size e)), (dt_size (hdr ctx)). reflexivity.
    + exists (kernel_size (hdr ctx)), (ramdisk_size (hdr ctx)),
        (second_size (hdr ctx)), (to_u32 (SegmentWriter.size e)).
      reflexivity.
  - subst closed. intros Hentry. unfold mtk_writer_close.
    destruct (negb (have_file_size ctx)).
    + destruct (File_seek file 0 SEEK_CUR) as [pos file1|fatal file1].
      * cbn [seg set_have_file_size set_file_size].
        destruct (SegmentWriter.entry (seg ctx)); [reflexivity|].
        contradiction.
      * destruct fatal; reflexivity.
    + destruct (SegmentWriter.entry (seg ctx)); [reflexivity|].
      contradiction.
Qed.

End writer_invariant.

Lemma write_header_validation_witness :
  fst (fst (mtk.mtk_writer_write_header example_ctx example_file
              (Header.mk android.SUPPORTED_FIELDS None None (Some 1024) None
                 None None None)))
  = RET_FAILED.
Proof.
  refine (proj1 (proj2 (write_header_validation example_ctx example_file
                          (Header.mk android.SUPPORTED_FIELDS None None
                             (Some 1024) None None None None)) _)).
  right. left. exists 1024. split; [reflexivity|].
  vm_compute. intuition discriminate.
Defined.

Lemma write_header_builds_witness :
  exists ctx' file',
    mtk.mtk_writer_write_header
      (mtk.mkCtx android.zero_header false 0 (SegmentWriter.mk [] None))
      (file_of []) example_logical_header
    = (RET_OK, ctx', file')
    /\ android.page_size (mtk.hdr ctx') = 2048
    /\ header_wf (mtk.hdr ctx')
    /\ file' = mkFile [] 2048 [] [OpSeek 2048 SEEK_SET].
Proof.
  set (res := mtk.mtk_writer_write_header
                (mtk.mkCtx android.zero_header false 0
                   (SegmentWriter.mk [] None))
                (file_of []) example_logical_header).
  assert (res = (RET_OK, snd (fst res), snd res)) as E
    by (vm_compute; reflexivity).
  destruct (write_header_builds _ _ _ _ _ E)
    as (p & Hp & _ & _ & _ & Hps & _ & _ & _ & _ & _ & _ & _ & _ & _ & _
        & Hwf & _ & _ & Hfile).
  injection Hp as <-.
  exists (snd (fst res)), (snd res). split; [exact E|].
  split; [exact Hps|]. split; [|exact Hfile].
  apply Hwf. intros a Hin. cbn in Hin.
  assert (a = 0) as -> by intuition congruence.
  vm_compute. split; discriminate.
Defined.

Lemma write_header_read_back_witness :
  exists ctx' file',
    mtk.mtk_writer_write_header
      (mtk.mkCtx android.zero_header false 0 (SegmentWriter.mk [] None))
      (file_of []) example_logical_header
    = (RET_OK, ctx', file')
    /\ android.android_set_header (mtk.hdr ctx') Header.empty
       = (RET_OK, example_logical_header).
Proof.
  set (res := mtk.mtk_writer_write_header
                (mtk.mkCtx android.zero_header false 0
                   (SegmentWriter.mk [] None))
                (file_of []) example_logical_header).
  assert (res = (RET_OK, snd (fst res), snd res)) as E
    by (vm_compute; reflexivity).
  exists (snd (fst res)), (snd res). split; [exact E|].
  apply (proj2 (write_header_read_back _ _ _ _ _ Header.empty E)).
  - reflexivity.
  - eexists. split; [reflexivity|]. vm_compute. intuition discriminate.
  - eexists. split; [reflexivity|]. intros [].
  - discriminate.
  - discriminate.
  - discriminate.
  - discriminate.
Defined.

Lemma writer_header_invariant_witness :
  writer_header_ok
    (mtk.hdr (snd (fst (mtk.mtk_writer_finish_entry example_ctx_pending
                          example_file))))
  /\ mtk.hdr (snd (fst (mtk.mtk_writer_close example_ctx_pending
                          example_file)))
     = mtk.hdr example_ctx_pending.
Proof.
  destruct (writer_header_invariant example_ctx_pending example_file
              example_logical_header) as (_ & F & _ & C).
  split.
  - apply F. vm_compute. repeat split; first [reflexivity | discriminate].
  - apply C. vm_compute. discriminate.
Defined.

(** ** The finalized image verifies *)

Section digest_verifies.
Import android mtk.
Context `{FormatDefs} `{Sha1}.

(** X25: the digest stored in the header is the digest of the finished
    image.  When every segment starts after the Android header, then after
    a finalization by [mtk_writer_close] a digest pass over the file the
    writer left returns [RET_OK] with the 20 bytes stored at the start of
    [id]: writing the header at offset 0 after the digest was computed has
    not changed what the digest covers. *)
Theorem close_digest_verifies (ctx : MtkWriterCtx) (file : File)
  (kh k rh r s d : SegmentWriter.Entry) :
  SegmentWriter.entry (seg ctx) = None ->
  SegmentWriter.entries (seg ctx) = [kh; k; rh; r; s; d] ->
  map SegmentWriter.type [kh; k; rh; r; s; d] = mtk_order ->
  f_faults file = [] -> 0 <= f_pos file ->
  let size := if have_file_size ctx then file_size ctx else f_pos file in
  0 <= size <= UINT64_MAX ->
  Forall (entry_within size) [kh; k; rh; r; s; d] ->
  SegmentWriter.size kh = sizeof_MtkHeader ->
  SegmentWriter.size rh = sizeof_MtkHeader ->
  Forall (fun e => sizeof_AndroidHeader <= SegmentWriter.offset e)
    [kh; k; rh; r; s; d] ->
  exists ctx' file',
    mtk_writer_close ctx file = (RET_OK, ctx', file')
    /\ forall digest0, exists file'',
         _mtk_compute_sha1 (seg ctx') file' digest0
         = (RET_OK, firstn SHA_DIGEST_LENGTH (id (hdr ctx')), file'').
Proof.
  intros Hentry Hseg Hty Hf Hpos size Hsize Hall Hkh Hrh Hafter.
  destruct (mtk_writer_close_OK ctx file kh k rh r s d Hentry Hseg Hty Hf Hpos
              Hsize Hall Hkh Hrh) as (file' & E & D & F).
  cbv zeta in E, D. fold size in E, D.
  pose proof MtkHeader_size_offset_range as Ho.
  assert (entry_within size kh /\ entry_within size rh)
    as ((Hk1 & Hk2 & Hk3) & (Hr1 & Hr2 & Hr3)).
  { inversion Hall as [|? ? ? Hall1]; subst.
    inversion Hall1 as [|? ? ? Hall2]; subst.
    inversion Hall2; subst. auto. }
  rewrite Hkh in Hk3. rewrite Hrh in Hr3.
  unfold sizeof_MtkHeader in Hk3, Hr3. unfold UINT64_MAX in Hsize.
  set (ksize := le32_bytes (kernel_size (hdr ctx) - sizeof_MtkHeader)) in *.
  set (rsize := le32_bytes (ramdisk_size (hdr ctx) - sizeof_MtkHeader)) in *.
  set (data0 := truncate_to (f_data file) size) in *.
  set (data1 := write_at data0 _ ksize) in *.
  set (data2 := write_at data1 _ rsize) in *.
  set (digest := SHA1 (mtk_digest_message data2 kh k rh r s d)) in *.
  set (hdr' := set_id (hdr ctx) _) in *.
  assert (Z.of_nat (length data0) = size) as L0
    by (apply truncate_to_length; lia).
  assert (length ksize = 4%nat) as Lk by apply le32_bytes_length.
  assert (length rsize = 4%nat) as Lr by apply le32_bytes_length.
  assert (length data1 = length data0) as L1
    by (apply write_at_length; lia).
  assert (length data2 = length data1) as L2
    by (apply write_at_length; lia).
  pose proof (android_header_bytes_length hdr') as Lb.
  unfold sizeof_AndroidHeader in Lb.
  assert (608 <= size) as Hbig.
  { inversion Hafter as [|? ? Hkh' _]; subst.
    unfold sizeof_AndroidHeader in Hkh'. lia. }
  assert (file_length file' = size) as Lf
    by (unfold file_length; rewrite D, write_at_length; lia).
  assert (forall e, In e [kh; k; rh; r; s; d] ->
            payload (f_data file') e = payload data2 e) as Hpay.
  { intros e Hin. rewrite Forall_forall in Hafter.
    specialize (Hafter e Hin). unfold sizeof_AndroidHeader in Hafter.
    unfold payload. rewrite D.
    apply sub_bytes_write_at_after; lia. }
  eexists _, file'. split; [exact E|]. intros digest0. cbn [seg hdr].
  destruct (compute_sha1_OK (seg ctx) file' digest0 kh k rh r s d Hseg Hty F)
    as (pos & ops & C & _); [rewrite Lf; exact Hall|].
  rewrite C. eexists. do 2 f_equal.
  unfold hdr', digest. cbn [id set_id].
  rewrite firstn_app, SHA1_length, Nat.sub_diag.
  rewrite firstn_all2 by (rewrite SHA1_length; apply Nat.le_refl).
  cbn [firstn]. rewrite app_nil_r. f_equal.
  unfold mtk_digest_message.
  rewrite !Hpay by (cbn [In]; auto 8). reflexivity.
Qed.

End digest_verifies.

Lemma close_digest_verifies_witness :
  exists ctx' file' file'',
    mtk.mtk_writer_close example_ctx example_file = (RET_OK, ctx', file')
    /\ mtk._mtk_compute_sha1 (mtk.seg ctx') file' []
       = (RET_OK, firstn SHA_DIGEST_LENGTH (android.id (mtk.hdr ctx')),
          file'').
Proof.
  destruct (close_digest_verifies example_ctx example_file example_kh
              example_k example_rh example_r example_s example_d)
    as (ctx' & file' & R & V);
    try reflexivity.
  - vm_compute. discriminate.
  - split; vm_compute; discriminate.
  - exact example_entries_within.
  - repeat (constructor; [vm_compute; discriminate|]). constructor.
  - destruct (V []) as (file'' & C). exists ctx', file', file''.
    split; [exact R|exact C].
Defined.

(** ** The trailer magics *)

Section trailer_properties.
Import android.
Context `{FormatDefs}.

Lemma memcmp_eq_whole buf needle :
  Z.of_nat (length buf) = Z.of_nat (length needle) ->
  memcmp_eq buf needle (Z.of_nat (length buf)) = true -> buf = needle.
Proof.
  intros L. unfold memcmp_eq. rewrite Nat2Z.id. intros E.
  apply bytes_eqb_eq in E.
  rewrite firstn_all in E.
  rewrite firstn_all2 in E by lia. exact E.
Qed.

(** X26: what the trailer finders report.  When
    [find_samsung_seandroid_magic] (resp. [find_bump_magic]) returns
    [RET_OK], the offset it stores is the position it computed from the
    header and the bytes of the file at that offset are the Samsung (resp.
    Bump) magic; with any other code the offset passed in is left as it
    was; and on a file on which no operation fails and that ends before
    the last byte of a non-empty magic could be read, the code is
    [RET_WARN]. *)
Theorem trailer_magic_sound (file : File) (h : AndroidHeader) (off0 : Z) :
  (forall ret off file',
     find_samsung_seandroid_magic file h off0 = (ret, off, file') ->
     (ret = RET_OK ->
      off = magic_pos h
      /\ sub_bytes (f_data file) (magic_pos h) SAMSUNG_SEANDROID_MAGIC_SIZE
         = SAMSUNG_SEANDROID_MAGIC)
     /\ (ret <> RET_OK -> off = off0)
     /\ (f_faults file = [] -> 0 < SAMSUNG_SEANDROID_MAGIC_SIZE ->
         file_length file < magic_pos h + SAMSUNG_SEANDROID_MAGIC_SIZE ->
         ret = RET_WARN))
  /\ (forall ret off file',
        find_bump_magic file h off0 = (ret, off, file') ->
        (ret = RET_OK ->
         off = magic_pos h
         /\ sub_bytes (f_data file) (magic_pos h) BUMP_MAGIC_SIZE
            = BUMP_MAGIC)
        /\ (ret <> RET_OK -> off = off0)
        /\ (f_faults file = [] -> 0 < BUMP_MAGIC_SIZE ->
            file_length file < magic_pos h + BUMP_MAGIC_SIZE ->
            ret = RET_WARN)).
Proof.
  pose proof (magic_pos_nonneg h) as Hp.
  assert (forall needle ret off file',
            match File_seek file (magic_pos h) SEEK_SET with
            | FileErr fatal file1 => (ret_of_file_error fatal, off0, file1)
            | FileOk _ file1 =>
                match file_read_fully file1 (Z.of_nat (length needle)) with
                | FileErr fatal file2 =>
                    (ret_of_file_error fatal, off0, file2)
                | FileOk buf file2 =>
                    if negb (Z.of_nat (length buf)
                             =? Z.of_nat (length needle))
                       || negb (memcmp_eq buf needle
                                  (Z.of_nat (length buf)))
                    then (RET_WARN, off0, file2)
                    else (RET_OK, magic_pos h, file2)
                end
            end = (ret, off, file') ->
            (ret = RET_OK ->
             off = magic_pos h
             /\ sub_bytes (f_data file) (magic_pos h)
                  (Z.of_nat (length needle)) = needle)
            /\ (ret <> RET_OK -> off = off0)
            /\ (f_faults file = [] -> 0 < Z.of_nat (length needle) ->
                file_length file < magic_pos h + Z.of_nat (length needle) ->
                ret = RET_WARN)) as Gen.
  { intros needle ret off file'.
    unfold File_seek, file_read_fully. rewrite Z.add_0_l.
    destruct (file_fault file) as [fatal|] eqn:F1.
    { intros [= <- <- <-]. split; [destruct fatal; discriminate|].
      split; [reflexivity|].
      intros Hf. unfold file_fault in F1. rewrite Hf in F1. discriminate F1. }
    destruct (Z.ltb_spec (magic_pos h) 0); [lia|].
    set (file1 := file_set_pos _ _).
    destruct (file_fault file1) as [fatal|] eqn:F2.
    { intros [= <- <- <-]. split; [destruct fatal; discriminate|].
      split; [reflexivity|].
      intros Hf. unfold file_fault, file1 in F2. cbn in F2.
      rewrite Hf in F2. discriminate F2. }
    change (f_data file1) with (f_data file).
    change (f_pos file1) with (magic_pos h).
    set (buf := sub_bytes (f_data file) (magic_pos h)
                  (Z.of_nat (length needle))).
    destruct (Z.eqb_spec (Z.of_nat (length buf)) (Z.of_nat (length needle)))
      as [Elen|Nlen]; cbn [negb orb].
    - destruct (memcmp_eq buf needle (Z.of_nat (length buf))) eqn:M;
        cbn [negb]; intros [= <- <- <-].
      + split; [intros _; split;
                [reflexivity|exact (memcmp_eq_whole _ _ Elen M)]|].
        split; [congruence|].
        intros _ Hpos Hshort. exfalso.
        unfold buf, sub_bytes, file_length in *.
        rewrite length_firstn, length_skipn in Elen. lia.
      + split; [discriminate|]. split; reflexivity.
    - intros [= <- <- <-]. split; [discriminate|]. split; reflexivity. }
  split; intros ret off file' E.
  - apply (Gen SAMSUNG_SEANDROID_MAGIC ret off file'). exact E.
  - apply (Gen BUMP_MAGIC ret off file'). exact E.
Qed.

End trailer_properties.

Lemma trailer_magic_sound_witness :
  sub_bytes example_image_samsung
    (android.magic_pos example_android_header)
    android.SAMSUNG_SEANDROID_MAGIC_SIZE
  = SAMSUNG_SEANDROID_MAGIC.
Proof.
  set (res := android.find_samsung_seandroid_magic
                (file_of example_image_samsung) example_android_header 0).
  assert (res = (RET_OK, snd (fst res), snd res)) as E
    by (vm_compute; reflexivity).
  exact (proj2 (proj1 (proj1 (trailer_magic_sound
                                (file_of example_image_samsung)
                                example_android_header 0) _ _ _ E)
                  eq_refl)).
Defined.
